(** * SAP Community scraper: the crawl loop of [script.py]

    A shallow embedding of [src/script.py]: the filename derivation, the
    checkpoint store, the incremental result sink, the content and image
    extractors and the crawl orchestrator [scrape_sap_community], followed
    by the properties of the specification stated over them.

    Conventions.
    - Python [str] values are [string]s (byte strings; the patterns the
      code looks for are all ASCII).
    - Python [int]s are [Z].
    - The rendering client (Playwright), the network and the file system
      are outside the program.  They are a record of oracles ([World])
      that says what each navigation, each DOM query and each download
      answers, indexed by the list page and the URL they belong to, and
      which files can be written; the disk is a finite map from paths to
      file contents.
    - The run keeps a log of what it does ([Event]): the writes of the
      persisted artifacts, the navigations and the appends.  The
      properties of a run are stated over this log.
    - An operation that can raise returns an [outcome]; the crawl itself
      runs in a state-and-exception monad [M] over the run's [State].
    - A timed wait ([page.wait_for_timeout]) that directly follows a
      navigation inside its [try] block belongs to that navigation; the
      other waits are steps of their own ([Pause]), since they raise when
      the page is gone and most of them are outside every [try].  Console
      output does nothing.  The debug-only diagnostic snapshots, which
      write files outside the persisted artifacts and change no control
      flow, are left out. *)

From Stdlib Require Import ZArith Ascii String List Bool Lia Sorted.
From Stdlib Require Import DecimalString DecimalZ DecimalPos.
From stdpp Require Import base option list gmap strings.


Open Scope Z_scope.

(** ** Python string operations used by the script *)

Module Py.

(** [s.startswith(p)] *)
Definition startswith (s p : string) : bool := String.prefix p s.

(** [needle in hay] for two strings *)
Fixpoint str_in (needle hay : string) : bool :=
  String.prefix needle hay ||
  match hay with
  | EmptyString => false
  | String _ rest => str_in needle rest
  end.

(** [c in s] for a single character *)
Fixpoint has_char (c : ascii) (s : string) : bool :=
  match s with
  | EmptyString => false
  | String d rest => Ascii.eqb c d || has_char c rest
  end.

(** [s.split(sep)] for a one-character separator: always at least one
    field, empty fields kept. *)
Fixpoint split_on (sep : ascii) (s : string) : list string :=
  match s with
  | EmptyString => [EmptyString]
  | String c rest =>
      if Ascii.eqb c sep then EmptyString :: split_on sep rest
      else match split_on sep rest with
           | [] => [String c EmptyString]
           | f :: fs => String c f :: fs
           end
  end.

(** [s[:n]] *)
Fixpoint take (n : nat) (s : string) : string :=
  match n, s with
  | S n', String c rest => String c (take n' rest)
  | _, _ => EmptyString
  end.

(** the part of [s] before the first character satisfying [p] (all of [s]
    when there is none), and the part from that character on *)
Fixpoint before (p : ascii -> bool) (s : string) : string :=
  match s with
  | EmptyString => EmptyString
  | String c rest => if p c then EmptyString else String c (before p rest)
  end.

Fixpoint from (p : ascii -> bool) (s : string) : string :=
  match s with
  | EmptyString => EmptyString
  | String c rest => if p c then s else from p rest
  end.

(** [str(n)] for an [int] *)
Definition str_of_int (n : Z) : string := NilZero.string_of_int (Z.to_int n).

(** [sep.join(l)] *)
Fixpoint join (sep : string) (l : list string) : string :=
  match l with
  | [] => EmptyString
  | [x] => x
  | x :: rest => x +:+ sep +:+ join sep rest
  end.

(** [s.strip()] need not be modelled: the stripped fields are oracle
    answers.  Truthiness of a string: non-empty. *)
Definition truthy (s : string) : bool :=
  match s with EmptyString => false | _ => true end.

Definition quote_char : ascii := ascii_of_nat 34.
Definition backslash_char : ascii := ascii_of_nat 92.

(** the character class of the two filename clean-ups: the angle
    brackets, colon, double quote, slash, backslash, bar, question mark
    and star *)
Definition unsafe_filename_char (c : ascii) : bool :=
  existsb (Ascii.eqb c)
    ["<"%char; ">"%char; ":"%char; quote_char; "/"%char; backslash_char;
     "|"%char; "?"%char; "*"%char].

(** [re.sub] of that class by an underscore, character by character *)
Fixpoint sub_unsafe (s : string) : string :=
  match s with
  | EmptyString => EmptyString
  | String c rest =>
      String (if unsafe_filename_char c then "_"%char else c) (sub_unsafe rest)
  end.

(** [\s] on the ASCII range: tab, LF, VT, FF, CR, FS, GS, RS, US, space *)
Definition is_space (c : ascii) : bool :=
  let n := nat_of_ascii c in
  ((9 <=? n) && (n <=? 13) || (28 <=? n) && (n <=? 32))%nat.

Definition dash_or_space (c : ascii) : bool := Ascii.eqb c "-"%char || is_space c.

(** [re.sub(r'[-\s]+', '_', s)]: every maximal run of dashes and white
    space becomes one underscore.  [in_run] tells that the previous
    character belonged to a run already replaced. *)
Fixpoint sub_runs (in_run : bool) (s : string) : string :=
  match s with
  | EmptyString => EmptyString
  | String c rest =>
      if dash_or_space c
      then (if in_run then sub_runs true rest else String "_"%char (sub_runs true rest))
      else String c (sub_runs false rest)
  end.

Definition sub_dash_space (s : string) : string := sub_runs false s.

(** *** [urllib.parse.urlparse(url).path]

    The path component as [urlsplit] and [urlparse] compute it, for a URL
    without control characters and without brackets in its authority:
    a scheme is removed when the text before the first colon starts with
    a letter and consists of scheme characters; an authority introduced
    by [//] runs to the next [/], [?] or [#]; the fragment, the query and
    the parameters of the last path segment are cut off. *)

Definition is_alpha (c : ascii) : bool :=
  let n := nat_of_ascii c in
  ((65 <=? n) && (n <=? 90) || (97 <=? n) && (n <=? 122))%nat.

Definition is_digit (c : ascii) : bool :=
  let n := nat_of_ascii c in ((48 <=? n) && (n <=? 57))%nat.

Definition scheme_char (c : ascii) : bool :=
  is_alpha c || is_digit c ||
  existsb (Ascii.eqb c) ["+"%char; "-"%char; "."%char].

Fixpoint all_chars (p : ascii -> bool) (s : string) : bool :=
  match s with
  | EmptyString => true
  | String c rest => p c && all_chars p rest
  end.

Definition is_colon (c : ascii) : bool := Ascii.eqb c ":"%char.

Definition drop_scheme (url : string) : string :=
  match url with
  | EmptyString => url
  | String c0 _ =>
      if has_char ":"%char url && is_alpha c0 && all_chars scheme_char (before is_colon url)
      then match from is_colon url with
           | String _ rest => rest
           | EmptyString => url
           end
      else url
  end.

Definition netloc_end (c : ascii) : bool :=
  existsb (Ascii.eqb c) ["/"%char; "?"%char; "#"%char].

Definition drop_netloc (url : string) : string :=
  match url with
  | String "/" (String "/" rest) => from netloc_end rest
  | _ => url
  end.

(** [_splitparams]: cut at the first [;] that no [/] follows *)
Fixpoint strip_params (s : string) : string :=
  match s with
  | EmptyString => EmptyString
  | String c rest =>
      if Ascii.eqb c ";"%char && negb (has_char "/"%char rest) then EmptyString
      else String c (strip_params rest)
  end.

Definition urlparse_path (url : string) : string :=
  let u := drop_netloc (drop_scheme url) in
  let u := before (fun c => Ascii.eqb c "#"%char) u in
  let u := before (fun c => Ascii.eqb c "?"%char) u in
  strip_params u.

(** [os.path.join(a, b)] on POSIX *)
Definition path_join (a b : string) : string :=
  if startswith b "/" then b
  else match a with
       | EmptyString => b
       | _ => if String.eqb (String.substring (String.length a - 1) 1 a) "/"
              then a +:+ b else a +:+ "/" +:+ b
       end.

(** *** [strip] and [os.path.splitext] *)

Definition lstrip (s : string) : string := from (fun c => negb (is_space c)) s.

Fixpoint rstrip (s : string) : string :=
  match s with
  | EmptyString => EmptyString
  | String c rest =>
      match rstrip rest with
      | EmptyString => if is_space c then EmptyString else String c EmptyString
      | kept => String c kept
      end
  end.

(** [s.strip()] *)
Definition strip (s : string) : string := rstrip (lstrip s).

(** the text after the last [/] *)
Fixpoint last_segment (s : string) : string :=
  match s with
  | EmptyString => EmptyString
  | String c rest =>
      if has_char "/"%char rest then last_segment rest
      else if Ascii.eqb c "/"%char then rest else s
  end.

(** the extension of a file name without directory part: from its last
    dot on, when a character other than a dot comes before that dot *)
Fixpoint ext_of (seen_other : bool) (s : string) : string :=
  match s with
  | EmptyString => EmptyString
  | String c rest =>
      let is_dot := Ascii.eqb c "."%char in
      match ext_of (seen_other || negb is_dot) rest with
      | EmptyString => if is_dot && seen_other then s else EmptyString
      | e => e
      end
  end.

(** [os.path.splitext(p)[1]] *)
Definition splitext_ext (p : string) : string := ext_of false (last_segment p).

End Py.

(** ** [generate_filename_from_url] *)

Definition boilerplate_segments : list string := ["t5"; "qa-p"; "ct-p"].

Definition meaningful_part (part : string) : bool :=
  Py.truthy part && negb (existsb (String.eqb part) boilerplate_segments).

Definition generate_filename_from_url (url : string) : string :=
  let path := Py.urlparse_path url in
  let parts := filter (fun part => Is_true (meaningful_part part)) (Py.split_on "/"%char path) in
  match parts with
  | section_name :: _ =>
      let clean_name := Py.sub_unsafe section_name in
      let clean_name := Py.sub_dash_space clean_name in
      "sap_community_" +:+ clean_name
  | [] => "sap_community_data"
  end.



(** ** Regular expressions: [re.search]

    The script asks [re.search(pattern, s)] only whether there is a match.
    Patterns are kept as syntax and searched with derivatives; [Matches]
    is the language of a pattern.  As in Python, the dot stands for any
    character but the line feed. *)

Module Re.

Inductive regex : Type :=
| Void
| Eps
| Chr (c : ascii)
| Dot
| Cat (r1 r2 : regex)
| Alt (r1 r2 : regex)
| Star (r : regex).

Definition Plus (r : regex) : regex := Cat r (Star r).

Fixpoint Lit (s : string) : regex :=
  match s with
  | EmptyString => Eps
  | String c rest => Cat (Chr c) (Lit rest)
  end.

Definition newline : ascii := ascii_of_nat 10.

Inductive Matches : regex -> list ascii -> Prop :=
| MEps : Matches Eps []
| MChr c : Matches (Chr c) [c]
| MDot c : c ≠ newline -> Matches Dot [c]
| MCat r1 r2 s1 s2 : Matches r1 s1 -> Matches r2 s2 -> Matches (Cat r1 r2) (s1 ++ s2)
| MAltL r1 r2 s : Matches r1 s -> Matches (Alt r1 r2) s
| MAltR r1 r2 s : Matches r2 s -> Matches (Alt r1 r2) s
| MStarNil r : Matches (Star r) []
| MStarApp r s1 s2 : Matches r s1 -> Matches (Star r) s2 -> Matches (Star r) (s1 ++ s2).

Fixpoint nullable (r : regex) : bool :=
  match r with
  | Void | Chr _ | Dot => false
  | Eps | Star _ => true
  | Cat r1 r2 => nullable r1 && nullable r2
  | Alt r1 r2 => nullable r1 || nullable r2
  end.

Fixpoint deriv (c : ascii) (r : regex) : regex :=
  match r with
  | Void | Eps => Void
  | Chr d => if Ascii.eqb c d then Eps else Void
  | Dot => if Ascii.eqb c newline then Void else Eps
  | Cat r1 r2 =>
      if nullable r1 then Alt (Cat (deriv c r1) r2) (deriv c r2)
      else Cat (deriv c r1) r2
  | Alt r1 r2 => Alt (deriv c r1) (deriv c r2)
  | Star r1 => Cat (deriv c r1) (Star r1)
  end.

(** some prefix of [s] is in the language of [r] *)
Fixpoint match_prefix (r : regex) (s : list ascii) : bool :=
  nullable r ||
  match s with
  | [] => false
  | c :: rest => match_prefix (deriv c r) rest
  end.

(** some substring of [s] is in the language of [r] *)
Fixpoint search_list (r : regex) (s : list ascii) : bool :=
  match_prefix r s ||
  match s with
  | [] => false
  | _ :: rest => search_list r rest
  end.

(** truthiness of [re.search(r, s)] *)
Definition search (r : regex) (s : string) : bool :=
  search_list r (list_ascii_of_string s).

End Re.

(** ** Link filtering (the loops after the link discovery) *)

Definition SITE_ROOT : string := "https://community.sap.com".

(** [href if href.startswith('http') else 'https://community.sap.com' + href] *)
Definition normalize_href (href : string) : string :=
  if Py.startswith href "http" then href else SITE_ROOT +:+ href.

(** [r'/t5/.+/(?:qaq|qaa|qa)-p/'] *)
Definition thread_pattern : Re.regex :=
  Re.Cat (Re.Lit "/t5/")
    (Re.Cat (Re.Plus Re.Dot)
       (Re.Cat (Re.Lit "/")
          (Re.Cat (Re.Alt (Re.Lit "qaq") (Re.Alt (Re.Lit "qaa") (Re.Lit "qa")))
             (Re.Lit "-p/")))).

Definition PROFILE_PATTERN : string := "/user/viewprofilepage".

(** the first loop: normalise, skip profile pages, keep thread pages *)
Fixpoint filter_links (q_urls : list string) (filtered : list string) : list string :=
  match q_urls with
  | [] => filtered
  | href :: rest =>
      let full := normalize_href href in
      if Py.str_in PROFILE_PATTERN full then filter_links rest filtered
      else if Re.search thread_pattern full then filter_links rest (filtered ++ [full])
      else filter_links rest filtered
  end.

(** the second loop: deduplicate with the set [seen], keeping the order *)
Fixpoint dedupe_links (filtered : list string) (seen : gset string) (q_urls : list string)
  : list string :=
  match filtered with
  | [] => q_urls
  | u :: rest =>
      if decide (u ∈ seen) then dedupe_links rest seen q_urls
      else dedupe_links rest ({[u]} ∪ seen) (q_urls ++ [u])
  end.

Definition valid_thread_links (hrefs : list string) : list string :=
  dedupe_links (filter_links hrefs []) ∅ [].





(** ** Exceptions *)

(** The two kinds of [Exception] the script tells apart: Playwright's
    [TimeoutError], which the selector wait swallows, and any other. *)
Inductive exn : Type := TimeoutError | OtherError.

Inductive outcome (A : Type) : Type :=
| Ok (a : A)
| Raise (e : exn).
Arguments Ok {A} a.
Arguments Raise {A} e.

#[global] Instance outcome_ret : MRet outcome := @Ok.
#[global] Instance outcome_bind : MBind outcome := fun A B f o =>
  match o with
  | Ok a => f a
  | Raise e => Raise e
  end.

Definition is_ok {A} (o : outcome A) : bool :=
  match o with Ok _ => true | Raise _ => false end.

(** ** Data model *)

Record ImageRef : Type := {
  original_url : string;
  local_path : string;
  alt_text : string;
  filename : string
}.

(** one entry of [responses] in [extract_all_responses] *)
Record Response : Type := {
  response_number : Z;
  text : string;
  is_accepted : bool;
  author : string;
  date : string;
  images : list ImageRef
}.

(** one result entry; the keys that only one of the two kinds of entry
    carries are optional *)
Record ThreadRecord : Type := {
  page_number : Z;
  system : option string;
  title : string;
  question : string;
  question_images : list ImageRef;
  tags : list string;
  url : string;
  total_responses : Z;
  all_responses : list Response;
  accepted_responses : option (list Response);
  non_accepted_responses : list Response;
  primary_accepted_response : option string;
  primary_response : option string
}.

(** one row of the spreadsheet *)
Record ExcelRow : Type := {
  row_page_number : Z;
  row_system : option string;
  row_title : string;
  row_question : string;
  row_question_images : string;
  row_total_responses : Z;
  row_accepted_responses : string;
  row_other_responses : string;
  row_all_responses_summary : string;
  row_tags : string;
  row_url : string;
  row_has_accepted_answer : string
}.

(** What a file on the disk holds.  A checkpoint is a JSON object whose
    keys [last_page] and [last_url] may be missing (the time stamp, never
    read back, is left out); a result file is a JSON list of entries. *)
Inductive FileContent : Type :=
| CheckpointJson (last_page : option Z) (last_url : option string)
| ResultsJson (records : list ThreadRecord)
| ExcelSheet (rows : list ExcelRow)
| Unreadable.

(** ** The world outside the program *)

(** an [img] element: its attributes and what downloading it does *)
Record ImgElem : Type := {
  img_src : outcome (option string);     (* get_attribute("src") *)
  img_alt : outcome (option string);     (* get_attribute("alt") *)
  img_status : outcome Z;                (* session.get(src): response.status *)
  img_store : outcome unit               (* response.read() and the write to local_path *)
}.

(** an answer element of a detail page *)
Record AnswerElem : Type := {
  ans_body : outcome (option string);    (* text of the first matching body selector *)
  ans_inner_text : outcome string;       (* answer_elem.inner_text() *)
  ans_class : outcome (option string);   (* get_attribute("class") *)
  ans_author : outcome (option string);  (* text of the author element, if any *)
  ans_date : outcome (option string);    (* text of the date element, if any *)
  ans_imgs : outcome (list ImgElem)      (* os.makedirs and query_selector_all("img") *)
}.

(** the question body element *)
Record BodyElem : Type := {
  body_text : outcome string;            (* question_element.inner_text() *)
  body_imgs : outcome (list ImgElem)     (* os.makedirs and query_selector_all("img") *)
}.

(** a loaded detail page *)
Record ThreadPage : Type := {
  tp_title : outcome string;             (* [title] after the title selectors and the fallback *)
  tp_body : outcome (option BodyElem);   (* first body selector that matches *)
  tp_tags : outcome (list string);       (* [tags] after both methods *)
  tp_system : outcome (option string);   (* [system] after both methods *)
  tp_url : string;                       (* page.url *)
  tp_answers : outcome (list AnswerElem) (* query_selector_all of the answer views *)
}.

(** a loaded list page: the selector wait and the anchors each of the
    three selector strategies finds, each anchor with its [href] *)
Record ListPage : Type := {
  lp_wait_selector : outcome unit;
  lp_thread_links : outcome (list (outcome (option string)));
  lp_title_links : outcome (list (outcome (option string)));
  lp_t5_links : outcome (list (outcome (option string)))
}.

(** the timed waits of the retry logic and around the fetch; all but
    [Backoff] are outside every [try] *)
Inductive Pause : Type :=
| BeforeFetch (page_num : Z)                          (* after the checkpoint of a page *)
| Backoff (page_num : Z) (attempt : nat)              (* after a blocked answer, in the try *)
| AfterFailure (page_num : Z) (attempt : nat)         (* in the handler of a failed attempt *)
| Settle (page_num : Z)                               (* after a list page has loaded *)
| ThreadRetry (page_num : Z) (q_url : string) (attempt : nat). (* in the handler of a failed
                                                         navigation to a thread *)

Record World : Type := {
  launch : outcome unit;                       (* starting Playwright, browser, context, page *)
  close : outcome unit;                        (* browser.close() *)
  mkdir : string -> outcome unit;              (* os.makedirs(dir, exist_ok=True) *)
  writable : string -> bool;                   (* the file can be opened for writing *)
  wait : Pause -> outcome unit;                (* page.wait_for_timeout(ms) *)
  list_goto : Z -> nat -> outcome string;      (* page, attempt: goto, wait, page.title() *)
  list_page : Z -> ListPage;
  thread_goto : Z -> string -> nat -> outcome unit;  (* page, url, attempt: goto, wait *)
  thread_page : Z -> string -> ThreadPage
}.

(** ** The run's state and its monad *)

Inductive Artifact : Type := ACheckpoint | AAccepted | ANoAccepted | AExcel.

(** What the run does, in order.  [EvFlushed] is a ghost event: it is
    recorded when the flush has written both structured files and carries
    the disk as it is at that moment and the base filename used. *)
Inductive Event : Type :=
| EvWrite (a : Artifact) (path : string) (content : FileContent)
| EvFlushed (disk_now : gmap string FileContent) (base : string)
| EvGotoList (page_num : Z) (url : string) (attempt : nat)
| EvGotoThread (page_num : Z) (q_url : string) (attempt : nat)
| EvAppend (page_num : Z) (accepted : bool) (r : ThreadRecord).

Record State : Type := {
  disk : gmap string FileContent;
  accepted_results : list ThreadRecord;
  no_accepted_results : list ThreadRecord;
  base_filename : string;
  visited_count : Z;
  stop_all : bool;
  log : list Event
}.

Definition M (A : Type) : Type := State -> outcome A * State.

#[global] Instance M_ret : MRet M := fun A a st => (Ok a, st).
#[global] Instance M_bind : MBind M := fun A B f m st =>
  match m st with
  | (Ok a, st') => f a st'
  | (Raise e, st') => (Raise e, st')
  end.

Definition raise {A} (e : exn) : M A := fun st => (Raise e, st).

(** [try: m  except Exception as e: h e]; what [m] did to the state before
    it raised stays done *)
Definition try_catch {A} (m : M A) (h : exn -> M A) : M A := fun st =>
  match m st with
  | (Ok a, st') => (Ok a, st')
  | (Raise e, st') => h e st'
  end.

Definition lift {A} (o : outcome A) : M A := fun st => (o, st).
Definition gets {A} (f : State -> A) : M A := fun st => (Ok (f st), st).
Definition modify (f : State -> State) : M unit := fun st => (Ok tt, f st).

Definition emit (ev : Event) : M unit :=
  modify (fun st =>
    {| disk := disk st; accepted_results := accepted_results st;
       no_accepted_results := no_accepted_results st;
       base_filename := base_filename st; visited_count := visited_count st;
       stop_all := stop_all st; log := log st ++ [ev] |}).

Definition set_disk (d : gmap string FileContent) : M unit :=
  modify (fun st =>
    {| disk := d; accepted_results := accepted_results st;
       no_accepted_results := no_accepted_results st;
       base_filename := base_filename st; visited_count := visited_count st;
       stop_all := stop_all st; log := log st |}).

Definition set_base_filename (b : string) : M unit :=
  modify (fun st =>
    {| disk := disk st; accepted_results := accepted_results st;
       no_accepted_results := no_accepted_results st;
       base_filename := b; visited_count := visited_count st;
       stop_all := stop_all st; log := log st |}).

Definition set_stop_all : M unit :=
  modify (fun st =>
    {| disk := disk st; accepted_results := accepted_results st;
       no_accepted_results := no_accepted_results st;
       base_filename := base_filename st; visited_count := visited_count st;
       stop_all := true; log := log st |}).

(** [results.append(r); visited_count += 1] *)
Definition append_result (page_num : Z) (accepted : bool) (r : ThreadRecord) : M unit :=
  modify (fun st =>
    {| disk := disk st;
       accepted_results :=
         if accepted then accepted_results st ++ [r] else accepted_results st;
       no_accepted_results :=
         if accepted then no_accepted_results st else no_accepted_results st ++ [r];
       base_filename := base_filename st; visited_count := visited_count st + 1;
       stop_all := stop_all st;
       log := log st ++ [EvAppend page_num accepted r] |}).

(** ** The image fetcher: [extract_images_from_element] *)

Section Extractor.

(** [urllib.parse.urljoin], a library function the script only passes
    values through *)
Variable urljoin : string -> string -> string.

(** the three cases of the relative-URL handling *)
Definition resolve_src (base_url src : string) : string :=
  if Py.startswith src "//" then "https:" +:+ src
  else if Py.startswith src "/" then urljoin base_url src
  else if negb (Py.startswith src "http") then urljoin base_url src
  else src.

(** [x or d] for an optional string *)
Definition or_default (x : option string) (d : string) : string :=
  match x with
  | Some s => if Py.truthy s then s else d
  | None => d
  end.

(** The body of the loop over the [img] elements, inside its [try]: the
    entry appended for image number [i], or nothing when the image has no
    source or is answered with another status than 200. *)
Definition image_entry (base_url images_dir : string) (i : nat) (img : ImgElem)
  : outcome (option ImageRef) :=
  src ← img_src img;
  alt_attr ← img_alt img;
  let alt := or_default alt_attr ("image_" +:+ Py.str_of_int (Z.of_nat i)) in
  if negb (Py.truthy (default "" src)) then Ok None
  else
    let src := resolve_src base_url (default "" src) in
    let file_ext := or_default (Some (Py.splitext_ext (Py.urlparse_path src))) ".jpg" in
    let safe_filename :=
      Py.take 50 (Py.sub_unsafe alt) +:+ "_" +:+ Py.str_of_int (Z.of_nat i) +:+ file_ext in
    let local_path := Py.path_join images_dir safe_filename in
    status ← img_status img;
    if status =? 200 then
      _ ← img_store img;
      Ok (Some {| original_url := src; local_path := local_path;
                  alt_text := alt; filename := safe_filename |})
    else Ok None.

(** the loop, from index [i] on; an exception skips the image *)
Fixpoint images_from (base_url images_dir : string) (i : nat) (imgs : list ImgElem)
  : list ImageRef :=
  match imgs with
  | [] => []
  | img :: rest =>
      match image_entry base_url images_dir i img with
      | Ok (Some entry) => entry :: images_from base_url images_dir (S i) rest
      | Ok None | Raise _ => images_from base_url images_dir (S i) rest
      end
  end.

(** the whole function; [img_elements] is what creating the directory
    and querying the [img] elements give, an exception there leaves the
    list empty *)
Definition extract_images_from_element
    (img_elements : outcome (list ImgElem)) (base_url images_dir : string) : list ImageRef :=
  match img_elements with
  | Ok imgs => images_from base_url images_dir 0 imgs
  | Raise _ => []
  end.

(** ** The content extractor: [extract_all_responses] *)

(** the test on the [class] attribute *)
Definition accepted_class (classes : string) : bool :=
  Py.str_in "lia-accepted-solution" classes || Py.str_in "lia-list-row-thread-solved" classes.

(** the body of the loop over the answer elements, inside its [try] *)
Definition response_entry (page_url : string) (i : nat) (answer_elem : AnswerElem)
  : outcome Response :=
  body ← ans_body answer_elem;
  response_text ←
    (if Py.truthy (default "" body) then Ok (default "" body)
     else ans_inner_text answer_elem);
  class_attr ← ans_class answer_elem;
  let classes := or_default class_attr "" in
  let is_accepted := accepted_class classes in
  author_attr ← ans_author answer_elem;
  let author := default "" author_attr in
  date_attr ← ans_date answer_elem;
  let date := default "" date_attr in
  let images := extract_images_from_element (ans_imgs answer_elem) page_url "images" in
  Ok {| response_number := Z.of_nat i + 1;
        text := Py.strip response_text;
        is_accepted := is_accepted;
        author := Py.strip author;
        date := Py.strip date;
        images := images |}.

Fixpoint responses_from (page_url : string) (i : nat) (answer_elements : list AnswerElem)
  : list Response :=
  match answer_elements with
  | [] => []
  | answer_elem :: rest =>
      match response_entry page_url i answer_elem with
      | Ok r => r :: responses_from page_url (S i) rest
      | Raise _ => responses_from page_url (S i) rest
      end
  end.

Definition extract_all_responses (page : ThreadPage) : list Response :=
  match tp_answers page with
  | Ok answer_elements => responses_from (tp_url page) 0 answer_elements
  | Raise _ => []
  end.

End Extractor.

(** ** Checkpoint store and result sink *)

Definition SCRAPPED_DATA_DIR : string := "scrapped_data".

Definition checkpoint_file (base : string) : string :=
  Py.path_join SCRAPPED_DATA_DIR (base +:+ "_checkpoint.json").
Definition accepted_json_file (base : string) : string :=
  Py.path_join SCRAPPED_DATA_DIR (base +:+ "_accepted.json").
Definition no_accepted_json_file (base : string) : string :=
  Py.path_join SCRAPPED_DATA_DIR (base +:+ "_no_accepted.json").
Definition excel_filename (base : string) : string :=
  Py.path_join SCRAPPED_DATA_DIR (base +:+ ".xlsx").

(** [load_progress_checkpoint]: a missing file, a file that is not JSON
    and a JSON value that is not an object all give [(0, '')] *)
Definition load_progress_checkpoint (d : gmap string FileContent) (base : string)
  : Z * string :=
  match d !! checkpoint_file base with
  | Some (CheckpointJson last_page last_url) => (default 0 last_page, default "" last_url)
  | _ => (0, "")
  end.

(** the spreadsheet rows of [_save_results_incrementally] *)

Definition resp_text (resp : Response) : string :=
  let t := "[" +:+ author resp +:+ "] " +:+ Py.take 200 (text resp) +:+ "..." in
  match images resp with
  | [] => t
  | imgs => t +:+ " [" +:+ Py.str_of_int (Z.of_nat (length imgs)) +:+ " image(s)]"
  end.

Definition images_info (imgs : list ImageRef) : string :=
  Py.join "; " (map filename imgs).

Definition accepted_row (a : ThreadRecord) : ExcelRow :=
  {| row_page_number := page_number a;
     row_system := system a;
     row_title := title a;
     row_question := question a;
     row_question_images := images_info (question_images a);
     row_total_responses := total_responses a;
     row_accepted_responses :=
       Py.join " | " (map resp_text (List.filter is_accepted (all_responses a)));
     row_other_responses :=
       Py.join " | " (map resp_text (List.filter (fun r => negb (is_accepted r)) (all_responses a)));
     row_all_responses_summary := Py.join " | " (map resp_text (all_responses a));
     row_tags := Py.join "; " (tags a);
     row_url := url a;
     row_has_accepted_answer := "Yes" |}.

Definition no_accepted_row (n : ThreadRecord) : ExcelRow :=
  let responses_summary := Py.join " | " (map resp_text (all_responses n)) in
  {| row_page_number := page_number n;
     row_system := system n;
     row_title := title n;
     row_question := question n;
     row_question_images := images_info (question_images n);
     row_total_responses := total_responses n;
     row_accepted_responses := "";
     row_other_responses := responses_summary;
     row_all_responses_summary := responses_summary;
     row_tags := Py.join "; " (tags n);
     row_url := url n;
     row_has_accepted_answer := "No" |}.

(** the second loop skips an entry whose URL a row already has *)
Fixpoint add_no_accepted_rows (no_accepted_list : list ThreadRecord) (excel_rows : list ExcelRow)
  : list ExcelRow :=
  match no_accepted_list with
  | [] => excel_rows
  | n :: rest =>
      if existsb (fun row => String.eqb (row_url row) (url n)) excel_rows
      then add_no_accepted_rows rest excel_rows
      else add_no_accepted_rows rest (excel_rows ++ [no_accepted_row n])
  end.

Definition excel_rows_of (accepted_list no_accepted_list : list ThreadRecord) : list ExcelRow :=
  add_no_accepted_rows no_accepted_list (map accepted_row accepted_list).

Section Sink.

Variable w : World.

(** [open(path, 'w')] and the write: the content replaces the file, or
    the open raises and the disk is as before *)
Definition write_file (a : Artifact) (path : string) (content : FileContent) : M unit :=
  emit (EvWrite a path content);;
  if writable w path
  then d ← gets disk; set_disk (<[path := content]> d)
  else raise OtherError.

(** [save_progress_checkpoint]: the directory is made outside the [try],
    the write inside it *)
Definition save_progress_checkpoint (base : string) (current_page : Z) (current_url : string)
  : M unit :=
  lift (mkdir w SCRAPPED_DATA_DIR);;
  try_catch
    (write_file ACheckpoint (checkpoint_file base)
       (CheckpointJson (Some current_page) (Some current_url)))
    (fun _ => mret tt).

Definition flushed : M unit :=
  d ← gets disk; b ← gets base_filename; emit (EvFlushed d b).

(** [_save_results_incrementally]; [base_filename] is the variable of the
    enclosing function, read when the names are built *)
Definition _save_results_incrementally (accepted_list no_accepted_list : list ThreadRecord)
  : M unit :=
  lift (mkdir w SCRAPPED_DATA_DIR);;
  base ← gets base_filename;
  write_file AAccepted (accepted_json_file base) (ResultsJson accepted_list);;
  write_file ANoAccepted (no_accepted_json_file base) (ResultsJson no_accepted_list);;
  flushed;;
  let excel_rows := excel_rows_of accepted_list no_accepted_list in
  match excel_rows with
  | [] => mret tt
  | _ =>
      base ← gets base_filename;
      write_file AExcel (excel_filename base) (ExcelSheet excel_rows)
  end.

End Sink.

(** ** The crawl orchestrator: [scrape_sap_community] *)

(** how an iteration of a [for] loop ends: it goes on, or it breaks *)
Inductive ctl : Type := Continue | Break.

(** [max_questions is not None and visited_count >= max_questions] *)
Definition quota_reached (max_questions : option Z) (visited_count : Z) : bool :=
  match max_questions with
  | Some n => n <=? visited_count
  | None => false
  end.

(** the title of a page that answers a blocked request *)
Definition blocked_title (title : string) : bool :=
  Py.str_in "403" title || Py.str_in "Forbidden" title || Py.str_in "Access Denied" title.

(** the selector wait: only its time-out is caught *)
Definition wait_for_links (lp : ListPage) : outcome unit :=
  match lp_wait_selector lp with
  | Raise TimeoutError => Ok tt
  | o => o
  end.

(** [href = await q.get_attribute("href")], kept when truthy *)
Fixpoint collect_hrefs (question_links : list (outcome (option string)))
  : outcome (list string) :=
  match question_links with
  | [] => Ok []
  | q :: rest =>
      href ← q;
      hrefs ← collect_hrefs rest;
      Ok (if Py.truthy (default "" href) then default "" href :: hrefs else hrefs)
  end.

Definition is_nil {A} (l : list A) : bool :=
  match l with [] => true | _ => false end.

(** the link discovery of a loaded list page, with its two fall-backs;
    nothing here is inside a [try] but the selector wait *)
Definition discover_links (lp : ListPage) : outcome (list string) :=
  wait_for_links lp;;
  question_links ← lp_thread_links lp;
  question_links ← (if is_nil question_links then lp_title_links lp else Ok question_links);
  question_links ← (if is_nil question_links then lp_t5_links lp else Ok question_links);
  collect_hrefs question_links.

(** the result entry built from the extracted parts *)
Definition result_entry (page_num : Z) (system : option string) (title question_body : string)
    (question_images : list ImageRef) (tags : list string) (q_url : string)
    (all_responses : list Response) : ThreadRecord :=
  let accepted := List.filter is_accepted all_responses in
  let non_accepted := List.filter (fun r => negb (is_accepted r)) all_responses in
  {| page_number := page_num;
     system := system;
     title := title;
     question := question_body;
     question_images := question_images;
     tags := tags;
     url := q_url;
     total_responses := Z.of_nat (length all_responses);
     all_responses := all_responses;
     accepted_responses := if is_nil accepted then None else Some accepted;
     non_accepted_responses := non_accepted;
     primary_accepted_response :=
       match accepted with
       | first :: _ => Some (text first)
       | [] => None
       end;
     primary_response :=
       match accepted, non_accepted with
       | [], first :: _ => Some (text first)
       | [], [] => Some ""
       | _ :: _, _ => None
       end |}.

Section Orchestrator.

Variable urljoin : string -> string -> string.
Variable w : World.
Variable topic_url : string.
Variable max_pages : Z.
Variable max_questions : option Z.
Variable resume : bool.

(** [if attempt < 2: await page.wait_for_timeout(...)] *)
Definition wait_unless_last (attempt : nat) (pause : Pause) : M unit :=
  if (attempt <? 2)%nat then lift (wait w pause) else mret tt.

(** The three attempts at a list page, from attempt number [attempt] on.
    The [try] block answers whether the page is there; a blocked page
    waits and goes to the next attempt, an exception is handled by a wait
    and goes to the next attempt too. *)
Fixpoint goto_list_attempts (page_num : Z) (url : string) (attempt remaining : nat) : M bool :=
  match remaining with
  | O => mret false
  | S k =>
      emit (EvGotoList page_num url attempt);;
      success ←
        try_catch
          (title ← lift (list_goto w page_num attempt);
           if blocked_title title
           then wait_unless_last attempt (Backoff page_num attempt);; mret false
           else mret true)
          (fun _ => wait_unless_last attempt (AfterFailure page_num attempt);; mret false);
      if (success : bool) then mret true
      else goto_list_attempts page_num url (S attempt) k
  end.

(** the two attempts at a detail page; the handler waits before the next *)
Fixpoint goto_thread_attempts (page_num : Z) (q_url : string) (attempt remaining : nat)
  : M bool :=
  match remaining with
  | O => mret false
  | S k =>
      emit (EvGotoThread page_num q_url attempt);;
      goton_ok ←
        try_catch
          (lift (thread_goto w page_num q_url attempt);; mret true)
          (fun _ => lift (wait w (ThreadRetry page_num q_url attempt));; mret false);
      if (goton_ok : bool) then mret true
      else goto_thread_attempts page_num q_url (S attempt) k
  end.

(** the question body: text, then the rebinding of [base_filename] to
    the name derived from the thread's URL, then the images *)
Definition extract_question (q_url : string) (body : option BodyElem)
  : M (string * list ImageRef) :=
  match body with
  | None => mret ("", [])
  | Some question_element =>
      question_body ← lift (body_text question_element);
      set_base_filename (generate_filename_from_url q_url);;
      base_filename ← gets base_filename;
      let images_dir :=
        Py.path_join (Py.path_join SCRAPPED_DATA_DIR "images") base_filename in
      mret (question_body,
            extract_images_from_element urljoin (body_imgs question_element) q_url images_dir)
  end.

(** what follows the append in either branch: flush, checkpoint, quota *)
Definition persist_and_check (page_num : Z) (q_url : string) : M ctl :=
  accepted ← gets accepted_results;
  no_accepted ← gets no_accepted_results;
  _save_results_incrementally w accepted no_accepted;;
  base_filename ← gets base_filename;
  save_progress_checkpoint w base_filename page_num q_url;;
  visited_count ← gets visited_count;
  if quota_reached max_questions visited_count
  then set_stop_all;; mret Break
  else mret Continue.

(** the [try] block of the loop over the threads *)
Definition process_thread (page_num : Z) (q_url : string) : M ctl :=
  let page := thread_page w page_num q_url in
  title ← lift (tp_title page);
  body ← lift (tp_body page);
  '(question_body, question_images) ← extract_question q_url body;
  tags ← lift (tp_tags page);
  system ← lift (tp_system page);
  let all_responses := extract_all_responses urljoin page in
  let entry :=
    result_entry page_num system title question_body question_images tags q_url
      all_responses in
  append_result page_num (negb (is_nil (List.filter is_accepted all_responses))) entry;;
  persist_and_check page_num q_url.

(** one iteration of the loop over the threads *)
Definition visit_thread (page_num : Z) (q_url : string) : M ctl :=
  visited_count ← gets visited_count;
  if quota_reached max_questions visited_count
  then set_stop_all;; mret Break
  else
    let q_url := if Py.startswith q_url "http" then q_url else SITE_ROOT +:+ q_url in
    goton_ok ← goto_thread_attempts page_num q_url 0 2;
    if negb goton_ok then mret Continue
    else try_catch (process_thread page_num q_url) (fun _ => mret Continue).

Fixpoint visit_threads (page_num : Z) (q_urls : list string) : M unit :=
  match q_urls with
  | [] => mret tt
  | q_url :: rest =>
      c ← visit_thread page_num q_url;
      match c with
      | Break => mret tt
      | Continue => visit_threads page_num rest
      end
  end.

Definition list_url (page_num : Z) : string :=
  topic_url +:+ "?page=" +:+ Py.str_of_int page_num.

(** one iteration of the loop over the list pages *)
Definition scrape_list_page (page_num : Z) : M ctl :=
  let url := list_url page_num in
  base_filename ← gets base_filename;
  save_progress_checkpoint w base_filename page_num url;;
  lift (wait w (BeforeFetch page_num));;
  success ← goto_list_attempts page_num url 0 3;
  if negb success then mret Continue
  else
    lift (wait w (Settle page_num));;
    hrefs ← lift (discover_links (list_page w page_num));
    let q_urls := valid_thread_links hrefs in
    if is_nil q_urls then mret Break
    else
      visit_threads page_num q_urls;;
      stop ← gets stop_all;
      if (stop : bool) then mret Break else mret Continue.

Fixpoint crawl_pages (pages : list Z) : M unit :=
  match pages with
  | [] => mret tt
  | page_num :: rest =>
      c ← scrape_list_page page_num;
      match c with
      | Break => mret tt
      | Continue => crawl_pages rest
      end
  end.

(** [range(start_page, max_pages + 1)] *)
Definition page_range (start_page : Z) : list Z :=
  seqZ start_page (max_pages + 1 - start_page).

Definition start_page_of (d : gmap string FileContent) : Z :=
  if resume
  then fst (load_progress_checkpoint d (generate_filename_from_url topic_url)) + 1
  else 1.

Definition initial_state (d : gmap string FileContent) : State :=
  {| disk := d;
     accepted_results := [];
     no_accepted_results := [];
     base_filename := generate_filename_from_url topic_url;
     visited_count := 0;
     stop_all := false;
     log := [] |}.

Definition scrape_body (start_page : Z) : M (list ThreadRecord * list ThreadRecord) :=
  lift (launch w);;
  crawl_pages (page_range start_page);;
  lift (close w);;
  accepted ← gets accepted_results;
  no_accepted ← gets no_accepted_results;
  mret (accepted, no_accepted).

(** the run, started on the disk [d]: what it returns or raises, and the
    state it ends in *)
Definition scrape_sap_community (d : gmap string FileContent)
  : outcome (list ThreadRecord * list ThreadRecord) * State :=
  scrape_body (start_page_of d) (initial_state d).

End Orchestrator.

(** ** Notions used to state the properties *)

(** [needle] occurs in [hay] *)
Definition substring_of (needle hay : string) : Prop :=
  exists pre post, hay = pre +:+ needle +:+ post.

(** the run leaves the state related by [R] to the state it started in *)
Definition respects {A} (R : State -> State -> Prop) (m : M A) : Prop :=
  forall st, R st (snd (m st)).

(** the run returns a value: no exception leaves it *)
Definition no_raise {A} (m : M A) : Prop :=
  forall st, exists a, fst (m st) = Ok a.

(** the state went from [s] to [s'] by logging events that all satisfy [P] *)
Definition emits (P : Event -> Prop) (s s' : State) : Prop :=
  exists evs : list Event, log s' = (log s ++ evs)%list /\ Forall P evs.

(** the collections and the counter are the same in [s] and [s'] *)
Definition same_results (s s' : State) : Prop :=
  accepted_results s' = accepted_results s /\
  no_accepted_results s' = no_accepted_results s /\
  visited_count s' = visited_count s.

(** the download of an image fails: the request raises, the answer has
    another status than 200, or reading and storing the body raises *)
Definition download_failed (img : ImgElem) : Prop :=
  (exists e, img_status img = Raise e) \/
  (exists status, img_status img = Ok status /\ status <> 200) \/
  (exists e, img_store img = Raise e).

(** the same answer element, the same question element, with other images *)
Definition answer_with_imgs (a : AnswerElem) (imgs : outcome (list ImgElem)) : AnswerElem :=
  {| ans_body := ans_body a; ans_inner_text := ans_inner_text a; ans_class := ans_class a;
     ans_author := ans_author a; ans_date := ans_date a; ans_imgs := imgs |}.

Definition body_with_imgs (b : BodyElem) (imgs : outcome (list ImgElem)) : BodyElem :=
  {| body_text := body_text b; body_imgs := imgs |}.

(** a response but for its images *)
Definition response_sans_images (r : Response) : Z * string * bool * string * string :=
  (response_number r, text r, is_accepted r, author r, date r).

(** a URL of a thread, in the words of the pattern: somewhere [/t5/], a
    non-empty stretch without line feed, a slash, one of [qaq], [qaa],
    [qa], and [-p/] *)
Definition is_thread_url (full : string) : Prop :=
  exists pre board kind post,
    full = pre +:+ "/t5/" +:+ board +:+ "/" +:+ kind +:+ "-p/" +:+ post /\
    board <> "" /\
    Py.has_char Re.newline board = false /\
    (kind = "qaq" \/ kind = "qaa" \/ kind = "qa").

(** a URL of a user profile page *)
Definition is_profile_url (full : string) : Prop :=
  substring_of PROFILE_PATTERN full.

(** the test the filtering loop applies to a normalised link *)
Definition keeps_link (full : string) : bool :=
  negb (Py.str_in PROFILE_PATTERN full) && Re.search thread_pattern full.

(** Duplicates removed, first-seen order kept, as the specification words
    it: every element stays at its first occurrence only. *)
Fixpoint first_seen (l : list string) : list string :=
  match l with
  | [] => []
  | x :: rest => x :: List.filter (fun y => negb (String.eqb x y)) (first_seen rest)
  end.

(** the list page an event belongs to, for the navigations and appends *)
Definition event_page (ev : Event) : option Z :=
  match ev with
  | EvGotoList page_num _ _ | EvGotoThread page_num _ _ | EvAppend page_num _ _ =>
      Some page_num
  | EvWrite _ _ _ | EvFlushed _ _ => None
  end.

(** the event is the visit of a thread or the append of its entry *)
Definition thread_event (ev : Event) : bool :=
  match ev with
  | EvGotoThread _ _ _ | EvAppend _ _ _ => true
  | _ => false
  end.

(** the entries appended to one of the collections, in order *)
Fixpoint appended (accepted : bool) (evs : list Event) : list ThreadRecord :=
  match evs with
  | [] => []
  | EvAppend _ a r :: rest =>
      if Bool.eqb a accepted then r :: appended accepted rest else appended accepted rest
  | _ :: rest => appended accepted rest
  end.

(** the attempts at list page [page_num] end with the page loaded *)
Definition list_page_loads (w : World) (topic_url : string) (page_num : Z) : Prop :=
  forall st,
    fst (goto_list_attempts w page_num (list_url topic_url page_num) 0 3 st) = Ok true.

(** the links of list page [page_num] after filtering and deduplication *)
Definition page_links (w : World) (page_num : Z) : outcome (list string) :=
  wait w (Settle page_num);;
  hrefs ← discover_links (list_page w page_num);
  Ok (valid_thread_links hrefs).

(** every flush recorded in the log left both structured files holding
    exactly the entries appended before it *)
Definition flush_sound (evs : list Event) : Prop :=
  forall (i : nat) disk_now base,
    evs !! i = Some (EvFlushed disk_now base) ->
    disk_now !! accepted_json_file base
      = Some (ResultsJson (appended true (take i evs))) /\
    disk_now !! no_accepted_json_file base
      = Some (ResultsJson (appended false (take i evs))).

(** the collections are the entries appended in this run, and its flushes
    are sound *)
Definition run_inv (st : State) : Prop :=
  accepted_results st = appended true (log st) /\
  no_accepted_results st = appended false (log st) /\
  flush_sound (log st).

(** [I] holds after when it held before *)
Definition keeps (I : State -> Prop) (s s' : State) : Prop := I s -> I s'.

(** the quota is respected so far: the counter counts the entries of the
    two collections and has not passed [max_questions] *)
Definition within_quota (max_questions : option Z) (st : State) : Prop :=
  visited_count st
  = Z.of_nat (length (accepted_results st) + length (no_accepted_results st)) /\
  match max_questions with
  | Some n => visited_count st <= Z.max 0 n
  | None => True
  end.

(** the event belongs to a page before [p], or to none *)
Definition before_page (p : Z) (ev : Event) : Prop :=
  forall q, event_page ev = Some q -> q < p.

(** the event is no visit of a thread, and belongs to page [p] or to none:
    the checkpoint of page [p] and the attempts at loading it *)
Definition fetch_of_page (p : Z) (ev : Event) : Prop :=
  thread_event ev = false /\ forall q, event_page ev = Some q -> q = p.

(** from [s] to [s'] the run logged events of pages before [p] and then
    only events of the fetch of page [p] *)
Definition stops_with (p : Z) (s s' : State) : Prop :=
  exists before after : list Event,
    log s' = (log s ++ before ++ after)%list /\
    Forall (before_page p) before /\
    Forall (fetch_of_page p) after.

(** ** Sample worlds *)

(** a stand-in for [urljoin] in the examples *)
Definition sample_urljoin (base_url src : string) : string := base_url +:+ src.

Definition crm_topic : string :=
  "https://community.sap.com/t5/crm-and-cx-q-a/qa-p/crm-questions".

Definition crm_thread : string := "/t5/crm-and-cx-q-a/price-list/qaq-p/101".
Definition crm_thread_2 : string := "/t5/crm-and-cx-q-a/lead-status/qaq-p/102".
Definition technology_thread : string := "/t5/technology-q-a/odata-batch/qaq-p/201".

Definition image_with_status (status : Z) : ImgElem :=
  {| img_src := Ok (Some "/images/shot.png"); img_alt := Ok (Some "shot");
     img_status := Ok status; img_store := Ok tt |}.

Definition answer_of_class (classes : string) : AnswerElem :=
  {| ans_body := Ok (Some "Use the standard report.");
     ans_inner_text := Ok "Use the standard report.";
     ans_class := Ok (Some classes);
     ans_author := Ok (Some "jdoe");
     ans_date := Ok (Some "2024-01-01");
     ans_imgs := Ok [] |}.

(** a detail page with a question body and one answer, not accepted *)
Definition sample_thread_page : ThreadPage :=
  {| tp_title := Ok "How to do it";
     tp_body := Ok (Some {| body_text := Ok "How do I do it?"; body_imgs := Ok [] |});
     tp_tags := Ok ["crm"];
     tp_system := Ok (Some "CRM and CX");
     tp_url := "https://community.sap.com/thread";
     tp_answers := Ok [answer_of_class "MessageView lia-message-view-qanda-answer"] |}.

(** a list page on which the first selector finds the given links *)
Definition list_page_with (hrefs : list string) : ListPage :=
  {| lp_wait_selector := Ok tt;
     lp_thread_links := Ok (map (fun href => Ok (Some href)) hrefs);
     lp_title_links := Ok [];
     lp_t5_links := Ok [] |}.

(** a list page whose first link query raises *)
Definition broken_list_page : ListPage :=
  {| lp_wait_selector := Ok tt;
     lp_thread_links := Raise OtherError;
     lp_title_links := Ok [];
     lp_t5_links := Ok [] |}.

(** a world in which everything works, with the given list pages *)
Definition world_with (pages : Z -> ListPage) (can_write : string -> bool) : World :=
  {| launch := Ok tt;
     close := Ok tt;
     mkdir := fun _ => Ok tt;
     writable := can_write;
     wait := fun _ => Ok tt;
     list_goto := fun _ _ => Ok "Questions";
     list_page := pages;
     thread_goto := fun _ _ _ => Ok tt;
     thread_page := fun _ _ => sample_thread_page |}.

(** page 1 links to a thread of another board *)
Definition world_other_board : World :=
  world_with (fun page_num => list_page_with (if page_num =? 1 then [technology_thread] else []))
    (fun _ => true).

(** the link query of page 1 raises *)
Definition world_broken_page : World :=
  world_with (fun page_num => if page_num =? 1 then broken_list_page
                              else list_page_with [crm_thread])
    (fun _ => true).

(** every list page has one thread; the spreadsheet cannot be written *)
Definition world_locked_sheet : World :=
  world_with (fun page_num => list_page_with (if page_num =? 1 then [crm_thread] else [crm_thread_2]))
    (fun path => negb (String.eqb path (excel_filename "sap_community_crm_and_cx_q_a"))).

(** page 1 has two threads, page 2 none, page 3 one *)
Definition world_two_pages : World :=
  world_with (fun page_num => list_page_with
                (if page_num =? 1 then [crm_thread; crm_thread_2]
                 else if page_num =? 2 then [] else [crm_thread]))
    (fun _ => true).

(** an entry left by an earlier run *)
Definition old_record : ThreadRecord :=
  result_entry 1 (Some "CRM and CX") "An old question" "Old?" [] [] 
    "https://community.sap.com/t5/crm-and-cx-q-a/old/qaq-p/1" [].

(** a disk on which an earlier run against [crm_topic] left its files,
    with page 4 in the checkpoint *)
Definition disk_after_earlier_run : gmap string FileContent :=
  <[checkpoint_file "sap_community_crm_and_cx_q_a" :=
      CheckpointJson (Some 4) (Some "https://community.sap.com/t5/crm-and-cx-q-a/old/qaq-p/1")]>
  (<[accepted_json_file "sap_community_crm_and_cx_q_a" := ResultsJson []]>
  (<[no_accepted_json_file "sap_community_crm_and_cx_q_a" := ResultsJson [old_record]]> ∅)).

(** every list page has the same two threads; the first cannot be
    reached, the tags of the second cannot be read *)
Definition world_failing_threads : World :=
  {| launch := Ok tt;
     close := Ok tt;
     mkdir := fun _ => Ok tt;
     writable := fun _ => true;
     wait := fun _ => Ok tt;
     list_goto := fun _ attempt => if (attempt =? 0)%nat then Raise TimeoutError else Ok "Questions";
     list_page := fun _ => list_page_with [crm_thread; crm_thread_2];
     thread_goto := fun _ q_url _ =>
       if String.eqb q_url (SITE_ROOT +:+ crm_thread) then Raise TimeoutError else Ok tt;
     thread_page := fun _ _ =>
       {| tp_title := Ok "How to do it";
          tp_body := Ok None;
          tp_tags := Raise OtherError;
          tp_system := Ok None;
          tp_url := "https://community.sap.com/thread";
          tp_answers := Ok [] |} |}.

(** the persisted artifacts the run writes, in order: kind and path *)
Definition written_paths (evs : list Event) : list (Artifact * string) :=
  omap (fun ev => match ev with
                  | EvWrite a path _ => Some (a, path)
                  | _ => None
                  end) evs.

(** the steps of a run in short: what was written, which page was
    fetched, which thread visited and appended *)
Inductive Step : Type :=
| SCheckpoint (page_num : option Z)
| SWriteResults
| SWriteExcel
| SFlushed
| SGotoList (page_num : Z)
| SGotoThread (page_num : Z)
| SAppend (page_num : Z).

Definition step_of (ev : Event) : Step :=
  match ev with
  | EvWrite ACheckpoint _ (CheckpointJson page_num _) => SCheckpoint page_num
  | EvWrite ACheckpoint _ _ => SCheckpoint None
  | EvWrite AExcel _ _ => SWriteExcel
  | EvWrite _ _ _ => SWriteResults
  | EvFlushed _ _ => SFlushed
  | EvGotoList page_num _ _ => SGotoList page_num
  | EvGotoThread page_num _ _ => SGotoThread page_num
  | EvAppend page_num _ _ => SAppend page_num
  end.


(** a detail page with two answers, the first carrying a marker class *)
Definition solved_thread_page : ThreadPage :=
  {| tp_title := Ok "How to do it";
     tp_body := Ok (Some {| body_text := Ok "How do I do it?";
                            body_imgs := Ok [image_with_status 200; image_with_status 404] |});
     tp_tags := Ok ["crm"];
     tp_system := Ok (Some "CRM and CX");
     tp_url := "https://community.sap.com/thread";
     tp_answers :=
       Ok [answer_of_class "MessageView lia-message-view-qanda-answer lia-accepted-solution";
           answer_of_class "MessageView lia-message-view-qanda-answer"] |}.

(** one list page with three thread links, one of them twice, and a
    profile link; every detail page is [solved_thread_page] *)
Definition world_solved : World :=
  {| launch := Ok tt;
     close := Ok tt;
     mkdir := fun _ => Ok tt;
     writable := fun _ => true;
     wait := fun _ => Ok tt;
     list_goto := fun _ _ => Ok "Questions";
     list_page := fun _ =>
       list_page_with [crm_thread; "/t5/user/viewprofilepage/user-id/7"; crm_thread_2;
                       crm_thread];
     thread_goto := fun _ _ _ => Ok tt;
     thread_page := fun _ _ => solved_thread_page |}.

(** ** The helpers of the script *)

(** *** [_safe_name]: the name of a diagnostic snapshot *)

Definition URL_SCHEME : string := "https://".

(** [s[n:]] *)
Fixpoint drop_chars (n : nat) (s : string) : string :=
  match n, s with
  | S n', String _ rest => drop_chars n' rest
  | _, _ => s
  end.

(** the characters the pattern [[^A-Za-z0-9_.-]] leaves alone *)
Definition diagnostic_char (c : ascii) : bool :=
  Py.is_alpha c || Py.is_digit c ||
  existsb (Ascii.eqb c) ["_"%char; "."%char; "-"%char].

(** [re.sub(r"[^A-Za-z0-9_.-]", "_", u)] *)
Fixpoint sub_undiagnostic (u : string) : string :=
  match u with
  | EmptyString => EmptyString
  | String c rest =>
      String (if diagnostic_char c then c else "_"%char) (sub_undiagnostic rest)
  end.

Definition _safe_name (u : string) : string :=
  let u := if Py.startswith u URL_SCHEME
           then drop_chars (String.length URL_SCHEME) u else u in
  sub_undiagnostic u.

(** *** [reset_progress] *)

(** the four files of a topic, in the order the function removes them *)
Definition files_to_remove (base : string) : list string :=
  [accepted_json_file base; no_accepted_json_file base; checkpoint_file base;
   excel_filename base].

(** The loop over the files: a file that exists is removed and counted,
    unless [os.remove] raises, which is reported and passed over.
    [removable] says of which files the removal succeeds. *)
Fixpoint remove_files (removable : string -> bool) (files : list string)
    (d : gmap string FileContent) (removed_count : Z) : gmap string FileContent * Z :=
  match files with
  | [] => (d, removed_count)
  | file_path :: rest =>
      match d !! file_path with
      | Some _ =>
          if removable file_path
          then remove_files removable rest (delete file_path d) (removed_count + 1)
          else remove_files removable rest d removed_count
      | None => remove_files removable rest d removed_count
      end
  end.

(** the disk after the reset and the number of files removed *)
Definition reset_progress (removable : string -> bool) (base : string)
    (d : gmap string FileContent) : gmap string FileContent * Z :=
  remove_files removable (files_to_remove base) d 0.

(** [load_existing_progress]: no longer reads anything *)
Definition load_existing_progress (base : string) : gset string * Z := (∅, 0).

(** ** Notions for the properties of the helpers and of the run *)




(** the URL the loop over the threads visits for a link: the link, made
    absolute once more *)
Definition thread_url (q_url : string) : string :=
  if Py.startswith q_url "http" then q_url else SITE_ROOT +:+ q_url.

(** from [s] to [s'] the run has only written: a file it has not opened
    for writing is as it was, and a file that was there is still there *)
Definition wrote_only (s s' : State) : Prop :=
  exists evs : list Event,
    log s' = (log s ++ evs)%list /\
    (forall path,
       (forall a content, ~ In (EvWrite a path content) evs) ->
       disk s' !! path = disk s !! path) /\
    (forall path, is_Some (disk s !! path) -> is_Some (disk s' !! path)).

(** from [s] to [s'] the collections and the counter have only grown *)
Definition grown (s s' : State) : Prop :=
  accepted_results s `prefix_of` accepted_results s' /\
  no_accepted_results s `prefix_of` no_accepted_results s' /\
  visited_count s <= visited_count s'.

(** the file of a name that an artifact is written to *)
Definition artifact_path (a : Artifact) (base : string) : string :=
  match a with
  | ACheckpoint => checkpoint_file base
  | AAccepted => accepted_json_file base
  | ANoAccepted => no_accepted_json_file base
  | AExcel => excel_filename base
  end.

(** [q_url] is a link kept on list page [page_num], a page from [lo] to
    [hi] *)
Definition found_on (w : World) (lo hi page_num : Z) (q_url : string) : Prop :=
  lo <= page_num <= hi /\
  exists hrefs,
    discover_links (list_page w page_num) = Ok hrefs /\ In q_url (valid_thread_links hrefs).

(** the URL a file of the run may be named after: the topic's, or a
    thread link kept on one of the list pages *)
Definition names_run (w : World) (topic_url : string) (lo hi : Z) (u : string) : Prop :=
  u = topic_url \/ exists page_num, found_on w lo hi page_num u.

(** a write goes to the file that the artifact has under the name
    generated from the topic's URL or from a thread's *)
Definition named_write (w : World) (topic_url : string) (lo hi : Z) (ev : Event) : Prop :=
  match ev with
  | EvWrite a path _ =>
      exists u, names_run w topic_url lo hi u /\
                path = artifact_path a (generate_filename_from_url u)
  | _ => True
  end.

(** the entry [r] is what the run builds for a thread link kept on the
    list page the entry names, and [accepted] tells whether one of its
    answers is accepted *)
Definition entry_sound (urljoin : string -> string -> string) (w : World) (lo hi : Z)
    (accepted : bool) (r : ThreadRecord) : Prop :=
  found_on w lo hi (page_number r) (url r) /\
  all_responses r
  = extract_all_responses urljoin (thread_page w (page_number r) (url r)) /\
  total_responses r = Z.of_nat (length (all_responses r)) /\
  existsb is_accepted (all_responses r) = accepted /\
  accepted_responses r
  = (if accepted then Some (List.filter is_accepted (all_responses r)) else None).

Definition data_prefix : string := "scrapped_data/sap_community_".

(** [u] is one of the URLs [seen] *)
Definition seen_url (seen : list string) (u : string) : bool :=
  existsb (String.eqb u) seen.

(** attempt number [attempt] at list page [page_num] gets the page: the
    navigation answers, and not with the title of a blocked request *)
Definition list_attempt_ok (w : World) (page_num : Z) (attempt : nat) : bool :=
  match list_goto w page_num attempt with
  | Ok title => negb (blocked_title title)
  | Raise _ => false
  end.

(** attempt number [attempt] at the thread [q_url] gets the page *)
Definition thread_attempt_ok (w : World) (page_num : Z) (q_url : string) (attempt : nat)
  : bool :=
  is_ok (thread_goto w page_num q_url attempt).

(** what a loop of attempts from number [a] on, with [n] attempts left,
    has done when it ends with [r]: [k] attempts, all but the last
    failed, the last one tells the result *)
Definition attempts_done (ok : nat -> bool) (a n k : nat) (r : outcome bool) : Prop :=
  (k <= n)%nat /\ (0 < n -> 0 < k)%nat /\
  (forall j, (a <= j < a + k - 1)%nat -> ok j = false) /\
  (r = Ok true <-> (0 < k)%nat /\ ok (a + k - 1)%nat = true) /\
  (r = Ok false -> k = n /\ forall j, (a <= j < a + k)%nat -> ok j = false).

(** an event that follows the attempts at list page [page_num]: a write,
    a flush, or the visit or the append of one of the page's threads *)
Definition after_fetch (page_num : Z) (ev : Event) : Prop :=
  match ev with
  | EvGotoList _ _ _ => False
  | EvGotoThread p _ _ | EvAppend p _ _ => p = page_num
  | EvWrite _ _ _ | EvFlushed _ _ => True
  end.

(** the pages of the events of a log that belong to a page, in order *)
Definition page_trace (evs : list Event) : list Z := omap event_page evs.

Definition not_slash (c : ascii) : bool := negb (Ascii.eqb c "/").
Definition not_dot (c : ascii) : bool := negb (Ascii.eqb c ".").

(** the image entry names a file directly in [images_dir] *)
Definition stored_in (images_dir : string) (entry : ImageRef) : Prop :=
  Py.all_chars not_slash (filename entry) = true /\
  Py.truthy (filename entry) = true /\
  local_path entry = Py.path_join images_dir (filename entry).

(** ** Further sample inputs *)

(** a world in which no file can be written *)
Definition world_read_only : World :=
  world_with (fun _ => list_page_with [crm_thread]) (fun _ => false).

Definition crm_base : string := "sap_community_crm_and_cx_q_a".

(** ** Invariants of the run *)

(** every entry collected so far is sound *)
Definition sound_results (urljoin : string -> string -> string) (w : World) (lo hi : Z)
    (st : State) : Prop :=
  Forall (entry_sound urljoin w lo hi true) (accepted_results st) /\
  Forall (entry_sound urljoin w lo hi false) (no_accepted_results st).

(** the base name is a generated one, and so was that of every write *)
Definition named_files (w : World) (topic_url : string) (lo hi : Z) (st : State) : Prop :=
  (exists u, names_run w topic_url lo hi u /\
             base_filename st = generate_filename_from_url u) /\
  Forall (named_write w topic_url lo hi) (log st).

(** what an iteration of the page loop does once the attempts at the
    list page are over *)
Definition page_rest (urljoin : string -> string -> string) (w : World)
    (max_questions : option Z) (page_num : Z) (success : bool) : M ctl :=
  if negb success then mret Continue
  else
    lift (wait w (Settle page_num));;
    hrefs ← lift (discover_links (list_page w page_num));
    if is_nil (valid_thread_links hrefs) then mret Break
    else
      visit_threads urljoin w max_questions page_num (valid_thread_links hrefs);;
      stop ← gets stop_all;
      if (stop : bool) then mret Break else mret Continue.

(** * Checks of the definitions on concrete inputs *)

Example filename_crm :
  generate_filename_from_url "https://community.sap.com/t5/crm-and-cx-q-a/qa-p/crm-questions"
  = "sap_community_crm_and_cx_q_a".
Proof. vm_compute. reflexivity. Qed.

Example filename_root :
  generate_filename_from_url "https://community.sap.com/t5/qa-p" = "sap_community_data".
Proof. vm_compute. reflexivity. Qed.

Example links_mixed :
  valid_thread_links
    ["/t5/crm-and-cx-q-a/first/qaq-p/1";
     "/t5/user/viewprofilepage/user-id/7";
     "https://community.sap.com/t5/crm-and-cx-q-a/second/qaa-p/2";
     "/t5/crm-and-cx-q-a/first/qaq-p/1";
     "/t5/crm-and-cx-q-a/ct-p/crm";
     "/about"]
  = ["https://community.sap.com/t5/crm-and-cx-q-a/first/qaq-p/1";
     "https://community.sap.com/t5/crm-and-cx-q-a/second/qaa-p/2"].
Proof. vm_compute. reflexivity. Qed.

Example strip_example : Py.strip "  Jane Doe
 " = "Jane Doe".
Proof. vm_compute. reflexivity. Qed.

Example splitext_examples :
  map Py.splitext_ext ["/a/b/pic.png"; "/a.b/pic"; "/a/.hidden"; "/a/x.tar.gz"; "/a/..x.y"]
  = [".png"; ""; ""; ".gz"; ".y"].
Proof. vm_compute. reflexivity. Qed.

(** the scenarios of the specification *)

Example scenario_two_distinct_threads :
  let run := scrape_sap_community sample_urljoin world_solved crm_topic 1 None false ∅ in
  map step_of (log (snd run))
  = [SCheckpoint (Some 1); SGotoList 1;
     SGotoThread 1; SAppend 1; SWriteResults; SWriteResults; SFlushed; SWriteExcel;
     SCheckpoint (Some 1);
     SGotoThread 1; SAppend 1; SWriteResults; SWriteResults; SFlushed; SWriteExcel;
     SCheckpoint (Some 1)].
Proof. vm_compute. reflexivity. Qed.

Example scenario_accepted_answer :
  let run := scrape_sap_community sample_urljoin world_solved crm_topic 1 None false ∅ in
  map (fun r => (total_responses r, length (default [] (accepted_responses r)),
                 map filename (question_images r)))
    (accepted_results (snd run))
  = [(2, 1%nat, ["shot_0.png"]); (2, 1%nat, ["shot_0.png"])] /\
  no_accepted_results (snd run) = [].
Proof. vm_compute. split; reflexivity. Qed.

Example scenario_resume_at_five :
  start_page_of crm_topic true disk_after_earlier_run = 5.
Proof. vm_compute. reflexivity. Qed.

(** * Properties *)

(** ** Strings *)

Lemma append_cons (c : ascii) (s t : string) : String c s +:+ t = String c (s +:+ t).
Proof. reflexivity. Qed.

Lemma append_assoc (a b c : string) : (a +:+ b) +:+ c = a +:+ (b +:+ c).
Proof. induction a as [|x a IH]; [reflexivity|]. rewrite !append_cons. by rewrite IH. Qed.

Lemma prefix_spec (p s : string) :
  String.prefix p s = true <-> exists post, s = p +:+ post.
Proof.
  revert p. induction s as [|d s IH]; intros [|c p]; simpl.
  - split; intros H; [exists ""; reflexivity | reflexivity].
  - split; [discriminate | intros [post H]; discriminate].
  - split; intros H; [exists (String d s); reflexivity | reflexivity].
  - destruct (Ascii.ascii_dec c d) as [->|Hne].
    + rewrite IH. split; intros [post H]; exists post;
        rewrite append_cons in *; congruence.
    + split; [discriminate | intros [post H]; rewrite append_cons in H; congruence].
Qed.

Lemma str_in_spec (needle hay : string) :
  Py.str_in needle hay = true <-> substring_of needle hay.
Proof.
  unfold substring_of. induction hay as [|c hay IH].
  - cbn [Py.str_in]. rewrite orb_false_r, prefix_spec. split.
    + intros [post H]. exists "", post. exact H.
    + intros ([|d pre] & post & H); [exists post; exact H | discriminate].
  - cbn [Py.str_in]. rewrite orb_true_iff, prefix_spec, IH. split.
    + intros [[post H]|(pre & post & H)].
      * exists "", post. exact H.
      * exists (String c pre), post. rewrite append_cons, H. reflexivity.
    + intros ([|d pre] & post & H).
      * left. exists post. exact H.
      * right. exists pre, post. rewrite append_cons in H. congruence.
Qed.

(** ** Reasoning about the run's monad *)

Section Respects.

Context (R : State -> State -> Prop) `{!PreOrder R}.

Lemma respects_ret {A} (a : A) : respects R (mret a : M A).
Proof. intros st. simpl. reflexivity. Qed.

Lemma respects_raise {A} (e : exn) : respects R (raise e : M A).
Proof. intros st. simpl. reflexivity. Qed.

Lemma respects_lift {A} (o : outcome A) : respects R (lift o).
Proof. intros st. simpl. reflexivity. Qed.

Lemma respects_gets {A} (f : State -> A) : respects R (gets f).
Proof. intros st. simpl. reflexivity. Qed.

Lemma respects_modify (f : State -> State) :
  (forall st, R st (f st)) -> respects R (modify f).
Proof. intros H st. apply H. Qed.

Lemma respects_bind {A B} (m : M A) (f : A -> M B) :
  respects R m -> (forall a, respects R (f a)) -> respects R (m ≫= f).
Proof.
  intros Hm Hf st. unfold mbind, M_bind. specialize (Hm st).
  destruct (m st) as [[a|e] st1]; simpl in *; [|exact Hm].
  etransitivity; [exact Hm | apply Hf].
Qed.

Lemma respects_try {A} (m : M A) (h : exn -> M A) :
  respects R m -> (forall e, respects R (h e)) -> respects R (try_catch m h).
Proof.
  intros Hm Hh st. unfold try_catch. specialize (Hm st).
  destruct (m st) as [[a|e] st1]; simpl in *; [exact Hm|].
  etransitivity; [exact Hm | apply Hh].
Qed.

End Respects.

#[global] Instance emits_preorder (P : Event -> Prop) : PreOrder (emits P).
Proof.
  split.
  - intros s. exists []. rewrite app_nil_r. auto.
  - intros s1 s2 s3 (e1 & H1 & F1) (e2 & H2 & F2). exists (e1 ++ e2).
    rewrite H2, H1, app_assoc. split; [reflexivity | apply Forall_app; auto].
Qed.

#[global] Instance same_results_preorder : PreOrder same_results.
Proof.
  split.
  - intros s. repeat split.
  - intros s1 s2 s3 (a1 & b1 & c1) (a2 & b2 & c2). repeat split; congruence.
Qed.

(** one step of a proof that a computation respects a relation: take the
    computation apart along its structure *)
Ltac respects_step :=
  lazymatch goal with
  | |- respects _ (mret _) => apply respects_ret; exact _
  | |- respects _ (raise _) => apply respects_raise; exact _
  | |- respects _ (lift _) => apply respects_lift; exact _
  | |- respects _ (gets _) => apply respects_gets; exact _
  | |- respects _ (mbind _ _) =>
      apply respects_bind; try (exact _); [|intros ?]
  | |- respects _ (try_catch _ _) =>
      apply respects_try; try (exact _); [|intros ?]
  | |- respects _ (if ?b then _ else _) => destruct b
  | |- respects _ (match ?x with _ => _ end) => destruct x
  | |- respects _ (let _ := _ in _) => cbv zeta
  end.

Lemma bind_cases {A B} (m : M A) (f : A -> M B) (st : State) :
  (exists e, m st = (Raise e, snd (m st)) /\ (m ≫= f) st = (Raise e, snd (m st))) \/
  (exists a, m st = (Ok a, snd (m st)) /\ (m ≫= f) st = f a (snd (m st))).
Proof.
  unfold mbind, M_bind. destruct (m st) as [[a|e] st1]; simpl; eauto.
Qed.

Lemma bind_lift {A B} (o : outcome A) (f : A -> M B) (st : State) :
  (lift o ≫= f) st = match o with Ok a => f a st | Raise e => (Raise e, st) end.
Proof. destruct o; reflexivity. Qed.

Lemma bind_gets {A B} (g : State -> A) (f : A -> M B) (st : State) :
  (gets g ≫= f) st = f (g st) st.
Proof. reflexivity. Qed.

Lemma bind_modify {B} (g : State -> State) (f : unit -> M B) (st : State) :
  (modify g ≫= f) st = f tt (g st).
Proof. reflexivity. Qed.

Lemma bind_assoc {A B C} (m : M A) (f : A -> M B) (g : B -> M C) (st : State) :
  ((m ≫= f) ≫= g) st = (m ≫= fun a => f a ≫= g) st.
Proof. unfold mbind, M_bind. destruct (m st) as [[a|e] st1]; reflexivity. Qed.

(** split on what the first computation of a bind does from [st] *)
Ltac bind_split st a :=
  match goal with
  | |- context [ (?m ≫= ?f) st ] =>
      let e := fresh "e" in
      let H := fresh "Hm" in
      destruct (bind_cases m f st) as [(e & H & ->)|(a & H & ->)]
  end.

(** ** What leaves the collections alone *)

Section SameResults.

Variable urljoin : string -> string -> string.
Variable w : World.
Variable max_questions : option Z.

Lemma same_results_modify_other (f : State -> State) :
  (forall st, accepted_results (f st) = accepted_results st) ->
  (forall st, no_accepted_results (f st) = no_accepted_results st) ->
  (forall st, visited_count (f st) = visited_count st) ->
  respects same_results (modify f).
Proof. intros H1 H2 H3. apply respects_modify; try (exact _). intros st. repeat split; auto. Qed.

Lemma same_results_emit ev : respects same_results (emit ev).
Proof. apply same_results_modify_other; reflexivity. Qed.

Lemma same_results_set_disk d : respects same_results (set_disk d).
Proof. apply same_results_modify_other; reflexivity. Qed.

Lemma same_results_set_base b : respects same_results (set_base_filename b).
Proof. apply same_results_modify_other; reflexivity. Qed.

Lemma same_results_set_stop : respects same_results set_stop_all.
Proof. apply same_results_modify_other; reflexivity. Qed.

Create HintDb same_results.
Hint Resolve same_results_emit same_results_set_disk same_results_set_base
  same_results_set_stop : same_results.

Ltac same_results_tac :=
  repeat first [ solve [eauto with same_results] | respects_step ].

Lemma same_results_write a path content :
  respects same_results (write_file w a path content).
Proof. unfold write_file. same_results_tac. Qed.
Hint Resolve same_results_write : same_results.

Lemma same_results_checkpoint base page u :
  respects same_results (save_progress_checkpoint w base page u).
Proof. unfold save_progress_checkpoint. same_results_tac. Qed.
Hint Resolve same_results_checkpoint : same_results.

Lemma same_results_flush acc noacc :
  respects same_results (_save_results_incrementally w acc noacc).
Proof. unfold _save_results_incrementally, flushed. same_results_tac. Qed.
Hint Resolve same_results_flush : same_results.

Lemma same_results_goto_thread page_num q_url attempt remaining :
  respects same_results (goto_thread_attempts w page_num q_url attempt remaining).
Proof.
  revert attempt. induction remaining as [|k IH]; intros attempt; simpl;
    unfold wait_unless_last; same_results_tac.
Qed.
Hint Resolve same_results_goto_thread : same_results.

Lemma same_results_extract_question q_url body :
  respects same_results (extract_question urljoin q_url body).
Proof. unfold extract_question. same_results_tac. Qed.
Hint Resolve same_results_extract_question : same_results.

Lemma same_results_persist page_num q_url :
  respects same_results (persist_and_check w max_questions page_num q_url).
Proof. unfold persist_and_check. same_results_tac. Qed.

End SameResults.

(** ** Classification *)

Section Classification.

Variable urljoin : string -> string -> string.
Variable w : World.
Variable max_questions : option Z.




Lemma filter_is_accepted_nil (l : list Response) :
  is_nil (List.filter is_accepted l) = negb (existsb is_accepted l).
Proof.
  induction l as [|r l IH]; simpl; [reflexivity|].
  destruct (is_accepted r); simpl; auto.
Qed.

(** what the [try] block does to the collections: nothing, or one entry
    more in the collection its answers decide *)
Lemma process_thread_results page_num q_url st :
  let st' := snd (process_thread urljoin w max_questions page_num q_url st) in
  same_results st st' \/
  exists entry,
    all_responses entry = extract_all_responses urljoin (thread_page w page_num q_url) /\
    visited_count st' = visited_count st + 1 /\
    if existsb is_accepted (all_responses entry)
    then accepted_results st' = accepted_results st ++ [entry] /\
         no_accepted_results st' = no_accepted_results st
    else accepted_results st' = accepted_results st /\
         no_accepted_results st' = no_accepted_results st ++ [entry].
Proof.
  unfold process_thread. cbv zeta. rewrite bind_lift.
  destruct (tp_title _) as [title|]; [|left; reflexivity].
  rewrite bind_lift.
  destruct (tp_body _) as [body|]; [|left; reflexivity].
  pose proof (same_results_extract_question urljoin q_url body st) as Hq.
  bind_split st qi; [left; exact Hq|].
  revert Hq. generalize (snd (extract_question urljoin q_url body st)). intros st1 Hq.
  destruct qi as [question_body question_images].
  rewrite bind_lift.
  destruct (tp_tags _) as [tags|]; [|left; exact Hq].
  rewrite bind_lift.
  destruct (tp_system _) as [system|]; [|left; exact Hq].
  set (responses := extract_all_responses urljoin (thread_page w page_num q_url)).
  set (entry := result_entry _ _ _ _ _ _ _ _).
  right. exists entry. split; [reflexivity|].
  unfold append_result. rewrite bind_modify.
  match goal with |- context [ persist_and_check _ _ _ _ ?s ] =>
    pose proof (same_results_persist w max_questions page_num q_url s) as (Ha & Hn & Hv)
  end.
  rewrite Ha, Hn, Hv. destruct Hq as (Ha1 & Hn1 & Hv1).
  rewrite filter_is_accepted_nil, negb_involutive. simpl.
  rewrite Ha1, Hn1, Hv1. fold responses.
  destruct (existsb is_accepted responses); auto.
Qed.


End Classification.

(** ** Images *)

Section Images.

Variable urljoin : string -> string -> string.

Lemma image_entry_failed base_url images_dir i img :
  download_failed img ->
  image_entry urljoin base_url images_dir i img = Ok None \/
  exists e, image_entry urljoin base_url images_dir i img = Raise e.
Proof.
  unfold image_entry, mbind, outcome_bind. intros Hf.
  destruct (img_src img) as [src|e]; [|eauto].
  destruct (img_alt img) as [alt|e]; [|eauto].
  destruct (negb _); [auto|].
  destruct Hf as [(e & ->)|[(status & -> & Hs)|(e & He)]]; [eauto| |].
  - apply Z.eqb_neq in Hs. rewrite Hs. auto.
  - destruct (img_status img) as [status|e']; [|eauto].
    destruct (status =? 200); [|auto]. rewrite He. eauto.
Qed.

Lemma images_from_app base_url images_dir i pre post :
  images_from urljoin base_url images_dir i (pre ++ post)
  = images_from urljoin base_url images_dir i pre
    ++ images_from urljoin base_url images_dir (i + length pre) post.
Proof.
  revert i. induction pre as [|img pre IH]; intros i; simpl.
  - rewrite Nat.add_0_r. reflexivity.
  - rewrite IH, Nat.add_succ_comm.
    destruct (image_entry urljoin base_url images_dir i img) as [[entry|]|]; reflexivity.
Qed.

(** the fields of a response other than its images do not depend on the
    images of its element *)
Lemma response_entry_images page_url i elem imgs :
  match response_entry urljoin page_url i elem,
        response_entry urljoin page_url i (answer_with_imgs elem imgs) with
  | Ok r, Ok r' => response_sans_images r = response_sans_images r'
  | Raise e, Raise e' => e = e'
  | _, _ => False
  end.
Proof.
  unfold response_entry, mbind, outcome_bind. simpl.
  destruct (ans_body elem) as [body|]; [|reflexivity].
  destruct (if Py.truthy (default "" body) then _ else _); [|reflexivity].
  destruct (ans_class elem); [|reflexivity].
  destruct (ans_author elem); [|reflexivity].
  destruct (ans_date elem); reflexivity.
Qed.

(** C10. An image whose download fails is left out of the list, with no
    entry standing for it; the entries of the other images are the ones
    they have at their own positions, and the other fields of the answer
    or of the question are as they are whatever the images do. *)
Theorem failed_image_omitted base_url images_dir (pre post : list ImgElem) (bad : ImgElem) :
  download_failed bad ->
  extract_images_from_element urljoin (Ok (pre ++ bad :: post)) base_url images_dir
  = images_from urljoin base_url images_dir 0 pre
    ++ images_from urljoin base_url images_dir (S (length pre)) post
  /\ (forall page_url i elem,
        match response_entry urljoin page_url i elem,
              response_entry urljoin page_url i
                (answer_with_imgs elem (Ok (pre ++ bad :: post))) with
        | Ok r, Ok r' =>
            response_sans_images r = response_sans_images r' /\
            images r' = images_from urljoin page_url "images" 0 pre
                        ++ images_from urljoin page_url "images" (S (length pre)) post
        | Raise e, Raise e' => e = e'
        | _, _ => False
        end)
  /\ (forall q_url body st,
        match extract_question urljoin q_url (Some body) st,
              extract_question urljoin q_url
                (Some (body_with_imgs body (Ok (pre ++ bad :: post)))) st with
        | (Ok (question_body, _), st1), (Ok (question_body', question_images'), st1') =>
            question_body = question_body' /\ st1 = st1' /\
            question_images' =
              images_from urljoin q_url
                (Py.path_join (Py.path_join SCRAPPED_DATA_DIR "images")
                   (generate_filename_from_url q_url)) 0 pre
              ++ images_from urljoin q_url
                   (Py.path_join (Py.path_join SCRAPPED_DATA_DIR "images")
                      (generate_filename_from_url q_url)) (S (length pre)) post
        | (Raise e, st1), (Raise e', st1') => e = e' /\ st1 = st1'
        | _, _ => False
        end).
Proof.
  intros Hbad.
  assert (forall b d, images_from urljoin b d 0 (pre ++ bad :: post)
            = images_from urljoin b d 0 pre ++ images_from urljoin b d (S (length pre)) post)
    as Himgs.
  { intros b d. rewrite images_from_app. f_equal. simpl.
    destruct (image_entry_failed b d (length pre) bad Hbad) as [->|[e ->]]; reflexivity. }
  split; [apply Himgs|]. split.
  - intros page_url i elem.
    pose proof (response_entry_images page_url i elem (Ok (pre ++ bad :: post))) as H.
    destruct (response_entry urljoin page_url i elem) as [r|e] eqn:E1,
             (response_entry urljoin page_url i (answer_with_imgs _ _)) as [r'|e'] eqn:E2;
      try exact H.
    split; [exact H|].
    unfold response_entry, mbind, outcome_bind in E2. simpl in E2.
    destruct (ans_body elem) as [body|]; [|discriminate].
    destruct (if Py.truthy (default "" body) then _ else _); [|discriminate].
    destruct (ans_class elem); [|discriminate].
    destruct (ans_author elem); [|discriminate].
    destruct (ans_date elem); [|discriminate].
    injection E2 as <-. simpl. apply Himgs.
  - intros q_url body st. unfold extract_question. simpl body_text.
    rewrite !bind_lift. destruct (body_text body) as [question_body|e]; [|auto].
    simpl. rewrite Himgs. auto.
Qed.

End Images.

(** ** The regular-expression search *)

Module ReFacts.
Import Re.

Lemma void_inv s : Matches Void s -> False.
Proof. inversion 1. Qed.

Lemma eps_inv s : Matches Eps s -> s = [].
Proof. inversion 1; reflexivity. Qed.

Lemma chr_inv c s : Matches (Chr c) s -> s = [c].
Proof. inversion 1; reflexivity. Qed.

Lemma dot_inv s : Matches Dot s -> exists c, s = [c] /\ c ≠ newline.
Proof. inversion 1; subst; eauto. Qed.

Lemma cat_inv r1 r2 s :
  Matches (Cat r1 r2) s -> exists s1 s2, s = s1 ++ s2 /\ Matches r1 s1 /\ Matches r2 s2.
Proof. inversion 1; subst; eauto. Qed.

Lemma alt_inv r1 r2 s : Matches (Alt r1 r2) s -> Matches r1 s \/ Matches r2 s.
Proof. inversion 1; subst; auto. Qed.

Lemma nullable_spec r : nullable r = true <-> Matches r [].
Proof.
  induction r as [| |c| |r1 IH1 r2 IH2|r1 IH1 r2 IH2|r IH]; simpl.
  - split; [discriminate | intros H; destruct (void_inv _ H)].
  - split; [constructor | reflexivity].
  - split; [discriminate | intros H%chr_inv; discriminate].
  - split; [discriminate | intros (c & H & _)%dot_inv; discriminate].
  - rewrite andb_true_iff, IH1, IH2. split.
    + intros [H1 H2]. apply (MCat _ _ [] []); assumption.
    + intros (s1 & s2 & E & H1 & H2)%cat_inv.
      symmetry in E. apply app_eq_nil in E as [-> ->]. auto.
  - rewrite orb_true_iff, IH1, IH2. split.
    + intros [H|H]; [apply MAltL | apply MAltR]; assumption.
    + intros H%alt_inv. exact H.
  - split; [constructor | reflexivity].
Qed.

Lemma star_cons_inv r c s :
  Matches (Star r) (c :: s) ->
  exists s1 s2, s = s1 ++ s2 /\ Matches r (c :: s1) /\ Matches (Star r) s2.
Proof.
  remember (Star r) as r' eqn:Er. remember (c :: s) as cs eqn:Es.
  intros H. revert s Es. induction H as [| | | | | | |r0 s1 s2 H1 _ H2 IH2];
    intros t Et; try discriminate.
  injection Er as ->. destruct s1 as [|d s1]; simpl in Et.
  - apply IH2; [reflexivity | assumption].
  - injection Et as -> <-. exists s1, s2. auto.
Qed.

Lemma deriv_spec c r s : Matches (deriv c r) s <-> Matches r (c :: s).
Proof.
  revert s. induction r as [| |d| |r1 IH1 r2 IH2|r1 IH1 r2 IH2|r IH]; intros s; simpl.
  - split; intros H; destruct (void_inv _ H).
  - split; intros H; [destruct (void_inv _ H) | apply eps_inv in H; discriminate].
  - destruct (Ascii.eqb_spec c d) as [->|Hne].
    + split; [intros ->%eps_inv; constructor|].
      intros H%chr_inv. injection H as ->. constructor.
    + split; [intros H; destruct (void_inv _ H) | intros H%chr_inv; congruence].
  - destruct (Ascii.eqb_spec c newline) as [->|Hne].
    + split; [intros H; destruct (void_inv _ H)|].
      intros (d & E & Hd)%dot_inv. congruence.
    + split; [intros ->%eps_inv; constructor; assumption|].
      intros (d & E & Hd)%dot_inv. injection E as -> ->. constructor.
  - assert (Matches (Cat (deriv c r1) r2) s ->  Matches (Cat r1 r2) (c :: s)) as Hl.
    { intros (s1 & s2 & -> & H1 & H2)%cat_inv.
      apply IH1 in H1. apply (MCat _ _ (c :: s1) s2); assumption. }
    assert (Matches (Cat r1 r2) (c :: s) ->
            Matches (Cat (deriv c r1) r2) s \/ (Matches r1 [] /\ Matches r2 (c :: s))) as Hr.
    { intros (s1 & s2 & E & H1 & H2)%cat_inv.
      destruct s1 as [|d s1]; simpl in E.
      - subst. auto.
      - injection E as -> ->. left. apply MCat; [apply IH1|]; assumption. }
    destruct (nullable r1) eqn:N.
    + split.
      * intros [H|H]%alt_inv; [auto|].
        apply (MCat _ _ [] (c :: s)); [apply nullable_spec; assumption | apply IH2; assumption].
      * intros H. destruct (Hr H) as [H'|[_ H']]; [apply MAltL; assumption|].
        apply MAltR. apply IH2. assumption.
    + split; [exact Hl|]. intros H. destruct (Hr H) as [H'|[H' _]]; [assumption|].
      apply nullable_spec in H'. congruence.
  - split.
    + intros [H|H]%alt_inv; [apply MAltL, IH1 | apply MAltR, IH2]; assumption.
    + intros [H|H]%alt_inv; [apply MAltL, IH1 | apply MAltR, IH2]; assumption.
  - split.
    + intros (s1 & s2 & -> & H1 & H2)%cat_inv.
      apply IH in H1. apply (MStarApp _ (c :: s1) s2); assumption.
    + intros H. apply star_cons_inv in H as (s1 & s2 & -> & H1 & H2).
      apply MCat; [apply IH|]; assumption.
Qed.

Lemma match_prefix_spec r s :
  match_prefix r s = true <-> exists m post, s = m ++ post /\ Matches r m.
Proof.
  revert r. induction s as [|c s IH]; intros r; simpl.
  - rewrite orb_false_r, nullable_spec. split.
    + intros H. exists [], []. auto.
    + intros (m & post & E & H). symmetry in E. apply app_eq_nil in E as [-> _]. exact H.
  - rewrite orb_true_iff, nullable_spec, IH. split.
    + intros [H|(m & post & -> & H)].
      * exists [], (c :: s). auto.
      * exists (c :: m), post. split; [reflexivity | apply deriv_spec; assumption].
    + intros ([|d m] & post & E & H); [left; exact H|].
      injection E as <- ->. right. exists m, post. split; [reflexivity | apply deriv_spec; assumption].
Qed.

Lemma search_list_spec r s :
  search_list r s = true <-> exists pre m post, s = pre ++ m ++ post /\ Matches r m.
Proof.
  induction s as [|c s IH]; cbn [search_list].
  - rewrite orb_false_r, match_prefix_spec. split.
    + intros (m & post & E & H). exists [], m, post. auto.
    + intros ([|d pre] & m & post & E & H); [|discriminate]. exists m, post. auto.
  - rewrite orb_true_iff, match_prefix_spec, IH. split.
    + intros [(m & post & E & H)|(pre & m & post & -> & H)].
      * exists [], m, post. auto.
      * exists (c :: pre), m, post. auto.
    + intros ([|d pre] & m & post & E & H).
      * left. exists m, post. auto.
      * injection E as <- ->. right. exists pre, m, post. auto.
Qed.

Lemma Lit_spec t m : Matches (Lit t) m <-> m = list_ascii_of_string t.
Proof.
  revert m. induction t as [|c t IH]; intros m; simpl.
  - split; [apply eps_inv | intros ->; constructor].
  - split.
    + intros (s1 & s2 & -> & ->%chr_inv & ->%IH)%cat_inv. reflexivity.
    + intros ->. apply (MCat _ _ [c]); [constructor | apply IH; reflexivity].
Qed.

Lemma star_dot_spec m : Matches (Star Dot) m <-> Forall (fun c => c ≠ newline) m.
Proof.
  split.
  - remember (Star Dot) as r eqn:Er. intros H.
    induction H as [| | | | | | |r0 s1 s2 H1 _ H2 IH2]; try discriminate.
    + constructor.
    + injection Er as ->. apply dot_inv in H1 as (c & -> & Hc). constructor; auto.
  - induction 1 as [|c m Hc _ IH]; [constructor|].
    apply (MStarApp _ [c] m); [constructor; assumption | assumption].
Qed.

End ReFacts.

(** ** Link filtering *)

Lemma list_ascii_app (a b : string) :
  list_ascii_of_string (a +:+ b) = list_ascii_of_string a ++ list_ascii_of_string b.
Proof. induction a as [|c a IH]; [reflexivity|]. rewrite append_cons. simpl. by rewrite IH. Qed.

Lemma string_of_list_app (a b : list ascii) :
  string_of_list_ascii (a ++ b) = string_of_list_ascii a +:+ string_of_list_ascii b.
Proof. induction a as [|c a IH]; [reflexivity|]. simpl. rewrite append_cons. by rewrite IH. Qed.

Lemma has_char_Forall (c : ascii) (s : string) :
  Py.has_char c s = false <-> Forall (fun d => d ≠ c) (list_ascii_of_string s).
Proof.
  induction s as [|d s IH]; simpl.
  - split; [constructor | reflexivity].
  - rewrite orb_false_iff, IH, Forall_cons. destruct (Ascii.eqb_spec c d) as [->|Hne].
    + split; [intros [? _]; discriminate | intros [? _]; congruence].
    + split; intros [_ ?]; split; auto.
Qed.

Lemma thread_pattern_matches (m : list ascii) :
  Re.Matches thread_pattern m <->
  exists board kind,
    m = list_ascii_of_string ("/t5/" +:+ board +:+ "/" +:+ kind +:+ "-p/") /\
    board <> "" /\ Py.has_char Re.newline board = false /\
    (kind = "qaq" \/ kind = "qaa" \/ kind = "qa").
Proof.
  unfold thread_pattern. split.
  - intros (s1 & s2 & -> & H1%ReFacts.Lit_spec & H2)%ReFacts.cat_inv.
    apply ReFacts.cat_inv in H2 as (s3 & s4 & -> & H3 & H4).
    apply ReFacts.cat_inv in H3 as (s5 & s6 & -> & (c & -> & Hc)%ReFacts.dot_inv & H6).
    apply ReFacts.star_dot_spec in H6.
    apply ReFacts.cat_inv in H4 as (s7 & s8 & -> & H7%ReFacts.Lit_spec & H8).
    apply ReFacts.cat_inv in H8 as (s9 & s10 & -> & H9 & H10%ReFacts.Lit_spec).
    subst s1 s7 s10.
    exists (String c (string_of_list_ascii s6)).
    assert (exists kind, s9 = list_ascii_of_string kind /\
                         (kind = "qaq" \/ kind = "qaa" \/ kind = "qa")) as (kind & -> & Hk).
    { apply ReFacts.alt_inv in H9 as [H9%ReFacts.Lit_spec|H9]; [eauto|].
      apply ReFacts.alt_inv in H9 as [H9%ReFacts.Lit_spec|H9%ReFacts.Lit_spec]; eauto. }
    exists kind. split; [|split; [discriminate|split; [|exact Hk]]].
    + rewrite !list_ascii_app.
      change (list_ascii_of_string (String c (string_of_list_ascii s6)))
        with (c :: list_ascii_of_string (string_of_list_ascii s6)).
      rewrite list_ascii_of_string_of_list_ascii. reflexivity.
    + apply has_char_Forall. simpl. rewrite list_ascii_of_string_of_list_ascii.
      constructor; assumption.
  - intros (board & kind & -> & Hb & Hn & Hk).
    rewrite !list_ascii_app.
    apply Re.MCat; [apply ReFacts.Lit_spec; reflexivity|].
    apply Re.MCat.
    { destruct board as [|c board]; [congruence|].
      apply has_char_Forall in Hn. simpl in Hn. inversion Hn; subst.
      apply (Re.MCat _ _ [c]); [constructor; assumption | apply ReFacts.star_dot_spec; assumption]. }
    apply Re.MCat; [apply ReFacts.Lit_spec; reflexivity|].
    apply Re.MCat; [|apply ReFacts.Lit_spec; reflexivity].
    destruct Hk as [->|[->| ->]].
    + apply Re.MAltL, ReFacts.Lit_spec. reflexivity.
    + apply Re.MAltR, Re.MAltL, ReFacts.Lit_spec. reflexivity.
    + apply Re.MAltR, Re.MAltR, ReFacts.Lit_spec. reflexivity.
Qed.

Lemma search_thread_pattern (full : string) :
  Re.search thread_pattern full = true <-> is_thread_url full.
Proof.
  unfold Re.search, is_thread_url. rewrite ReFacts.search_list_spec. split.
  - intros (pre & m & post & E & (board & kind & -> & Hb & Hn & Hk)%thread_pattern_matches).
    exists (string_of_list_ascii pre), board, kind, (string_of_list_ascii post).
    split; [|auto].
    rewrite <- (string_of_list_ascii_of_string full), E.
    rewrite !string_of_list_app, string_of_list_ascii_of_string.
    rewrite !append_assoc. reflexivity.
  - intros (pre & board & kind & post & -> & Hb & Hn & Hk).
    exists (list_ascii_of_string pre),
      (list_ascii_of_string ("/t5/" +:+ board +:+ "/" +:+ kind +:+ "-p/")),
      (list_ascii_of_string post).
    split.
    + rewrite <- !list_ascii_app. f_equal. rewrite !append_assoc. reflexivity.
    + apply thread_pattern_matches. exists board, kind. auto.
Qed.

Lemma keeps_link_spec (full : string) :
  keeps_link full = true <-> ~ is_profile_url full /\ is_thread_url full.
Proof.
  unfold keeps_link, is_profile_url.
  rewrite andb_true_iff, negb_true_iff, search_thread_pattern, <- str_in_spec.
  destruct (Py.str_in PROFILE_PATTERN full); split; intros [H1 H2]; split;
    auto; congruence.
Qed.

Lemma filter_links_spec (hrefs filtered : list string) :
  filter_links hrefs filtered
  = filtered ++ List.filter keeps_link (map normalize_href hrefs).
Proof.
  revert filtered. induction hrefs as [|href rest IH]; intros filtered; simpl.
  - by rewrite app_nil_r.
  - unfold keeps_link at 1.
    destruct (Py.str_in PROFILE_PATTERN (normalize_href href)); simpl; [apply IH|].
    destruct (Re.search thread_pattern (normalize_href href)); [|apply IH].
    rewrite IH, <- app_assoc. reflexivity.
Qed.

Lemma filter_filter {A} (f g : A -> bool) (l : list A) :
  List.filter f (List.filter g l) = List.filter (fun x => g x && f x) l.
Proof.
  induction l as [|x l IH]; simpl; [reflexivity|].
  destruct (g x); simpl; [destruct (f x)|]; by rewrite ?IH.
Qed.

Lemma dedupe_links_spec (filtered : list string) (seen : gset string) (q_urls : list string) :
  dedupe_links filtered seen q_urls
  = q_urls ++ List.filter (fun y => bool_decide (y ∉ seen)) (first_seen filtered).
Proof.
  revert seen q_urls. induction filtered as [|u rest IH]; intros seen q_urls; simpl.
  - by rewrite app_nil_r.
  - rewrite filter_filter. destruct (decide (u ∈ seen)) as [Hin|Hnot].
    + rewrite IH, bool_decide_eq_false_2 by auto. f_equal.
      apply filter_ext. intros y. destruct (String.eqb_spec u y) as [<-|Hne]; simpl; [|reflexivity].
      apply bool_decide_eq_false_2. auto.
    + rewrite IH, bool_decide_eq_true_2, <- app_assoc by assumption. simpl. do 2 f_equal.
      apply filter_ext. intros y. destruct (String.eqb_spec u y) as [<-|Hne]; simpl.
      * apply bool_decide_eq_false_2. intros H. apply H.
        apply elem_of_union_l, elem_of_singleton. reflexivity.
      * apply bool_decide_ext. rewrite not_elem_of_union, elem_of_singleton.
        split; [intros [_ H]; exact H | intros H; split; [congruence | exact H]].
Qed.

Lemma first_seen_elem (l : list string) (x : string) : In x (first_seen l) <-> In x l.
Proof.
  induction l as [|y l IH]; simpl; [reflexivity|].
  rewrite filter_In, IH, negb_true_iff. destruct (String.eqb_spec y x) as [->|Hne].
  - split; auto.
  - split; [intros [?|[? _]]; auto | intros [?|?]; auto].
Qed.

Lemma first_seen_NoDup (l : list string) : List.NoDup (first_seen l).
Proof.
  induction l as [|y l IH]; simpl; constructor.
  - rewrite filter_In, negb_true_iff. intros [_ H]. by rewrite String.eqb_refl in H.
  - by apply List.NoDup_filter.
Qed.

(** C6. The links kept are the normalised links that are no profile page
    and match the thread pattern, each once, in the order first seen. *)
Theorem link_filtering (hrefs : list string) :
  valid_thread_links hrefs
  = first_seen (List.filter keeps_link (map normalize_href hrefs))
  /\ (forall full, keeps_link full = true <-> ~ is_profile_url full /\ is_thread_url full)
  /\ List.NoDup (valid_thread_links hrefs)
  /\ (forall u, In u (valid_thread_links hrefs) <->
        exists href, In href hrefs /\ u = normalize_href href /\
                     ~ is_profile_url u /\ is_thread_url u).
Proof.
  assert (valid_thread_links hrefs
          = first_seen (List.filter keeps_link (map normalize_href hrefs))) as E.
  { unfold valid_thread_links. rewrite dedupe_links_spec, filter_links_spec. simpl.
    rewrite <- (filter_ext (fun _ => true)).
    - clear. induction (first_seen _) as [|x l IH]; simpl; by rewrite ?IH.
    - intros y. symmetry. apply bool_decide_eq_true_2. apply not_elem_of_empty. }
  split; [exact E|]. split; [apply keeps_link_spec|]. rewrite E. split.
  - apply first_seen_NoDup.
  - intros u. rewrite first_seen_elem, filter_In, in_map_iff, keeps_link_spec. split.
    + intros [(href & <- & Hin) Hk]. eauto.
    + intros (href & Hin & -> & Hk). eauto.
Qed.

(** ** What the run logs *)

Section Emits.

Variable urljoin : string -> string -> string.
Variable w : World.
Variable topic_url : string.
Variable max_questions : option Z.
Variable P : Event -> Prop.

Lemma emits_emit ev : P ev -> respects (emits P) (emit ev).
Proof.
  intros H. apply respects_modify; try exact _. intros st. exists [ev]. simpl.
  split; [reflexivity | constructor; [assumption | constructor]].
Qed.

Lemma emits_silent (f : State -> State) :
  (forall st, log (f st) = log st) -> respects (emits P) (modify f).
Proof.
  intros H. apply respects_modify; try exact _. intros st. exists [].
  rewrite H, app_nil_r. split; [reflexivity | constructor].
Qed.

Lemma emits_set_disk d : respects (emits P) (set_disk d).
Proof. apply emits_silent. reflexivity. Qed.

Lemma emits_set_base b : respects (emits P) (set_base_filename b).
Proof. apply emits_silent. reflexivity. Qed.

Lemma emits_set_stop : respects (emits P) set_stop_all.
Proof. apply emits_silent. reflexivity. Qed.

Lemma emits_append page_num accepted r :
  P (EvAppend page_num accepted r) -> respects (emits P) (append_result page_num accepted r).
Proof.
  intros H. apply respects_modify; try exact _. intros st.
  exists [EvAppend page_num accepted r]. simpl.
  split; [reflexivity | constructor; [assumption | constructor]].
Qed.

End Emits.

Create HintDb emits.
#[export] Hint Resolve emits_emit emits_set_disk emits_set_base emits_set_stop emits_append
  : emits.

Ltac emits_tac :=
  repeat first [ solve [eauto with emits] | respects_step ].

Section EmitsRun.

Variable urljoin : string -> string -> string.
Variable w : World.
Variable topic_url : string.
Variable max_questions : option Z.
Variable P : Event -> Prop.

Hypothesis P_write : forall a path content, P (EvWrite a path content).
Hypothesis P_flushed : forall d b, P (EvFlushed d b).

Lemma emits_write a path content : respects (emits P) (write_file w a path content).
Proof. unfold write_file. emits_tac. Qed.
Hint Resolve emits_write : emits.

Lemma emits_checkpoint base page u :
  respects (emits P) (save_progress_checkpoint w base page u).
Proof. unfold save_progress_checkpoint. emits_tac. Qed.
Hint Resolve emits_checkpoint : emits.

Lemma emits_flush acc noacc :
  respects (emits P) (_save_results_incrementally w acc noacc).
Proof. unfold _save_results_incrementally, flushed. emits_tac. Qed.
Hint Resolve emits_flush : emits.

Lemma emits_extract_question q_url body :
  respects (emits P) (extract_question urljoin q_url body).
Proof. unfold extract_question. emits_tac. Qed.
Hint Resolve emits_extract_question : emits.

Lemma emits_persist page_num q_url :
  respects (emits P) (persist_and_check w max_questions page_num q_url).
Proof. unfold persist_and_check. emits_tac. Qed.
Hint Resolve emits_persist : emits.

Lemma emits_goto_list page_num u attempt remaining :
  (forall k, P (EvGotoList page_num u k)) ->
  respects (emits P) (goto_list_attempts w page_num u attempt remaining).
Proof.
  intros HP. revert attempt.
  induction remaining as [|k IH]; intros attempt; simpl;
    unfold wait_unless_last; emits_tac.
Qed.

Lemma emits_goto_thread page_num q_url attempt remaining :
  (forall k, P (EvGotoThread page_num q_url k)) ->
  respects (emits P) (goto_thread_attempts w page_num q_url attempt remaining).
Proof.
  intros HP. revert attempt.
  induction remaining as [|k IH]; intros attempt; simpl;
    unfold wait_unless_last; emits_tac.
Qed.

Lemma emits_process_thread page_num q_url :
  (forall a r, P (EvAppend page_num a r)) ->
  respects (emits P) (process_thread urljoin w max_questions page_num q_url).
Proof. intros HP. unfold process_thread. emits_tac. Qed.

Lemma emits_visit_thread page_num q_url :
  (forall u k, P (EvGotoThread page_num u k)) ->
  (forall a r, P (EvAppend page_num a r)) ->
  respects (emits P) (visit_thread urljoin w max_questions page_num q_url).
Proof.
  intros HP1 HP2. unfold visit_thread.
  pose proof (emits_goto_thread page_num) as Hg.
  pose proof (emits_process_thread page_num) as Hp.
  emits_tac.
Qed.

Lemma emits_visit_threads page_num q_urls :
  (forall u k, P (EvGotoThread page_num u k)) ->
  (forall a r, P (EvAppend page_num a r)) ->
  respects (emits P) (visit_threads urljoin w max_questions page_num q_urls).
Proof.
  intros HP1 HP2. pose proof (emits_visit_thread page_num) as Hv.
  induction q_urls as [|q_url rest IH]; simpl; emits_tac.
Qed.

Lemma emits_scrape_list_page page_num :
  (forall u k, P (EvGotoList page_num u k)) ->
  (forall u k, P (EvGotoThread page_num u k)) ->
  (forall a r, P (EvAppend page_num a r)) ->
  respects (emits P) (scrape_list_page urljoin w topic_url max_questions page_num).
Proof.
  intros HP0 HP1 HP2. unfold scrape_list_page.
  pose proof (emits_goto_list page_num) as Hg.
  pose proof (emits_visit_threads page_num) as Hv.
  emits_tac.
Qed.

End EmitsRun.

Section EmitsCrawl.

Variable urljoin : string -> string -> string.
Variable w : World.
Variable topic_url : string.
Variable max_pages : Z.
Variable max_questions : option Z.

Lemma emits_crawl_pages (P : Event -> Prop) (pages : list Z) :
  (forall a path content, P (EvWrite a path content)) ->
  (forall d b, P (EvFlushed d b)) ->
  (forall ev page_num, event_page ev = Some page_num -> In page_num pages -> P ev) ->
  respects (emits P) (crawl_pages urljoin w topic_url max_questions pages).
Proof.
  intros HW HF HP. induction pages as [|page_num rest IH]; simpl.
  - apply respects_ret; exact _.
  - apply respects_bind; try exact _.
    + apply emits_scrape_list_page; auto; intros; apply (HP _ page_num); simpl; auto.
    + intros [|]; [|apply respects_ret; exact _].
      apply IH. intros ev q Hq Hin. apply (HP ev q); simpl; auto.
Qed.

Lemma emits_scrape_body (P : Event -> Prop) (start_page : Z) :
  (forall a path content, P (EvWrite a path content)) ->
  (forall d b, P (EvFlushed d b)) ->
  (forall ev page_num,
     event_page ev = Some page_num -> start_page <= page_num <= max_pages -> P ev) ->
  respects (emits P) (scrape_body urljoin w topic_url max_pages max_questions start_page).
Proof.
  intros HW HF HP. unfold scrape_body.
  assert (respects (emits P)
            (crawl_pages urljoin w topic_url max_questions (page_range max_pages start_page)))
    as Hc.
  { apply emits_crawl_pages; auto. intros ev q Hq Hin. apply (HP ev q Hq).
    apply list_elem_of_In, elem_of_seqZ in Hin. lia. }
  emits_tac.
Qed.

Lemma log_of_run (P : Event -> Prop) {A} (m : M A) (st : State) :
  respects (emits P) m -> log st = [] -> Forall P (log (snd (m st))).
Proof. intros H E. destruct (H st) as (evs & -> & HF). rewrite E. exact HF. Qed.


End EmitsCrawl.

(** ** The end of the pagination *)

Section EndOfPagination.

Variable urljoin : string -> string -> string.
Variable w : World.
Variable topic_url : string.
Variable max_pages : Z.
Variable max_questions : option Z.

Ltac page_tac :=
  unfold before_page, fetch_of_page; intros; repeat split; simpl in *; intros;
  try discriminate;
  repeat match goal with H : Some _ = Some _ |- _ => injection H as <- end;
  try lia.

Lemma stops_with_before (p : Z) (s s' : State) :
  emits (before_page p) s s' -> stops_with p s s'.
Proof.
  intros (evs & E & H). exists evs, []. rewrite app_nil_r. auto.
Qed.

Lemma stops_with_fetch (p : Z) (s s' : State) :
  emits (fetch_of_page p) s s' -> stops_with p s s'.
Proof.
  intros (evs & E & H). exists [], evs. auto.
Qed.

Lemma stops_with_after_before (p : Z) (s s1 s2 : State) :
  emits (before_page p) s s1 -> stops_with p s1 s2 -> stops_with p s s2.
Proof.
  intros (evs & E & H) (e1 & e2 & E' & H1 & H2). exists (evs ++ e1), e2.
  rewrite E', E, <- !app_assoc. split; [reflexivity|]. split; [|assumption].
  apply Forall_app. auto.
Qed.

Lemma scrape_empty_page (p : Z) (st : State) :
  list_page_loads w topic_url p ->
  page_links w p = Ok [] ->
  let r := scrape_list_page urljoin w topic_url max_questions p st in
  fst r <> Ok Continue /\ emits (fetch_of_page p) st (snd r).
Proof.
  intros Hload Hlinks r. subst r. unfold scrape_list_page. cbv zeta. rewrite bind_gets.
  assert (respects (emits (fetch_of_page p))
            (save_progress_checkpoint w (base_filename st) p (list_url topic_url p))) as Hc.
  { apply emits_checkpoint; page_tac. }
  assert (forall u a k, respects (emits (fetch_of_page p)) (goto_list_attempts w p u a k))
    as Hg.
  { intros u a k. apply emits_goto_list; page_tac. }
  specialize (Hc st). bind_split st u.
  { rewrite Hm in Hc |- *. simpl in *. split; [discriminate | exact Hc]. }
  rewrite Hm in Hc. simpl in Hc.
  revert Hc. generalize (snd (save_progress_checkpoint w (base_filename st) p
                                (list_url topic_url p) st)). intros st1 Hc.
  rewrite bind_lift. destruct (wait w (BeforeFetch p)) as [[]|e];
    [|split; [discriminate | exact Hc]].
  specialize (Hg (list_url topic_url p) 0%nat 3%nat st1).
  pose proof (Hload st1) as Hres.
  bind_split st1 success.
  { rewrite Hm0 in Hres. discriminate. }
  rewrite Hm0 in Hres. injection Hres as ->. cbn [negb].
  unfold page_links, mbind, outcome_bind in Hlinks. rewrite bind_lift.
  destruct (wait w (Settle p)) as [[]|e]; [|discriminate].
  rewrite bind_lift.
  destruct (discover_links (list_page w p)) as [hrefs|e]; [|discriminate].
  injection Hlinks as ->. simpl. split; [discriminate|].
  etransitivity; eassumption.
Qed.

Lemma crawl_stops_at (p : Z) (pre post : list Z) (st : State) :
  Forall (fun q => q < p) pre ->
  list_page_loads w topic_url p ->
  page_links w p = Ok [] ->
  stops_with p st
    (snd (crawl_pages urljoin w topic_url max_questions (pre ++ p :: post) st)).
Proof.
  intros Hpre Hload Hlinks. revert st.
  induction Hpre as [|q pre Hq _ IH]; intros st; cbn [app crawl_pages].
  - destruct (scrape_empty_page p st Hload Hlinks) as [Hne He].
    apply stops_with_fetch.
    bind_split st c; [rewrite Hm in He; exact He|].
    rewrite Hm in Hne, He. simpl in *. destruct c; [congruence | exact He].
  - assert (respects (emits (before_page p))
              (scrape_list_page urljoin w topic_url max_questions q)) as Hs.
    { apply emits_scrape_list_page; page_tac. }
    specialize (Hs st).
    bind_split st c; [rewrite Hm in Hs; apply stops_with_before; exact Hs|].
    rewrite Hm in Hs. simpl in Hs. destruct c; [|apply stops_with_before; exact Hs].
    eapply stops_with_after_before; [exact Hs | apply IH].
Qed.

(** C8. When a list page that loads yields no link after filtering and
    deduplication, the run ends with the fetch of that page: its log is
    made of events of earlier pages, followed only by the checkpoint of
    that page and the attempts at loading it.  No list page of a greater
    index is attempted and no thread is visited from then on. *)
Theorem end_of_pagination (resume : bool) (d : gmap string FileContent) (p : Z) :
  start_page_of topic_url resume d <= p ->
  list_page_loads w topic_url p ->
  page_links w p = Ok [] ->
  exists before after : list Event,
    log (snd (scrape_sap_community urljoin w topic_url max_pages max_questions resume d))
    = before ++ after /\
    Forall (fun ev => forall q, event_page ev = Some q -> q < p) before /\
    Forall (fun ev => thread_event ev = false /\
                      forall q, event_page ev = Some q -> q = p) after.
Proof.
  intros Hstart Hload Hlinks. unfold scrape_sap_community.
  set (start := start_page_of topic_url resume d) in *.
  assert (forall st, stops_with p st
            (snd (crawl_pages urljoin w topic_url max_questions
                    (page_range max_pages start) st))) as Hc.
  { intros st. destruct (Z_le_gt_dec p max_pages) as [Hle|Hgt].
    - unfold page_range.
      replace (max_pages + 1 - start) with ((p - start) + (max_pages + 1 - p)) by lia.
      rewrite seqZ_app by lia. rewrite (seqZ_cons (start + (p - start))) by lia.
      replace (start + (p - start)) with p by lia.
      apply crawl_stops_at; auto.
      apply Forall_seqZ. intros; lia.
    - apply stops_with_before. apply emits_crawl_pages; [page_tac | page_tac |].
      intros ev q Hq Hin. apply list_elem_of_In, elem_of_seqZ in Hin.
      intros q' Hq'. assert (q' = q) by congruence. lia. }
  assert (stops_with p (initial_state topic_url d)
            (snd (scrape_body urljoin w topic_url max_pages max_questions start
                    (initial_state topic_url d)))) as (before & after & E & H1 & H2).
  { generalize (initial_state topic_url d). intros st. unfold scrape_body.
    rewrite bind_lift. destruct (launch w) as [[]|e].
    2:{ simpl. apply stops_with_before. exists []. rewrite app_nil_r. auto. }
    specialize (Hc st). bind_split st u; [exact Hc|].
    rewrite bind_lift. destruct (close w) as [[]|e]; exact Hc. }
  exists before, after. rewrite E. auto.
Qed.

End EndOfPagination.

(** ** Exceptions that stay inside the loops *)

Lemma no_raise_ret {A} (a : A) : no_raise (mret a : M A).
Proof. intros st. exists a. reflexivity. Qed.

Lemma no_raise_gets {A} (f : State -> A) : no_raise (gets f).
Proof. intros st. exists (f st). reflexivity. Qed.

Lemma no_raise_modify (f : State -> State) : no_raise (modify f).
Proof. intros st. exists tt. reflexivity. Qed.

Lemma no_raise_lift {A} (a : A) : no_raise (lift (Ok a)).
Proof. intros st. exists a. reflexivity. Qed.

Lemma no_raise_bind {A B} (m : M A) (f : A -> M B) :
  no_raise m -> (forall a, no_raise (f a)) -> no_raise (m ≫= f).
Proof.
  intros Hm Hf st. unfold mbind, M_bind. destruct (Hm st) as [a Ha].
  destruct (m st) as [o st1]. simpl in Ha. subst o. apply Hf.
Qed.

(** a handler that does not raise makes the whole [try] not raise,
    whatever the block does *)
Lemma no_raise_try {A} (m : M A) (h : exn -> M A) :
  (forall e, no_raise (h e)) -> no_raise (try_catch m h).
Proof.
  intros Hh st. unfold try_catch. destruct (m st) as [[a|e] st1]; [exists a; reflexivity|].
  apply Hh.
Qed.

Ltac no_raise_step :=
  lazymatch goal with
  | |- no_raise (mret _) => apply no_raise_ret
  | |- no_raise (gets _) => apply no_raise_gets
  | |- no_raise (modify _) => apply no_raise_modify
  | |- no_raise (emit _) => apply no_raise_modify
  | |- no_raise set_stop_all => apply no_raise_modify
  | |- no_raise (lift (Ok _)) => apply no_raise_lift
  | |- no_raise (mbind _ _) => apply no_raise_bind; [|intros ?]
  | |- no_raise (try_catch _ _) => apply no_raise_try; intros ?
  | |- no_raise (if ?b then _ else _) => destruct b
  | |- no_raise (match ?x with _ => _ end) => destruct x
  | |- no_raise (let _ := _ in _) => cbv zeta
  end.

Section NoRaise.

Variable urljoin : string -> string -> string.
Variable w : World.
Variable topic_url : string.
Variable max_pages : Z.
Variable max_questions : option Z.

(** the block that extracts, classifies and persists a thread, with its
    handler *)
Lemma no_raise_thread_block page_num q_url :
  no_raise (try_catch (process_thread urljoin w max_questions page_num q_url)
              (fun _ => mret Continue)).
Proof. repeat no_raise_step. Qed.

Hypothesis waits_ok : forall pause, wait w pause = Ok tt.

Lemma no_raise_wait_unless_last attempt pause : no_raise (wait_unless_last w attempt pause).
Proof. unfold wait_unless_last. rewrite waits_ok. repeat no_raise_step. Qed.

Lemma no_raise_goto_list page_num u attempt remaining :
  no_raise (goto_list_attempts w page_num u attempt remaining).
Proof.
  revert attempt. induction remaining as [|k IH]; intros attempt; simpl;
    repeat first [ apply IH | apply no_raise_wait_unless_last | no_raise_step ].
Qed.

Lemma no_raise_goto_thread page_num q_url attempt remaining :
  no_raise (goto_thread_attempts w page_num q_url attempt remaining).
Proof.
  revert attempt. induction remaining as [|k IH]; intros attempt; simpl;
    repeat first [ apply IH | rewrite waits_ok | no_raise_step ].
Qed.

(** the iteration over a thread catches whatever its block raises *)
Lemma no_raise_visit_thread page_num q_url :
  no_raise (visit_thread urljoin w max_questions page_num q_url).
Proof.
  unfold visit_thread.
  repeat first [ apply no_raise_goto_thread | no_raise_step ].
Qed.

Lemma no_raise_visit_threads page_num q_urls :
  no_raise (visit_threads urljoin w max_questions page_num q_urls).
Proof.
  induction q_urls as [|q_url rest IH]; simpl;
    repeat first [ apply IH | apply no_raise_visit_thread | no_raise_step ].
Qed.

Hypothesis mkdir_ok : mkdir w SCRAPPED_DATA_DIR = Ok tt.
Hypothesis discovery_ok : forall page_num, is_ok (discover_links (list_page w page_num)) = true.

Lemma no_raise_checkpoint base page u :
  no_raise (save_progress_checkpoint w base page u).
Proof. unfold save_progress_checkpoint. rewrite mkdir_ok. repeat no_raise_step. Qed.

Lemma no_raise_scrape_list_page page_num :
  no_raise (scrape_list_page urljoin w topic_url max_questions page_num).
Proof.
  unfold scrape_list_page. cbv zeta. specialize (discovery_ok page_num).
  destruct (discover_links (list_page w page_num)) as [hrefs|e]; [|discriminate].
  rewrite !waits_ok.
  repeat first [ apply no_raise_checkpoint | apply no_raise_goto_list
               | apply no_raise_visit_threads | no_raise_step ].
Qed.

Lemma no_raise_crawl_pages pages :
  no_raise (crawl_pages urljoin w topic_url max_questions pages).
Proof.
  induction pages as [|page_num rest IH]; simpl;
    repeat first [ apply IH | apply no_raise_scrape_list_page | no_raise_step ].
Qed.

End NoRaise.

(** C9, as the code has it.  The block that extracts, classifies and
    persists a thread keeps every exception.  The attempts at a list page
    and the iteration over a thread keep the exceptions of the navigation;
    they raise only when one of the timed waits outside the [try] blocks
    does.  When the browser starts and closes, the data directory can be
    made, no such wait raises and the link discovery of the list pages
    raises nothing but the time-out of its selector wait, the run returns
    the collections it has accumulated. *)
Theorem guarded_run_returns (urljoin : string -> string -> string) (w : World)
    (topic_url : string) (max_pages : Z) (max_questions : option Z) (resume : bool)
    (d : gmap string FileContent) :
  (forall page_num q_url,
     no_raise (try_catch (process_thread urljoin w max_questions page_num q_url)
                 (fun _ => mret Continue))) /\
  ((forall pause, wait w pause = Ok tt) ->
   (forall page_num q_url, no_raise (visit_thread urljoin w max_questions page_num q_url)) /\
   (forall page_num u, no_raise (goto_list_attempts w page_num u 0 3))) /\
  (launch w = Ok tt ->
   close w = Ok tt ->
   mkdir w SCRAPPED_DATA_DIR = Ok tt ->
   (forall pause, wait w pause = Ok tt) ->
   (forall page_num, is_ok (discover_links (list_page w page_num)) = true) ->
   let run := scrape_sap_community urljoin w topic_url max_pages max_questions resume d in
   fst run = Ok (accepted_results (snd run), no_accepted_results (snd run))).
Proof.
  split; [intros; apply no_raise_thread_block|].
  split.
  { intros Hw. split; intros; [apply no_raise_visit_thread | apply no_raise_goto_list];
      assumption. }
  intros launch_ok close_ok mkdir_ok waits_ok discovery_ok.
  unfold scrape_sap_community, scrape_body. rewrite launch_ok, close_ok.
  rewrite bind_lift.
  generalize (initial_state topic_url d). intros st.
  destruct (no_raise_crawl_pages urljoin w topic_url max_questions waits_ok mkdir_ok
              discovery_ok (page_range max_pages (start_page_of topic_url resume d)) st)
    as [[] Hc].
  bind_split st u; [rewrite Hm in Hc; discriminate|].
  rewrite bind_lift. reflexivity.
Qed.

(** ** What the flush leaves on the disk *)

#[global] Instance keeps_preorder (I : State -> Prop) : PreOrder (keeps I).
Proof. split; unfold keeps; [intros s; auto | intros s1 s2 s3; auto]. Qed.

Lemma appended_app (b : bool) (l1 l2 : list Event) :
  appended b (l1 ++ l2) = appended b l1 ++ appended b l2.
Proof.
  induction l1 as [|ev l1 IH]; simpl; [reflexivity|].
  destruct ev; auto. destruct (Bool.eqb _ _); simpl; by rewrite IH.
Qed.

Lemma flush_sound_snoc (evs : list Event) (ev : Event) :
  flush_sound evs ->
  (forall disk_now base, ev = EvFlushed disk_now base ->
     disk_now !! accepted_json_file base = Some (ResultsJson (appended true evs)) /\
     disk_now !! no_accepted_json_file base = Some (ResultsJson (appended false evs))) ->
  flush_sound (evs ++ [ev]).
Proof.
  intros Hs Hev i disk_now base Hi.
  destruct (decide (i < length evs)%nat) as [Hlt|Hge].
  - rewrite lookup_app_l in Hi by assumption.
    rewrite take_app_le by lia. apply Hs. assumption.
  - rewrite lookup_app_r in Hi by lia.
    destruct (i - length evs)%nat as [|k] eqn:E; simpl in Hi; [|by destruct k].
    injection Hi as ->. assert (i = length evs) as -> by lia.
    rewrite take_app_length. auto.
Qed.

Lemma append_inj_l (a x y : string) : a +:+ x = a +:+ y -> x = y.
Proof. induction a as [|c a IH]; [auto|]. rewrite !append_cons. intros [= H]. auto. Qed.

Lemma startswith_slash_cons (c : ascii) (x y : string) :
  Py.startswith (String c x) "/" = Py.startswith (String c y) "/".
Proof.
  unfold Py.startswith. cbn [String.prefix].
  destruct (Ascii.ascii_dec "/" c); [|reflexivity]. by destruct x, y.
Qed.

Lemma data_path_inj (x y : string) :
  Py.startswith x "/" = Py.startswith y "/" ->
  Py.path_join SCRAPPED_DATA_DIR x = Py.path_join SCRAPPED_DATA_DIR y -> x = y.
Proof.
  unfold Py.path_join. intros <-. destruct (Py.startswith x "/"); [auto|].
  simpl. intros H. apply (append_inj_l "scrapped_data/"). exact H.
Qed.

Lemma result_files_differ (base : string) :
  accepted_json_file base <> no_accepted_json_file base.
Proof.
  unfold accepted_json_file, no_accepted_json_file. intros H.
  apply data_path_inj in H.
  - apply append_inj_l in H. discriminate.
  - destruct base as [|c base]; [reflexivity|].
    rewrite !append_cons. apply startswith_slash_cons.
Qed.

Section FlushInvariant.

Variable urljoin : string -> string -> string.
Variable w : World.
Variable topic_url : string.
Variable max_pages : Z.
Variable max_questions : option Z.

Lemma keeps_emit ev :
  (forall page_num a r, ev <> EvAppend page_num a r) ->
  (forall d b, ev <> EvFlushed d b) ->
  respects (keeps run_inv) (emit ev).
Proof.
  intros Ha Hf. apply respects_modify; try exact _.
  intros st (H1 & H2 & H3). unfold run_inv. simpl. rewrite !appended_app.
  assert (forall b, appended b [ev] = []) as E.
  { intros b. destruct ev; try reflexivity. exfalso. eapply Ha. reflexivity. }
  rewrite !E, !app_nil_r. split; [assumption|]. split; [assumption|].
  apply flush_sound_snoc; [assumption|]. intros d b ->. exfalso. eapply Hf. reflexivity.
Qed.

Lemma keeps_silent (f : State -> State) :
  (forall st, log (f st) = log st) ->
  (forall st, accepted_results (f st) = accepted_results st) ->
  (forall st, no_accepted_results (f st) = no_accepted_results st) ->
  respects (keeps run_inv) (modify f).
Proof.
  intros Hl Ha Hn. apply respects_modify; try exact _.
  intros st. unfold keeps, run_inv. rewrite Hl, Ha, Hn. auto.
Qed.

Lemma keeps_set_disk d : respects (keeps run_inv) (set_disk d).
Proof. apply keeps_silent; reflexivity. Qed.

Lemma keeps_set_base b : respects (keeps run_inv) (set_base_filename b).
Proof. apply keeps_silent; reflexivity. Qed.

Lemma keeps_set_stop : respects (keeps run_inv) set_stop_all.
Proof. apply keeps_silent; reflexivity. Qed.

Lemma keeps_append page_num accepted r :
  respects (keeps run_inv) (append_result page_num accepted r).
Proof.
  apply respects_modify; try exact _.
  intros st (H1 & H2 & H3). unfold run_inv. simpl. rewrite !appended_app. simpl.
  split; [|split].
  - destruct accepted; simpl; rewrite ?app_nil_r; congruence.
  - destruct accepted; simpl; rewrite ?app_nil_r; congruence.
  - apply flush_sound_snoc; [assumption | discriminate].
Qed.

Create HintDb keeps.
Hint Resolve keeps_set_disk keeps_set_base keeps_set_stop keeps_append : keeps.
Hint Extern 1 (respects (keeps run_inv) (emit _)) =>
  apply keeps_emit; discriminate : keeps.

Ltac keeps_tac :=
  repeat first [ solve [eauto with keeps] | respects_step ].

Lemma keeps_write a path content :
  respects (keeps run_inv) (write_file w a path content).
Proof. unfold write_file. keeps_tac. Qed.
Hint Resolve keeps_write : keeps.

Lemma keeps_checkpoint base page u :
  respects (keeps run_inv) (save_progress_checkpoint w base page u).
Proof. unfold save_progress_checkpoint. keeps_tac. Qed.
Hint Resolve keeps_checkpoint : keeps.

Lemma bind_write {B} a path content (f : unit -> M B) st :
  (write_file w a path content ≫= f) st
  = if writable w path
    then f tt {| disk := <[path := content]> (disk st);
                 accepted_results := accepted_results st;
                 no_accepted_results := no_accepted_results st;
                 base_filename := base_filename st; visited_count := visited_count st;
                 stop_all := stop_all st; log := log st ++ [EvWrite a path content] |}
    else (Raise OtherError,
          {| disk := disk st;
             accepted_results := accepted_results st;
             no_accepted_results := no_accepted_results st;
             base_filename := base_filename st; visited_count := visited_count st;
             stop_all := stop_all st; log := log st ++ [EvWrite a path content] |}).
Proof.
  unfold write_file, emit, set_disk, gets, modify, raise, mbind, M_bind.
  destruct (writable w path); reflexivity.
Qed.

Lemma run_inv_write st d b v s a path content :
  run_inv st ->
  run_inv {| disk := d; accepted_results := accepted_results st;
             no_accepted_results := no_accepted_results st;
             base_filename := b; visited_count := v; stop_all := s;
             log := log st ++ [EvWrite a path content] |}.
Proof.
  intros (H1 & H2 & H3). unfold run_inv. simpl. rewrite !appended_app. simpl.
  rewrite !app_nil_r. split; [assumption|]. split; [assumption|].
  apply flush_sound_snoc; [assumption | discriminate].
Qed.

(** the flush of the current collections *)
Lemma keeps_flush st :
  run_inv st ->
  run_inv (snd (_save_results_incrementally w (accepted_results st)
                  (no_accepted_results st) st)).
Proof.
  intros Hinv. unfold _save_results_incrementally. rewrite bind_lift.
  destruct (mkdir w SCRAPPED_DATA_DIR); [|exact Hinv].
  rewrite bind_gets, bind_write.
  destruct (writable w (accepted_json_file (base_filename st)));
    [|apply run_inv_write; exact Hinv].
  rewrite bind_write.
  cbn [disk accepted_results no_accepted_results base_filename visited_count stop_all log].
  destruct (writable w (no_accepted_json_file (base_filename st))).
  2:{ destruct Hinv as (H1 & H2 & H3). unfold run_inv.
      cbn [snd disk accepted_results no_accepted_results base_filename visited_count
           stop_all log].
      rewrite !appended_app. simpl. rewrite !app_nil_r.
      split; [assumption|]. split; [assumption|].
      apply flush_sound_snoc; [|discriminate].
      apply flush_sound_snoc; [assumption | discriminate]. }
  unfold flushed. rewrite bind_assoc, bind_gets, bind_assoc, bind_gets.
  unfold emit at 1. rewrite bind_modify.
  cbn [disk accepted_results no_accepted_results base_filename visited_count stop_all log].
  match goal with |- run_inv (snd (_ ?s)) => assert (run_inv s) as Hs end.
  { destruct Hinv as (H1 & H2 & H3). unfold run_inv.
    cbn [disk accepted_results no_accepted_results base_filename visited_count stop_all log].
    rewrite !appended_app. simpl. rewrite !app_nil_r.
    split; [assumption|]. split; [assumption|].
    apply flush_sound_snoc.
    - apply flush_sound_snoc; [|discriminate].
      apply flush_sound_snoc; [assumption | discriminate].
    - intros disk_now base [= <- <-]. rewrite !appended_app. simpl.
      rewrite !app_nil_r, <- H1, <- H2. split.
      + rewrite lookup_insert_ne by (apply not_eq_sym, result_files_differ).
        apply lookup_insert_eq.
      + apply lookup_insert_eq. }
  destruct (excel_rows_of _ _); [exact Hs|].
  rewrite bind_gets. apply keeps_write. exact Hs.
Qed.

Lemma keeps_persist page_num q_url :
  respects (keeps run_inv) (persist_and_check w max_questions page_num q_url).
Proof.
  unfold persist_and_check. intros st Hinv. rewrite !bind_gets.
  pose proof (keeps_flush st Hinv) as Hf.
  bind_split st u; [exact Hf|].
  revert Hf. generalize (snd (_save_results_incrementally w (accepted_results st)
                                (no_accepted_results st) st)). intros st1 Hf.
  revert st1 Hf. change (respects (keeps run_inv)
    (base_filename ← gets base_filename;
     save_progress_checkpoint w base_filename page_num q_url;;
     visited_count ← gets visited_count;
     if quota_reached max_questions visited_count
     then set_stop_all;; mret Break else mret Continue)).
  keeps_tac.
Qed.
Hint Resolve keeps_persist : keeps.

Lemma keeps_goto_list page_num u attempt remaining :
  respects (keeps run_inv) (goto_list_attempts w page_num u attempt remaining).
Proof.
  revert attempt. induction remaining as [|k IH]; intros attempt; simpl;
    unfold wait_unless_last; keeps_tac.
Qed.
Hint Resolve keeps_goto_list : keeps.

Lemma keeps_goto_thread page_num q_url attempt remaining :
  respects (keeps run_inv) (goto_thread_attempts w page_num q_url attempt remaining).
Proof.
  revert attempt. induction remaining as [|k IH]; intros attempt; simpl;
    unfold wait_unless_last; keeps_tac.
Qed.
Hint Resolve keeps_goto_thread : keeps.

Lemma keeps_visit_thread page_num q_url :
  respects (keeps run_inv) (visit_thread urljoin w max_questions page_num q_url).
Proof. unfold visit_thread, process_thread, extract_question. keeps_tac. Qed.
Hint Resolve keeps_visit_thread : keeps.

Lemma keeps_visit_threads page_num q_urls :
  respects (keeps run_inv) (visit_threads urljoin w max_questions page_num q_urls).
Proof. induction q_urls as [|q_url rest IH]; simpl; keeps_tac. Qed.
Hint Resolve keeps_visit_threads : keeps.

Lemma keeps_scrape_list_page page_num :
  respects (keeps run_inv) (scrape_list_page urljoin w topic_url max_questions page_num).
Proof. unfold scrape_list_page. keeps_tac. Qed.
Hint Resolve keeps_scrape_list_page : keeps.

Lemma keeps_crawl_pages pages :
  respects (keeps run_inv) (crawl_pages urljoin w topic_url max_questions pages).
Proof. induction pages as [|page_num rest IH]; simpl; keeps_tac. Qed.
Hint Resolve keeps_crawl_pages : keeps.


End FlushInvariant.

(** ** The quota *)

Section Quota.

Variable urljoin : string -> string -> string.
Variable w : World.
Variable topic_url : string.
Variable max_pages : Z.
Variable max_questions : option Z.

Lemma same_results_keeps_quota {A} (m : M A) :
  respects same_results m -> respects (keeps (within_quota max_questions)) m.
Proof.
  intros H st [H1 H2]. destruct (H st) as (Ha & Hn & Hv).
  unfold within_quota. rewrite Ha, Hn, Hv. auto.
Qed.

Lemma same_results_goto_list page_num u attempt remaining :
  respects same_results (goto_list_attempts w page_num u attempt remaining).
Proof.
  revert attempt. induction remaining as [|k IH]; intros attempt; simpl;
    unfold wait_unless_last;
    repeat first [ solve [eauto using same_results_emit] | respects_step ].
Qed.

Lemma quota_visit_thread page_num q_url :
  respects (keeps (within_quota max_questions))
    (visit_thread urljoin w max_questions page_num q_url).
Proof.
  intros st [Hc Hq]. unfold visit_thread. rewrite bind_gets.
  destruct (quota_reached max_questions (visited_count st)) eqn:Q.
  { simpl. split; assumption. }
  set (q_url' := if Py.startswith q_url "http" then q_url else SITE_ROOT +:+ q_url).
  pose proof (same_results_goto_thread w page_num q_url' 0 2 st) as Hg.
  assert (forall st1, same_results st st1 -> within_quota max_questions st1) as Hsame.
  { intros st1 (Ha & Hn & Hv). unfold within_quota. rewrite Ha, Hn, Hv. auto. }
  bind_split st ok; [apply Hsame; exact Hg|].
  revert Hg. generalize (snd (goto_thread_attempts w page_num q_url' 0 2 st)).
  intros st1 Hg. destruct ok; cbn [negb]; [|apply Hsame; exact Hg].
  assert (snd (try_catch (process_thread urljoin w max_questions page_num q_url')
                 (fun _ => mret Continue) st1)
          = snd (process_thread urljoin w max_questions page_num q_url' st1)) as ->.
  { unfold try_catch. destruct (process_thread _ _ _ _ _ st1) as [[c|e] s]; reflexivity. }
  destruct (process_thread_results urljoin w max_questions page_num q_url' st1)
    as [Hs|(entry & _ & Hv & Hcoll)].
  { apply Hsame. etransitivity; eassumption. }
  destruct Hg as (Ha1 & Hn1 & Hv1). unfold within_quota. rewrite Hv, Hv1. split.
  - destruct (existsb is_accepted (all_responses entry)); destruct Hcoll as [-> ->];
      rewrite Ha1, Hn1, Hc, ?length_app; simpl; lia.
  - destruct max_questions as [n|]; [|exact I]. simpl in Q.
    apply Z.leb_gt in Q. lia.
Qed.

Lemma quota_visit_threads page_num q_urls :
  respects (keeps (within_quota max_questions))
    (visit_threads urljoin w max_questions page_num q_urls).
Proof.
  induction q_urls as [|q_url rest IH]; simpl;
    repeat first [ apply IH | apply quota_visit_thread | respects_step ].
Qed.

Lemma quota_scrape_list_page page_num :
  respects (keeps (within_quota max_questions))
    (scrape_list_page urljoin w topic_url max_questions page_num).
Proof.
  unfold scrape_list_page.
  repeat first [ apply quota_visit_threads
               | apply same_results_keeps_quota;
                 first [ apply same_results_checkpoint | apply same_results_goto_list ]
               | respects_step ].
Qed.

Lemma quota_crawl_pages pages :
  respects (keeps (within_quota max_questions))
    (crawl_pages urljoin w topic_url max_questions pages).
Proof.
  induction pages as [|page_num rest IH]; simpl;
    repeat first [ apply IH | apply quota_scrape_list_page | respects_step ].
Qed.

(** The part of the quota that holds on every run: the run never
    processes more threads than [max_questions], whatever fails. *)
Lemma quota_never_exceeded (resume : bool) (d : gmap string FileContent) :
  within_quota max_questions
    (snd (scrape_sap_community urljoin w topic_url max_pages max_questions resume d)).
Proof.
  unfold scrape_sap_community.
  assert (respects (keeps (within_quota max_questions))
            (scrape_body urljoin w topic_url max_pages max_questions
               (start_page_of topic_url resume d))) as H.
  { unfold scrape_body. repeat first [ apply quota_crawl_pages | respects_step ]. }
  apply H. unfold within_quota. simpl. split; [reflexivity|].
  destruct max_questions; [lia | exact I].
Qed.

End Quota.

(** ** The run on the sample worlds *)

(** C1. Topic [crm_topic], whose page 1 links to a thread of the
    technology board: once that thread's question body is found, the two
    result files, the spreadsheet and the checkpoint are written under the
    name derived from the thread's URL, not from the topic URL. *)
Theorem flush_named_after_visited_thread :
  let run := scrape_sap_community sample_urljoin world_other_board crm_topic 1 None false ∅ in
  generate_filename_from_url crm_topic = "sap_community_crm_and_cx_q_a" /\
  written_paths (log (snd run))
  = [(ACheckpoint, "scrapped_data/sap_community_crm_and_cx_q_a_checkpoint.json");
     (AAccepted, "scrapped_data/sap_community_technology_q_a_accepted.json");
     (ANoAccepted, "scrapped_data/sap_community_technology_q_a_no_accepted.json");
     (AExcel, "scrapped_data/sap_community_technology_q_a.xlsx");
     (ACheckpoint, "scrapped_data/sap_community_technology_q_a_checkpoint.json")] /\
  disk (snd run) !! accepted_json_file (generate_filename_from_url crm_topic) = None /\
  base_filename (snd run) = "sap_community_technology_q_a".
Proof. vm_compute. repeat split; reflexivity. Qed.

(** the checkpoint written before a page is fetched makes a resumed run
    start at the page after it *)
Lemma checkpoint_then_resume (w : World) (topic_url : string) (page_num : Z) (u : string)
    (st : State) :
  mkdir w SCRAPPED_DATA_DIR = Ok tt ->
  writable w (checkpoint_file (generate_filename_from_url topic_url)) = true ->
  let st' := snd (save_progress_checkpoint w (generate_filename_from_url topic_url)
                    page_num u st) in
  start_page_of topic_url true (disk st') = page_num + 1.
Proof.
  intros Hmk Hw st'. subst st'.
  unfold save_progress_checkpoint, try_catch, write_file, emit, set_disk, gets, modify,
    raise, lift, mbind, M_bind.
  rewrite Hmk, Hw. simpl.
  unfold start_page_of, load_progress_checkpoint. rewrite lookup_insert_eq. reflexivity.
Qed.

(** C2. Topic [crm_topic], started afresh; the run is cut short while
    page 1 is being read.  The checkpoint on the disk names page 1,
    nothing has been collected, and the resumed run starts at page 2:
    page 1 is never read again. *)
Theorem resume_skips_interrupted_page :
  let run := scrape_sap_community sample_urljoin world_broken_page crm_topic 3 None true ∅ in
  let resumed :=
    scrape_sap_community sample_urljoin world_broken_page crm_topic 3 None true
      (disk (snd run)) in
  fst run = Raise OtherError /\
  accepted_results (snd run) = [] /\
  no_accepted_results (snd run) = [] /\
  disk (snd run) !! checkpoint_file (generate_filename_from_url crm_topic)
  = Some (CheckpointJson (Some 1)
            (Some "https://community.sap.com/t5/crm-and-cx-q-a/qa-p/crm-questions?page=1")) /\
  start_page_of crm_topic true (disk (snd run)) = 2 /\
  map step_of (log (snd resumed))
  = [SCheckpoint (Some 2); SGotoList 2; SGotoThread 2; SAppend 2;
     SWriteResults; SWriteResults; SFlushed; SWriteExcel; SCheckpoint (Some 2);
     SCheckpoint (Some 3); SGotoList 3; SGotoThread 3; SAppend 3;
     SWriteResults; SWriteResults; SFlushed; SWriteExcel; SCheckpoint (Some 3)].
Proof. vm_compute. repeat split; reflexivity. Qed.

(** C7. Topic [crm_topic] with [max_questions = 1], one thread on every
    list page, and a spreadsheet that cannot be written.  The one thread
    of page 1 is processed and appended; the flush raises, the quota
    check after it is skipped, and the run goes on to save the checkpoint
    of page 2 and to fetch list page 2 before it stops. *)
Theorem quota_reached_run_goes_on :
  let run := scrape_sap_community sample_urljoin world_locked_sheet crm_topic 5 (Some 1)
               false ∅ in
  is_ok (fst run) = true /\
  length (accepted_results (snd run)) = 0%nat /\
  length (no_accepted_results (snd run)) = 1%nat /\
  visited_count (snd run) = 1 /\
  map step_of (log (snd run))
  = [SCheckpoint (Some 1); SGotoList 1; SGotoThread 1; SAppend 1;
     SWriteResults; SWriteResults; SFlushed; SWriteExcel;
     SCheckpoint (Some 2); SGotoList 2] /\
  disk (snd run) !! checkpoint_file (generate_filename_from_url crm_topic)
  = Some (CheckpointJson (Some 2) (Some (list_url crm_topic 2))).
Proof. vm_compute. repeat split; reflexivity. Qed.

(** C9, as stated, fails: the link query of a list page is in no [try];
    when it raises, the run ends with the exception and returns nothing. *)
Lemma link_query_exception_ends_run :
  launch world_broken_page = Ok tt /\
  close world_broken_page = Ok tt /\
  fst (scrape_sap_community sample_urljoin world_broken_page crm_topic 3 None false ∅)
  = Raise OtherError.
Proof. vm_compute. repeat split; reflexivity. Qed.

(** ** Instances *)



(** a run whose second list page has no thread link *)
Lemma end_of_pagination_witness :
  exists before after : list Event,
    log (snd (scrape_sap_community sample_urljoin world_two_pages crm_topic 5 None false ∅))
    = before ++ after /\
    Forall (fun ev => forall q, event_page ev = Some q -> q < 2) before /\
    Forall (fun ev => thread_event ev = false /\
                      forall q, event_page ev = Some q -> q = 2) after.
Proof.
  apply (end_of_pagination sample_urljoin world_two_pages crm_topic 5 None false ∅ 2).
  - vm_compute. discriminate.
  - intros st. reflexivity.
  - vm_compute. reflexivity.
Defined.

(** a run in which every first attempt at a list page times out, one
    thread cannot be reached and the other cannot be parsed *)
Lemma guarded_run_returns_witness :
  fst (scrape_sap_community sample_urljoin world_failing_threads crm_topic 2 None false ∅)
  = Ok ([], []).
Proof.
  destruct (guarded_run_returns sample_urljoin world_failing_threads crm_topic 2 None
              false ∅) as (_ & _ & H).
  rewrite H.
  - vm_compute. reflexivity.
  - reflexivity.
  - reflexivity.
  - reflexivity.
  - intros pause. reflexivity.
  - intros page_num. vm_compute. reflexivity.
Defined.

(** three images, the second answered with status 404 *)
Lemma failed_image_omitted_witness :
  download_failed (image_with_status 404) /\
  extract_images_from_element sample_urljoin
    (Ok ([image_with_status 200] ++ image_with_status 404 :: [image_with_status 200]))
    "https://community.sap.com/thread" "images"
  = images_from sample_urljoin "https://community.sap.com/thread" "images" 0
      [image_with_status 200]
    ++ images_from sample_urljoin "https://community.sap.com/thread" "images" 2
         [image_with_status 200].
Proof.
  assert (download_failed (image_with_status 404)) as Hbad.
  { right. left. exists 404. split; [reflexivity | lia]. }
  split; [exact Hbad|].
  apply (failed_image_omitted sample_urljoin "https://community.sap.com/thread" "images"
           [image_with_status 200] [image_with_status 200] (image_with_status 404) Hbad).
Defined.

(** * Properties of the helpers and of the run *)

(** ** File names *)

Lemma all_chars_app (p : ascii -> bool) (a b : string) :
  Py.all_chars p (a +:+ b) = Py.all_chars p a && Py.all_chars p b.
Proof.
  induction a as [|c a IH]; [reflexivity|].
  rewrite append_cons. simpl. rewrite IH. apply andb_assoc.
Qed.

Lemma sub_unsafe_chars (s : string) :
  Py.all_chars (fun c => negb (Py.unsafe_filename_char c)) (Py.sub_unsafe s) = true.
Proof.
  induction s as [|c s IH]; [reflexivity|]. simpl. rewrite IH, andb_true_r.
  destruct (Py.unsafe_filename_char c) eqn:E; [reflexivity | by rewrite E].
Qed.







Lemma all_chars_weaken (p q : ascii -> bool) (s : string) :
  (forall c, p c = true -> q c = true) ->
  Py.all_chars p s = true -> Py.all_chars q s = true.
Proof.
  intros H. induction s as [|c s IH]; [reflexivity|]. simpl.
  intros [Hc Hs]%andb_true_iff. rewrite (H c Hc). auto.
Qed.




(** ** [_safe_name] *)

Lemma sub_undiagnostic_chars (u : string) :
  Py.all_chars diagnostic_char (sub_undiagnostic u) = true.
Proof.
  induction u as [|c u IH]; [reflexivity|]. simpl. rewrite IH, andb_true_r.
  destruct (diagnostic_char c) eqn:E; [exact E | reflexivity].
Qed.

Lemma sub_undiagnostic_fixed (u : string) :
  Py.all_chars diagnostic_char u = true -> sub_undiagnostic u = u.
Proof.
  induction u as [|c u IH]; [reflexivity|]. simpl. intros [Hc Hu]%andb_true_iff.
  rewrite Hc, IH by assumption. reflexivity.
Qed.

Lemma diagnostic_no_scheme (u : string) :
  Py.all_chars diagnostic_char u = true -> Py.startswith u URL_SCHEME = false.
Proof.
  intros H. destruct (Py.startswith u URL_SCHEME) eqn:E; [|reflexivity].
  apply prefix_spec in E as [post ->]. rewrite all_chars_app in H.
  apply andb_true_iff in H as [H _]. discriminate.
Qed.

Lemma length_sub_undiagnostic (u : string) :
  String.length (sub_undiagnostic u) = String.length u.
Proof. induction u as [|c u IH]; simpl; congruence. Qed.

Lemma length_drop_chars (n : nat) (u : string) :
  (String.length (drop_chars n u) <= String.length u)%nat.
Proof.
  revert u. induction n as [|n IH]; intros [|c u]; simpl; try lia.
  specialize (IH u). lia.
Qed.

(** X3. The name made for a diagnostic snapshot holds letters, digits,
    underscores, dots and dashes only, is never longer than the URL it
    comes from, and naming a name again changes nothing. *)
Theorem safe_name_is_safe (u : string) :
  Py.all_chars diagnostic_char (_safe_name u) = true /\
  (String.length (_safe_name u) <= String.length u)%nat /\
  _safe_name (_safe_name u) = _safe_name u.
Proof.
  assert (Py.all_chars diagnostic_char (_safe_name u) = true) as H
    by apply sub_undiagnostic_chars.
  split; [exact H|]. split.
  - unfold _safe_name. rewrite length_sub_undiagnostic.
    destruct (Py.startswith u URL_SCHEME); [apply length_drop_chars | lia].
  - unfold _safe_name at 1. rewrite (diagnostic_no_scheme _ H).
    apply sub_undiagnostic_fixed, H.
Qed.

(** ** The checkpoint store *)

Lemma append_inj_r (a b s : string) : a +:+ s = b +:+ s -> a = b.
Proof.
  intros H. apply (f_equal list_ascii_of_string) in H.
  rewrite !list_ascii_app in H. apply app_inv_tail in H.
  rewrite <- (string_of_list_ascii_of_string a), <- (string_of_list_ascii_of_string b).
  by rewrite H.
Qed.

Lemma data_path_injective (x y : string) :
  Py.path_join SCRAPPED_DATA_DIR x = Py.path_join SCRAPPED_DATA_DIR y -> x = y.
Proof.
  unfold Py.path_join.
  destruct (Py.startswith x "/") eqn:Ex, (Py.startswith y "/") eqn:Ey; simpl.
  - auto.
  - apply prefix_spec in Ex as [post ->]. discriminate.
  - apply prefix_spec in Ey as [post ->]. discriminate.
  - apply (append_inj_l "scrapped_data/").
Qed.

Lemma checkpoint_file_injective (base base' : string) :
  checkpoint_file base = checkpoint_file base' -> base = base'.
Proof. intros H%data_path_injective. by apply append_inj_r in H. Qed.

Section CheckpointStore.

Variable w : World.

Lemma save_progress_checkpoint_effect base current_page current_url st :
  mkdir w SCRAPPED_DATA_DIR = Ok tt ->
  let r := save_progress_checkpoint w base current_page current_url st in
  fst r = Ok tt /\
  log (snd r) = log st ++ [EvWrite ACheckpoint (checkpoint_file base)
                             (CheckpointJson (Some current_page) (Some current_url))] /\
  disk (snd r) = if writable w (checkpoint_file base)
                 then <[checkpoint_file base :=
                          CheckpointJson (Some current_page) (Some current_url)]> (disk st)
                 else disk st.
Proof.
  intros Hmk. unfold save_progress_checkpoint, try_catch, write_file, emit, set_disk, gets,
    modify, raise, lift, mbind, M_bind. rewrite Hmk.
  destruct (writable w (checkpoint_file base)); simpl; auto.
Qed.

(** X4. A checkpoint that can be written is read back as it was saved,
    and saving it leaves the checkpoints of the other names as they are. *)
Theorem checkpoint_round_trip base current_page current_url st :
  mkdir w SCRAPPED_DATA_DIR = Ok tt ->
  writable w (checkpoint_file base) = true ->
  let r := save_progress_checkpoint w base current_page current_url st in
  fst r = Ok tt /\
  load_progress_checkpoint (disk (snd r)) base = (current_page, current_url) /\
  forall base', base' <> base ->
    load_progress_checkpoint (disk (snd r)) base'
    = load_progress_checkpoint (disk st) base'.
Proof.
  intros Hmk Hw r.
  destruct (save_progress_checkpoint_effect base current_page current_url st Hmk)
    as (Hr & _ & Hd).
  fold r in Hr, Hd. rewrite Hw in Hd. split; [exact Hr|]. rewrite Hd.
  unfold load_progress_checkpoint. split.
  - rewrite lookup_insert_eq. reflexivity.
  - intros base' Hne. rewrite lookup_insert_ne; [reflexivity|].
    intros H%checkpoint_file_injective. congruence.
Qed.

(** X5. A checkpoint that cannot be written is given up without an
    exception: the call returns and the disk, with the checkpoint saved
    before, is as it was. *)
Theorem checkpoint_write_failure_is_swallowed base current_page current_url st :
  mkdir w SCRAPPED_DATA_DIR = Ok tt ->
  writable w (checkpoint_file base) = false ->
  let r := save_progress_checkpoint w base current_page current_url st in
  fst r = Ok tt /\ disk (snd r) = disk st.
Proof.
  intros Hmk Hw r.
  destruct (save_progress_checkpoint_effect base current_page current_url st Hmk)
    as (Hr & _ & Hd).
  fold r in Hr, Hd. rewrite Hw in Hd. auto.
Qed.

End CheckpointStore.

(** ** [reset_progress] *)

Lemma remove_files_lookup (removable : string -> bool) (files : list string)
    (d : gmap string FileContent) (n : Z) (f : string) :
  fst (remove_files removable files d n) !! f
  = if bool_decide (f ∈ files) && removable f then None else d !! f.
Proof.
  revert d n. induction files as [|file_path rest IH]; intros d n; simpl; [reflexivity|].
  destruct (decide (f = file_path)) as [->|Hne].
  - rewrite bool_decide_eq_true_2 by left. simpl.
    destruct (d !! file_path) eqn:E; [destruct (removable file_path) eqn:R|]; rewrite IH.
    + rewrite ?R, ?andb_true_r, lookup_delete_eq. by destruct (bool_decide _).
    + rewrite ?R, ?andb_false_r. exact E.
    + rewrite E. by destruct (_ && _), (removable file_path).
  - assert (bool_decide (f ∈ file_path :: rest) = bool_decide (f ∈ rest)) as ->.
    { apply bool_decide_ext. rewrite elem_of_cons. tauto. }
    destruct (d !! file_path) eqn:E; [destruct (removable file_path) eqn:R|]; rewrite IH;
      [|reflexivity|reflexivity].
    rewrite lookup_delete_ne by congruence. reflexivity.
Qed.

Lemma remove_files_count (removable : string -> bool) (files : list string)
    (d : gmap string FileContent) (n : Z) :
  NoDup files ->
  snd (remove_files removable files d n)
  = n + Z.of_nat (length (List.filter
                            (fun f => bool_decide (is_Some (d !! f)) && removable f) files)).
Proof.
  intros Hnd. revert d n. induction Hnd as [|file_path rest Hnot Hnd IH]; intros d n; simpl.
  - lia.
  - assert (forall d' : gmap string FileContent,
              (forall f, f ∈ rest -> d' !! f = d !! f) ->
              List.filter (fun f => bool_decide (is_Some (d' !! f)) && removable f) rest
              = List.filter (fun f => bool_decide (is_Some (d !! f)) && removable f) rest)
      as Hsame.
    { intros d' Hd'. apply filter_ext_in. intros f Hf%list_elem_of_In.
      by rewrite Hd'. }
    destruct (d !! file_path) eqn:E.
    + rewrite bool_decide_eq_true_2 by eauto. simpl.
      destruct (removable file_path).
      * rewrite IH, Hsame; [simpl; lia|].
        intros g Hg. apply lookup_delete_ne. intros ->. contradiction.
      * rewrite IH. reflexivity.
    + rewrite bool_decide_eq_false_2 by (intros [? ?]; congruence). simpl. apply IH.
Qed.

Lemma files_to_remove_NoDup (base : string) : NoDup (files_to_remove base).
Proof.
  unfold files_to_remove, accepted_json_file, no_accepted_json_file, checkpoint_file,
    excel_filename.
  repeat constructor; rewrite ?elem_of_cons, ?elem_of_nil;
    intros H; repeat destruct H as [H|H]; try exact H;
    apply data_path_injective, append_inj_l in H; discriminate.
Qed.

(** X6. After the reset, each of the four files of the name is gone if it
    could be removed and is as before if the removal failed; every other
    file is untouched, and the count returned is the number of files
    that were there and were removed. *)
Theorem reset_progress_effect (removable : string -> bool) (base : string)
    (d : gmap string FileContent) :
  (forall f,
     fst (reset_progress removable base d) !! f
     = if bool_decide (f ∈ files_to_remove base) && removable f then None else d !! f) /\
  snd (reset_progress removable base d)
  = Z.of_nat (length (List.filter
                        (fun f => bool_decide (is_Some (d !! f)) && removable f)
                        (files_to_remove base))).
Proof.
  unfold reset_progress. split.
  - intros f. apply remove_files_lookup.
  - rewrite remove_files_count by apply files_to_remove_NoDup. lia.
Qed.

Section Resume.

Variable urljoin : string -> string -> string.
Variable w : World.
Variable topic_url : string.
Variable max_pages : Z.
Variable max_questions : option Z.

Lemma start_page_without_checkpoint (d : gmap string FileContent) :
  (forall p last_url,
     d !! checkpoint_file (generate_filename_from_url topic_url)
     <> Some (CheckpointJson (Some p) last_url)) ->
  start_page_of topic_url true d = 1.
Proof.
  intros H. unfold start_page_of, load_progress_checkpoint.
  destruct (d !! checkpoint_file _) as [[[p|] last_url| | |]|] eqn:E; try reflexivity.
  exfalso. by apply (H p last_url).
Qed.

(** X7. When the file of the checkpoint is missing, is no checkpoint or
    lacks the page, a resumed run is the run started afresh: it begins
    at page 1. *)
Theorem resume_without_checkpoint (d : gmap string FileContent) :
  (forall p last_url,
     d !! checkpoint_file (generate_filename_from_url topic_url)
     <> Some (CheckpointJson (Some p) last_url)) ->
  start_page_of topic_url true d = 1 /\
  scrape_sap_community urljoin w topic_url max_pages max_questions true d
  = scrape_sap_community urljoin w topic_url max_pages max_questions false d.
Proof.
  intros H. pose proof (start_page_without_checkpoint d H) as Hs.
  split; [exact Hs|]. unfold scrape_sap_community. rewrite Hs. reflexivity.
Qed.

(** X8. After a reset that could remove the checkpoint, a resumed run
    starts at page 1 whatever the checkpoint held. *)
Theorem reset_then_resume (removable : string -> bool) (d : gmap string FileContent) :
  removable (checkpoint_file (generate_filename_from_url topic_url)) = true ->
  let d' := fst (reset_progress removable (generate_filename_from_url topic_url) d) in
  start_page_of topic_url true d' = 1 /\
  scrape_sap_community urljoin w topic_url max_pages max_questions true d'
  = scrape_sap_community urljoin w topic_url max_pages max_questions false d'.
Proof.
  intros Hr d'.
  assert (start_page_of topic_url true d' = 1) as Hs.
  { apply start_page_without_checkpoint. intros p last_url.
    subst d'. unfold reset_progress. rewrite remove_files_lookup.
    rewrite Hr, bool_decide_eq_true_2; [discriminate|].
    unfold files_to_remove. rewrite !elem_of_cons. auto. }
  split; [exact Hs|]. unfold scrape_sap_community. rewrite Hs. reflexivity.
Qed.

End Resume.

(** ** Induction over the run *)

Lemma respects_bind_lift {A B} (R : State -> State -> Prop) `{!PreOrder R}
    (o : outcome A) (f : A -> M B) :
  (forall a, o = Ok a -> respects R (f a)) -> respects R (lift o ≫= f).
Proof.
  intros H st. rewrite bind_lift. destruct o as [a|e]; [by apply H | reflexivity].
Qed.

Lemma respects_gets_bind_bind {A B C} (R : State -> State -> Prop) `{!PreOrder R}
    (g : State -> A) (m : A -> M B) (k : B -> M C) :
  respects R (gets g ≫= m) -> (forall b, respects R (k b)) ->
  respects R (gets g ≫= fun a => m a ≫= k).
Proof.
  intros Hm Hk st. pose proof (respects_bind R (gets g ≫= m) k Hm Hk st) as H.
  unfold mbind, M_bind, gets in *. simpl in *. exact H.
Qed.

(** The checkpoint and the flush respect a relation that their writes and
    the flush event respect. *)
Section RunWrites.

Variable w : World.
Variable R : State -> State -> Prop.
Context `{!PreOrder R}.

Hypothesis R_flushed : forall d b, respects R (emit (EvFlushed d b)).
Hypothesis R_write : forall a path content, respects R (write_file w a path content).

Lemma run_checkpoint page_num u :
  respects R (gets base_filename ≫= fun base => save_progress_checkpoint w base page_num u).
Proof.
  unfold save_progress_checkpoint. repeat first [ solve [eauto] | respects_step ].
Qed.

Lemma run_flush accepted no_accepted :
  respects R (_save_results_incrementally w accepted no_accepted).
Proof.
  unfold _save_results_incrementally, flushed. repeat first [ solve [eauto] | respects_step ].
Qed.

End RunWrites.

(** A relation between the states of a run that every elementary step
    respects is respected by the whole crawl.  [Q page_num q_url] is what
    the append of an entry may rely on: the entry is that of the thread
    at [q_url], visited from list page [page_num]. *)
Section RunInduction.

Variable urljoin : string -> string -> string.
Variable w : World.
Variable topic_url : string.
Variable max_pages : Z.
Variable max_questions : option Z.

Variable R : State -> State -> Prop.
Context `{!PreOrder R}.
Variable Q : Z -> string -> Prop.

Hypothesis R_goto_list : forall page_num u attempt,
  respects R (emit (EvGotoList page_num u attempt)).
Hypothesis R_goto_thread : forall page_num q_url attempt,
  Q page_num q_url -> respects R (emit (EvGotoThread page_num q_url attempt)).
Hypothesis R_checkpoint : forall page_num u,
  respects R (gets base_filename ≫= fun base => save_progress_checkpoint w base page_num u).
Hypothesis R_flush : forall accepted no_accepted,
  respects R (_save_results_incrementally w accepted no_accepted).
Hypothesis R_base : forall page_num q_url,
  Q page_num q_url -> respects R (set_base_filename (generate_filename_from_url q_url)).
Hypothesis R_stop : respects R set_stop_all.
Hypothesis R_append : forall page_num q_url system title question_body question_images tags,
  Q page_num q_url ->
  let responses := extract_all_responses urljoin (thread_page w page_num q_url) in
  respects R
    (append_result page_num (negb (is_nil (List.filter is_accepted responses)))
       (result_entry page_num system title question_body question_images tags q_url
          responses)).

Ltac run_tac :=
  repeat first [ solve [eauto] | respects_step ].

Lemma run_goto_list page_num u attempt remaining :
  respects R (goto_list_attempts w page_num u attempt remaining).
Proof.
  revert attempt. induction remaining as [|k IH]; intros attempt; simpl;
    unfold wait_unless_last; run_tac.
Qed.

Lemma run_goto_thread page_num q_url attempt remaining :
  Q page_num q_url ->
  respects R (goto_thread_attempts w page_num q_url attempt remaining).
Proof.
  intros HQ. revert attempt. induction remaining as [|k IH]; intros attempt; simpl; run_tac.
Qed.

Lemma run_visit_thread page_num q_url :
  Q page_num (thread_url q_url) ->
  respects R (visit_thread urljoin w max_questions page_num q_url).
Proof.
  intros HQ. unfold visit_thread, process_thread, persist_and_check, extract_question.
  fold (thread_url q_url).
  pose proof (R_append page_num (thread_url q_url)) as Ha. cbv zeta in Ha.
  repeat first [ apply R_stop | apply (R_base _ _ HQ) | apply R_flush | apply (Ha _ _ _ _ _ HQ)
               | apply (run_goto_thread _ _ _ _ HQ)
               | lazymatch goal with
                 | |- respects _ (gets base_filename ≫=
                                    fun b => save_progress_checkpoint _ _ _ _ ≫= _) =>
                     apply respects_gets_bind_bind; [exact _|apply R_checkpoint|intros ?]
                 end
               | respects_step ].
Qed.

Lemma run_visit_threads page_num q_urls :
  (forall u, In u q_urls -> Q page_num (thread_url u)) ->
  respects R (visit_threads urljoin w max_questions page_num q_urls).
Proof.
  induction q_urls as [|q_url rest IH]; intros HQ; simpl.
  - apply respects_ret; exact _.
  - apply respects_bind; try exact _.
    + apply run_visit_thread, HQ. by left.
    + intros [|]; [|apply respects_ret; exact _]. apply IH. intros u Hu. apply HQ. by right.
Qed.

Lemma run_scrape_list_page page_num :
  (forall hrefs u,
     discover_links (list_page w page_num) = Ok hrefs ->
     In u (valid_thread_links hrefs) -> Q page_num (thread_url u)) ->
  respects R (scrape_list_page urljoin w topic_url max_questions page_num).
Proof.
  intros HQ. unfold scrape_list_page. cbv zeta.
  apply respects_gets_bind_bind; [exact _|apply R_checkpoint|]. intros _.
  apply respects_bind; try exact _; [apply respects_lift; exact _|]. intros _.
  apply respects_bind; try exact _; [apply run_goto_list|]. intros success.
  destruct (negb success); [apply respects_ret; exact _|].
  apply respects_bind; try exact _; [apply respects_lift; exact _|]. intros _.
  apply respects_bind_lift; try exact _. intros hrefs Hh.
  destruct (is_nil _); [apply respects_ret; exact _|].
  apply respects_bind; try exact _; [apply run_visit_threads; eauto|]. intros _.
  run_tac.
Qed.

Lemma run_crawl_pages pages :
  (forall page_num hrefs u,
     In page_num pages ->
     discover_links (list_page w page_num) = Ok hrefs ->
     In u (valid_thread_links hrefs) -> Q page_num (thread_url u)) ->
  respects R (crawl_pages urljoin w topic_url max_questions pages).
Proof.
  induction pages as [|page_num rest IH]; intros HQ; simpl.
  - apply respects_ret; exact _.
  - apply respects_bind; try exact _.
    + apply run_scrape_list_page. intros hrefs u. apply HQ. by left.
    + intros [|]; [|apply respects_ret; exact _].
      apply IH. intros p hrefs u Hp. apply HQ. by right.
Qed.

Lemma run_scrape_body start_page :
  (forall page_num hrefs u,
     start_page <= page_num <= max_pages ->
     discover_links (list_page w page_num) = Ok hrefs ->
     In u (valid_thread_links hrefs) -> Q page_num (thread_url u)) ->
  respects R (scrape_body urljoin w topic_url max_pages max_questions start_page).
Proof.
  intros HQ. unfold scrape_body.
  assert (respects R (crawl_pages urljoin w topic_url max_questions
                        (page_range max_pages start_page))) as Hc.
  { apply run_crawl_pages. intros p hrefs u Hp. apply HQ.
    apply list_elem_of_In, elem_of_seqZ in Hp. lia. }
  run_tac.
Qed.

End RunInduction.

(** ** What a run touches *)

#[global] Instance wrote_only_preorder : PreOrder wrote_only.
Proof.
  split.
  - intros s. exists []. rewrite app_nil_r. auto.
  - intros s1 s2 s3 (e1 & L1 & F1 & K1) (e2 & L2 & F2 & K2). exists (e1 ++ e2)%list.
    rewrite L2, L1, app_assoc. split; [reflexivity|]. split.
    + intros path Hno. rewrite F2, F1; [reflexivity| |];
        intros a content Hin; apply (Hno a content), in_or_app; auto.
    + intros path Hs. auto.
Qed.

#[global] Instance grown_preorder : PreOrder grown.
Proof.
  split.
  - intros s. repeat split; reflexivity.
  - intros s1 s2 s3 (a1 & b1 & c1) (a2 & b2 & c2).
    repeat split; [by etransitivity | by etransitivity | lia].
Qed.

Lemma wrote_only_same_disk (s s' : State) (evs : list Event) :
  disk s' = disk s -> log s' = (log s ++ evs)%list -> wrote_only s s'.
Proof. intros Hd Hl. exists evs. rewrite Hd. auto. Qed.

Lemma wrote_only_emit (ev : Event) : respects wrote_only (emit ev).
Proof. intros st. by apply (wrote_only_same_disk _ _ [ev]). Qed.

Lemma wrote_only_write (w : World) a path content :
  respects wrote_only (write_file w a path content).
Proof.
  intros st. unfold write_file, emit, set_disk, gets, modify, raise, mbind, M_bind.
  destruct (writable w path); simpl.
  - exists [EvWrite a path content]. simpl. split; [reflexivity|]. split.
    + intros path' Hno. apply lookup_insert_ne. intros ->. apply (Hno a content). by left.
    + intros path' Hs. destruct (decide (path = path')) as [->|Hne].
      * rewrite lookup_insert_eq. eauto.
      * by rewrite lookup_insert_ne.
  - by apply (wrote_only_same_disk _ _ [EvWrite a path content]).
Qed.

Lemma wrote_only_append page_num accepted r :
  respects wrote_only (append_result page_num accepted r).
Proof. intros st. by apply (wrote_only_same_disk _ _ [EvAppend page_num accepted r]). Qed.

Lemma wrote_only_base b : respects wrote_only (set_base_filename b).
Proof. intros st. apply (wrote_only_same_disk _ _ []); simpl; by rewrite ?app_nil_r. Qed.

Lemma wrote_only_stop : respects wrote_only set_stop_all.
Proof. intros st. apply (wrote_only_same_disk _ _ []); simpl; by rewrite ?app_nil_r. Qed.

Lemma grown_same (s s' : State) :
  accepted_results s' = accepted_results s ->
  no_accepted_results s' = no_accepted_results s ->
  visited_count s' = visited_count s -> grown s s'.
Proof.
  intros Ha Hb Hc. unfold grown. rewrite Ha, Hb, Hc. repeat split; reflexivity.
Qed.

Lemma grown_emit (ev : Event) : respects grown (emit ev).
Proof. intros st. by apply grown_same. Qed.

Lemma grown_write (w : World) a path content : respects grown (write_file w a path content).
Proof.
  intros st. unfold write_file, emit, set_disk, gets, modify, raise, mbind, M_bind.
  destruct (writable w path); by apply grown_same.
Qed.

Lemma grown_append page_num accepted r : respects grown (append_result page_num accepted r).
Proof.
  intros st. unfold grown. simpl. destruct accepted;
    repeat split; try reflexivity; try lia; by apply prefix_app_r.
Qed.

Lemma grown_base b : respects grown (set_base_filename b).
Proof. intros st. by apply grown_same. Qed.

Lemma grown_stop : respects grown set_stop_all.
Proof. intros st. by apply grown_same. Qed.

Section RunEffects.

Variable urljoin : string -> string -> string.
Variable w : World.
Variable topic_url : string.
Variable max_pages : Z.
Variable max_questions : option Z.
Variable resume : bool.

(** X9. Whatever the site answers, every list page a run loads, every
    thread it opens and every entry it appends belongs to a page between
    the page the run starts at and [max_pages]. *)
Theorem run_stays_in_page_range (d : gmap string FileContent) :
  let run := scrape_sap_community urljoin w topic_url max_pages max_questions resume d in
  Forall (fun ev => forall page_num,
            event_page ev = Some page_num ->
            start_page_of topic_url resume d <= page_num <= max_pages)
         (log (snd run)).
Proof.
  cbv zeta. unfold scrape_sap_community. apply log_of_run; [|reflexivity].
  apply emits_scrape_body.
  - intros a path content q Hq. discriminate.
  - intros d' b q Hq. discriminate.
  - intros ev q Hq Hr q' Hq'. congruence.
Qed.

(** X10. When the page to start at lies beyond [max_pages], as after a
    checkpoint on the last page, the run loads nothing and writes nothing:
    it ends in the state it started in, and with the browser starting and
    closing it returns two empty lists. *)
Theorem run_beyond_last_page (d : gmap string FileContent) :
  max_pages < start_page_of topic_url resume d ->
  let run := scrape_sap_community urljoin w topic_url max_pages max_questions resume d in
  snd run = initial_state topic_url d /\
  log (snd run) = [] /\
  disk (snd run) = d /\
  (launch w = Ok tt -> close w = Ok tt -> fst run = Ok ([], [])).
Proof.
  intros Hlt. cbv zeta. unfold scrape_sap_community, scrape_body, page_range.
  rewrite seqZ_nil by lia. simpl.
  unfold lift, gets, mbind, M_bind. simpl.
  destruct (launch w) as [[]|e]; simpl.
  - destruct (close w) as [[]|e]; simpl; repeat split; intros; congruence.
  - repeat split; intros; congruence.
Qed.

(** X12. A run only writes, and only where its log says: a file no write
    of the run names is at the end as it was on the disk the run started
    on, and every file that was there is still there. *)
Theorem run_only_writes (d : gmap string FileContent) (path : string) :
  let run := scrape_sap_community urljoin w topic_url max_pages max_questions resume d in
  ((forall a content, ~ In (EvWrite a path content) (log (snd run))) ->
   disk (snd run) !! path = d !! path) /\
  (is_Some (d !! path) -> is_Some (disk (snd run) !! path)).
Proof.
  cbv zeta.
  assert (respects wrote_only
            (scrape_body urljoin w topic_url max_pages max_questions
               (start_page_of topic_url resume d))) as H.
  { apply (run_scrape_body _ _ _ _ _ _ (fun _ _ => True)); try exact _; auto;
      intros; first [ apply wrote_only_emit | apply wrote_only_base | apply wrote_only_stop
                    | apply wrote_only_append
                    | apply run_checkpoint | apply run_flush ];
      try exact _; intros; first [ apply wrote_only_emit | apply wrote_only_write ]. }
  destruct (H (initial_state topic_url d)) as (evs & Hl & Hf & Hk).
  unfold scrape_sap_community. rewrite Hl. simpl in *. split.
  - apply Hf.
  - apply Hk.
Qed.

(** X13. The collections of a crawl only grow: from any state, after the
    crawl of any pages the two collections start with what they held, and
    the counter of visited threads has not gone down. *)
Theorem crawl_only_appends (pages : list Z) (st : State) :
  let st' := snd (crawl_pages urljoin w topic_url max_questions pages st) in
  accepted_results st `prefix_of` accepted_results st' /\
  no_accepted_results st `prefix_of` no_accepted_results st' /\
  visited_count st <= visited_count st'.
Proof.
  apply (run_crawl_pages _ _ _ _ grown (fun _ _ => True)); try exact _; auto;
    intros; first [ apply grown_emit | apply grown_base | apply grown_stop
                  | apply grown_append | apply run_checkpoint | apply run_flush ];
    try exact _; intros; first [ apply grown_emit | apply grown_write ].
Qed.

End RunEffects.

(** X11. With a quota of [n] threads, the two collections of a run hold
    together at most [n] entries (none for a negative [n]), whatever
    fails on the way, and the counter of visited threads counts them. *)
Theorem quota_bounds_collections (urljoin : string -> string -> string) (w : World)
    (topic_url : string) (max_pages n : Z) (resume : bool) (d : gmap string FileContent) :
  let st := snd (scrape_sap_community urljoin w topic_url max_pages (Some n) resume d) in
  Z.of_nat (length (accepted_results st) + length (no_accepted_results st)) <= Z.max 0 n /\
  visited_count st
  = Z.of_nat (length (accepted_results st) + length (no_accepted_results st)).
Proof.
  destruct (quota_never_exceeded urljoin w topic_url max_pages (Some n) resume d) as [E H].
  simpl. split; [rewrite <- E; exact H | exact E].
Qed.

(** ** Where the entries and the files of a run come from *)

Lemma valid_thread_links_elem (hrefs : list string) (u : string) :
  In u (valid_thread_links hrefs) ->
  exists href, In href hrefs /\ u = normalize_href href /\ keeps_link u = true.
Proof.
  unfold valid_thread_links. rewrite dedupe_links_spec, filter_links_spec. simpl.
  rewrite filter_In, first_seen_elem, filter_In, in_map_iff.
  intros [[(href & <- & Hin) Hk] _]. eauto.
Qed.

Lemma normalize_href_absolute (href : string) :
  Py.startswith (normalize_href href) "http" = true.
Proof.
  unfold normalize_href. destruct (Py.startswith href "http") eqn:E; [exact E|].
  unfold Py.startswith, SITE_ROOT. apply prefix_spec. eexists. rewrite ?append_cons. reflexivity.
Qed.

Lemma thread_url_kept (hrefs : list string) (u : string) :
  In u (valid_thread_links hrefs) -> thread_url u = u.
Proof.
  intros (href & _ & -> & _)%valid_thread_links_elem. unfold thread_url.
  by rewrite normalize_href_absolute.
Qed.

Lemma forall_snoc {A} (P : A -> Prop) (l : list A) (x : A) :
  Forall P l -> P x -> Forall P (l ++ [x]).
Proof. intros Hl Hx. apply Forall_app. auto. Qed.

Section Provenance.

Variable urljoin : string -> string -> string.
Variable w : World.
Variable topic_url : string.
Variable max_pages : Z.
Variable max_questions : option Z.
Variable lo : Z.

Lemma found_on_kept (page_num : Z) (hrefs : list string) (u : string) :
  lo <= page_num <= max_pages ->
  discover_links (list_page w page_num) = Ok hrefs ->
  In u (valid_thread_links hrefs) ->
  found_on w lo max_pages page_num (thread_url u).
Proof.
  intros Hp Hd Hin. rewrite (thread_url_kept hrefs u Hin). split; [exact Hp|]. eauto.
Qed.

Lemma sound_results_same (st st' : State) :
  accepted_results st' = accepted_results st ->
  no_accepted_results st' = no_accepted_results st ->
  keeps (sound_results urljoin w lo max_pages) st st'.
Proof. unfold keeps, sound_results. intros -> ->. auto. Qed.

Lemma sound_results_write a path content :
  respects (keeps (sound_results urljoin w lo max_pages)) (write_file w a path content).
Proof.
  intros st. unfold write_file, emit, set_disk, gets, modify, raise, mbind, M_bind.
  destruct (writable w path); by apply sound_results_same.
Qed.

Lemma sound_results_body (start_page : Z) :
  lo <= start_page ->
  respects (keeps (sound_results urljoin w lo max_pages))
    (scrape_body urljoin w topic_url max_pages max_questions start_page).
Proof.
  intros Hlo.
  apply (run_scrape_body _ _ _ _ _ _ (found_on w lo max_pages)); try exact _.
  - intros. intros st. by apply sound_results_same.
  - intros. intros st. by apply sound_results_same.
  - intros. apply run_checkpoint; try exact _;
      first [ apply sound_results_write | intros d b st; by apply sound_results_same ].
  - intros. apply run_flush; try exact _;
      first [ apply sound_results_write | intros d b st; by apply sound_results_same ].
  - intros. intros st. by apply sound_results_same.
  - intros st. by apply sound_results_same.
  - intros page_num q_url sys ttl qb qi tgs HQ responses st [Ha Hn].
    assert (entry_sound urljoin w lo max_pages (existsb is_accepted responses)
              (result_entry page_num sys ttl qb qi tgs q_url responses)) as He.
    { unfold entry_sound, result_entry. simpl. fold responses.
      rewrite filter_is_accepted_nil.
      repeat split; try reflexivity; try apply HQ.
      destruct (existsb is_accepted responses); reflexivity. }
    rewrite filter_is_accepted_nil, negb_involutive.
    unfold sound_results, append_result, modify. simpl.
    destruct (existsb is_accepted responses); split; auto; by apply forall_snoc.
  - intros page_num hrefs u Hp Hd Hin. apply (found_on_kept page_num hrefs); auto. lia.
Qed.

Lemma named_files_checkpoint page_num u :
  respects (keeps (named_files w topic_url lo max_pages))
    (gets base_filename ≫= fun base => save_progress_checkpoint w base page_num u).
Proof.
  intros st [(v & Hv & Hb) Hl].
  unfold save_progress_checkpoint, write_file, try_catch, emit, set_disk, gets, modify,
    raise, lift, mbind, M_bind.
  destruct (mkdir w SCRAPPED_DATA_DIR) as [[]|e]; simpl; [|split; eauto].
  destruct (writable w _); simpl; (split; [eauto|]); apply forall_snoc; auto;
    simpl; exists v; rewrite Hb; auto.
Qed.

Lemma named_files_flush accepted no_accepted :
  respects (keeps (named_files w topic_url lo max_pages))
    (_save_results_incrementally w accepted no_accepted).
Proof.
  intros st [(v & Hv & Hb) Hl].
  assert (forall a content,
            named_write w topic_url lo max_pages
              (EvWrite a (artifact_path a (base_filename st)) content)) as Hw.
  { intros a content. simpl. exists v. rewrite Hb. auto. }
  unfold _save_results_incrementally, flushed, write_file, emit, set_disk, gets, modify,
    raise, lift, mbind, M_bind.
  destruct (mkdir w SCRAPPED_DATA_DIR) as [[]|e]; simpl; [|split; eauto].
  destruct (writable w (accepted_json_file _)); simpl;
    [destruct (writable w (no_accepted_json_file _)); simpl;
     [destruct (excel_rows_of accepted no_accepted) as [|row rows]; simpl;
      [|destruct (writable w (excel_filename _)); simpl]|]|];
    (split; [eauto|]); repeat apply forall_snoc; auto;
    first [ exact I | apply (Hw AAccepted) | apply (Hw ANoAccepted) | apply (Hw AExcel) ].
Qed.

Lemma named_files_event (ev : Event) :
  named_write w topic_url lo max_pages ev ->
  respects (keeps (named_files w topic_url lo max_pages)) (emit ev).
Proof. intros Hev st [Hb Hl]. split; [exact Hb|]. by apply forall_snoc. Qed.

Lemma named_files_body (start_page : Z) :
  lo <= start_page ->
  respects (keeps (named_files w topic_url lo max_pages))
    (scrape_body urljoin w topic_url max_pages max_questions start_page).
Proof.
  intros Hlo.
  apply (run_scrape_body _ _ _ _ _ _ (found_on w lo max_pages)); try exact _.
  - intros. by apply named_files_event.
  - intros. by apply named_files_event.
  - apply named_files_checkpoint.
  - apply named_files_flush.
  - intros page_num q_url HQ st [_ Hl]. split; [|exact Hl].
    exists q_url. split; [right; eauto | reflexivity].
  - intros st [Hb Hl]. split; assumption.
  - intros page_num q_url sys ttl qb qi tgs HQ responses st [Hb Hl]. split; [exact Hb|].
    by apply forall_snoc.
  - intros page_num hrefs u Hp Hd Hin. apply (found_on_kept page_num hrefs); auto. lia.
Qed.

End Provenance.

Lemma data_file_prefix (a : Artifact) (u : string) :
  Py.startswith (artifact_path a (generate_filename_from_url u)) data_prefix = true.
Proof.
  assert (exists rest, generate_filename_from_url u = "sap_community_" +:+ rest)
    as [rest ->].
  { unfold generate_filename_from_url. destruct (filter _ _); eauto. }
  unfold Py.startswith. apply prefix_spec.
  destruct a; eexists; unfold artifact_path, checkpoint_file, accepted_json_file,
    no_accepted_json_file, excel_filename, Py.path_join, SCRAPPED_DATA_DIR, data_prefix;
    rewrite ?append_cons; simpl; rewrite ?append_cons; reflexivity.
Qed.

Section RunProvenance.

Variable urljoin : string -> string -> string.
Variable w : World.
Variable topic_url : string.
Variable max_pages : Z.
Variable max_questions : option Z.
Variable resume : bool.

(** X14. Every entry a run ends with was built for a thread link kept on
    the list page the entry names, a page of the run: its answers are
    those extracted from that thread's page, it counts them, and it lies
    in the accepted collection exactly when one of them is accepted, in
    which case it carries the accepted ones. *)
Theorem results_provenance (d : gmap string FileContent) :
  let st := snd (scrape_sap_community urljoin w topic_url max_pages max_questions resume d) in
  let lo := start_page_of topic_url resume d in
  Forall (entry_sound urljoin w lo max_pages true) (accepted_results st) /\
  Forall (entry_sound urljoin w lo max_pages false) (no_accepted_results st).
Proof.
  apply (sound_results_body urljoin w topic_url max_pages max_questions
           (start_page_of topic_url resume d) (start_page_of topic_url resume d));
    [lia|]. split; constructor.
Qed.

(** X15. Every checkpoint, result file and spreadsheet of a run is
    written under the name generated from the topic's URL or from a
    thread link kept on one of its list pages, as the file of that kind,
    and so lies in the data directory under the fixed prefix. *)
Theorem run_writes_named_files (d : gmap string FileContent) :
  let st := snd (scrape_sap_community urljoin w topic_url max_pages max_questions resume d) in
  let lo := start_page_of topic_url resume d in
  Forall (fun ev =>
            named_write w topic_url lo max_pages ev /\
            forall a path content,
              ev = EvWrite a path content -> Py.startswith path data_prefix = true)
         (log st).
Proof.
  intros st lo.
  assert (Forall (named_write w topic_url lo max_pages) (log st)) as H.
  { apply (named_files_body urljoin w topic_url max_pages max_questions lo lo); [lia|].
    split; [|constructor]. exists topic_url. split; [by left | reflexivity]. }
  eapply Forall_impl; [exact H|]. intros ev Hev. split; [exact Hev|].
  intros a path content ->. destruct Hev as (u & _ & ->). apply data_file_prefix.
Qed.

End RunProvenance.

(** ** The numbering of the answers *)

Section Numbering.

Variable urljoin : string -> string -> string.

Lemma response_entry_number page_url i elem r :
  response_entry urljoin page_url i elem = Ok r -> response_number r = Z.of_nat i + 1.
Proof.
  unfold response_entry, mbind, outcome_bind. intros H.
  destruct (ans_body elem) as [body|]; [|discriminate].
  destruct (if Py.truthy (default "" body) then _ else _); [|discriminate].
  destruct (ans_class elem) as [class_attr|]; [|discriminate].
  destruct (ans_author elem); [|discriminate].
  destruct (ans_date elem); [|discriminate].
  injection H as <-. reflexivity.
Qed.

Lemma responses_from_position page_url i answer_elements r :
  In r (responses_from urljoin page_url i answer_elements) ->
  exists k elem,
    answer_elements !! k = Some elem /\
    response_entry urljoin page_url (i + k) elem = Ok r.
Proof.
  revert i. induction answer_elements as [|elem rest IH]; intros i; simpl; [tauto|].
  assert (In r (responses_from urljoin page_url (S i) rest) ->
          exists k el, (elem :: rest) !! k = Some el /\
                       response_entry urljoin page_url (i + k) el = Ok r) as Hrest.
  { intros (k & el & Hk & Hr)%IH. exists (S k), el. split; [exact Hk|].
    by replace (i + S k)%nat with (S i + k)%nat by lia. }
  destruct (response_entry urljoin page_url i elem) as [r0|e] eqn:E; [|exact Hrest].
  intros [<-|H]; [|auto]. exists 0%nat, elem. split; [reflexivity|].
  by rewrite Nat.add_0_r.
Qed.

Lemma responses_from_length page_url i answer_elements :
  (length (responses_from urljoin page_url i answer_elements) <= length answer_elements)%nat.
Proof.
  revert i. induction answer_elements as [|elem rest IH]; intros i; simpl; [lia|].
  specialize (IH (S i)). destruct (response_entry urljoin page_url i elem); simpl; lia.
Qed.

Lemma responses_from_sorted page_url i answer_elements :
  StronglySorted Z.lt
    (map response_number (responses_from urljoin page_url i answer_elements)).
Proof.
  revert i. induction answer_elements as [|elem rest IH]; intros i; simpl; [constructor|].
  destruct (response_entry urljoin page_url i elem) as [r|e] eqn:E; [|apply IH].
  simpl. constructor; [apply IH|]. apply List.Forall_forall. intros n Hn.
  apply in_map_iff in Hn as (r' & <- & Hr').
  apply responses_from_position in Hr' as (k & el & _ & Hk).
  apply response_entry_number in E, Hk. lia.
Qed.

(** X16. The answers extracted from a thread page are numbered by the
    position of their element on the page, counted from 1, also after an
    element that failed: the numbers increase strictly, every answer is
    the entry built from the element at its number, and there are no
    more answers than elements. *)
Theorem responses_numbered_by_position (page : ThreadPage) :
  let responses := extract_all_responses urljoin page in
  StronglySorted Z.lt (map response_number responses) /\
  forall answer_elements,
    tp_answers page = Ok answer_elements ->
    (length responses <= length answer_elements)%nat /\
    forall r, In r responses ->
      1 <= response_number r <= Z.of_nat (length answer_elements) /\
      exists elem,
        answer_elements !! Z.to_nat (response_number r - 1) = Some elem /\
        response_entry urljoin (tp_url page) (Z.to_nat (response_number r - 1)) elem = Ok r.
Proof.
  unfold extract_all_responses. split.
  - destruct (tp_answers page); [apply responses_from_sorted | constructor].
  - intros answer_elements ->. split; [apply responses_from_length|].
    intros r (k & elem & Hk & Hr)%responses_from_position. simpl in Hr.
    pose proof (response_entry_number _ _ _ _ Hr) as Hn.
    pose proof (lookup_lt_Some _ _ _ Hk) as Hlt.
    replace (Z.to_nat (response_number r - 1)) with k by lia.
    split; [lia | eauto].
Qed.

End Numbering.

(** ** The rows of the spreadsheet *)

Lemma seen_url_rows (rows : list ExcelRow) (u : string) :
  existsb (fun row => String.eqb (row_url row) u) rows = seen_url (map row_url rows) u.
Proof.
  unfold seen_url. induction rows as [|row rows IH]; simpl; [reflexivity|].
  by rewrite IH, String.eqb_sym.
Qed.

Lemma seen_url_app (seen : list string) (u v : string) :
  seen_url (seen ++ [v]) u = seen_url seen u || String.eqb v u.
Proof.
  unfold seen_url. rewrite existsb_app. simpl. by rewrite orb_false_r, String.eqb_sym.
Qed.

Lemma add_no_accepted_rows_shape (no_accepted_list : list ThreadRecord)
    (excel_rows : list ExcelRow) :
  exists kept,
    add_no_accepted_rows no_accepted_list excel_rows
    = (excel_rows ++ map no_accepted_row kept)%list /\
    sublist kept no_accepted_list /\
    map url kept
    = List.filter (fun u => negb (seen_url (map row_url excel_rows) u))
        (first_seen (map url no_accepted_list)).
Proof.
  revert excel_rows. induction no_accepted_list as [|n rest IH]; intros excel_rows; simpl.
  - exists []. rewrite app_nil_r. repeat split. constructor.
  - rewrite seen_url_rows. destruct (seen_url (map row_url excel_rows) (url n)) eqn:E; simpl.
    + destruct (IH excel_rows) as (kept & -> & Hs & Hu). exists kept.
      split; [reflexivity|]. split; [by constructor|]. rewrite Hu.
      rewrite filter_filter. apply List.filter_ext. intros u.
      destruct (String.eqb_spec (url n) u) as [<-|Hne]; simpl.
      * by rewrite E.
      * by rewrite ?andb_true_r.
    + destruct (IH (excel_rows ++ [no_accepted_row n])%list) as (kept & -> & Hs & Hu).
      exists (n :: kept). rewrite <- app_assoc. split; [reflexivity|].
      split; [by constructor|]. simpl. f_equal. rewrite Hu, filter_filter.
      apply List.filter_ext. intros u. rewrite map_app. simpl.
      rewrite seen_url_app, negb_orb. apply andb_comm.
Qed.

(** X18. The spreadsheet has one row for every accepted entry, in order,
    followed by rows for entries without accepted answer: one for every
    URL among them that no accepted entry has, at its first occurrence.
    An entry without accepted answer whose URL a row already has gets no
    row. *)
Theorem excel_rows_shape (accepted_list no_accepted_list : list ThreadRecord) :
  exists kept,
    excel_rows_of accepted_list no_accepted_list
    = (map accepted_row accepted_list ++ map no_accepted_row kept)%list /\
    sublist kept no_accepted_list /\
    map url kept
    = List.filter (fun u => negb (seen_url (map url accepted_list) u))
        (first_seen (map url no_accepted_list)) /\
    NoDup (map url kept).
Proof.
  unfold excel_rows_of.
  destruct (add_no_accepted_rows_shape no_accepted_list (map accepted_row accepted_list))
    as (kept & E & Hs & Hu).
  rewrite map_map in Hu. simpl in Hu.
  exists kept. repeat split; auto.
  rewrite Hu. apply NoDup_ListNoDup, List.NoDup_filter, first_seen_NoDup.
Qed.

(** ** The retries *)

Section Retries.

Variable w : World.

Lemma attempts_done_more (ok : nat -> bool) (a n k : nat) (r : outcome bool) :
  ok a = false -> attempts_done ok (S a) n k r -> (0 < n)%nat ->
  attempts_done ok a (S n) (S k) r.
Proof.
  intros Ha (Hk & Hpos & Hfail & Htrue & Hfalse) Hn. specialize (Hpos Hn).
  unfold attempts_done. split; [lia|]. split; [lia|]. split; [|split].
  - intros j Hj. destruct (decide (j = a)) as [->|Hne]; [exact Ha|]. apply Hfail. lia.
  - replace (a + S k - 1)%nat with (S a + k - 1)%nat by lia. rewrite Htrue.
    split; intros [? ?]; split; auto; lia.
  - intros Hr. destruct (Hfalse Hr) as [-> Hall]. split; [reflexivity|].
    intros j Hj. destruct (decide (j = a)) as [->|Hne]; [exact Ha|]. apply Hall. lia.
Qed.

Lemma attempts_done_last (ok : nat -> bool) (a : nat) (r : outcome bool) :
  ok a = false -> r <> Ok true -> attempts_done ok a 1 1 r.
Proof.
  intros Ha Hr. unfold attempts_done. split; [lia|]. split; [lia|]. split; [|split].
  - intros j Hj. lia.
  - replace (a + 1 - 1)%nat with a by lia. rewrite Ha. split; [tauto | intros [_ ?]; discriminate].
  - intros _. split; [reflexivity|]. intros j Hj. by replace j with a by lia.
Qed.

Lemma attempts_done_raise (ok : nat -> bool) (a n : nat) (e : exn) :
  ok a = false -> attempts_done ok a (S n) 1 (Raise e).
Proof.
  intros Ha. unfold attempts_done. split; [lia|]. split; [lia|]. split; [|split].
  - intros j Hj. lia.
  - replace (a + 1 - 1)%nat with a by lia. rewrite Ha.
    split; [discriminate | intros [_ ?]; discriminate].
  - discriminate.
Qed.

Lemma attempts_done_first (ok : nat -> bool) (a n : nat) :
  ok a = true -> attempts_done ok a (S n) 1 (Ok true).
Proof.
  intros Ha. unfold attempts_done. split; [lia|]. split; [lia|]. split; [|split].
  - intros j Hj. lia.
  - replace (a + 1 - 1)%nat with a by lia. rewrite Ha. split; auto.
  - discriminate.
Qed.

Lemma goto_list_attempts_done page_num u a n st :
  exists k,
    log (snd (goto_list_attempts w page_num u a n st))
    = (log st ++ map (EvGotoList page_num u) (seq a k))%list /\
    attempts_done (list_attempt_ok w page_num) a n k
      (fst (goto_list_attempts w page_num u a n st)).
Proof.
  revert a st. induction n as [|n IH]; intros a st.
  { exists 0%nat. simpl. rewrite app_nil_r. split; [reflexivity|].
    unfold attempts_done. split; [lia|]. split; [lia|]. split; [intros; lia|].
    split; [split; [discriminate | intros [? _]; lia]|]. intros _. split; [reflexivity|].
    intros; lia. }
  set (st1 := snd (emit (EvGotoList page_num u a) st)).
  assert (forall k st',
            log st' = log st1 ++ map (EvGotoList page_num u) (seq (S a) k) ->
            log st' = log st ++ map (EvGotoList page_num u) (seq a (S k))) as Hlog.
  { intros k st' ->. subst st1. simpl. by rewrite <- app_assoc. }
  assert (list_attempt_ok w page_num a = false ->
          exists k,
            log (snd (goto_list_attempts w page_num u (S a) n st1))
            = (log st ++ map (EvGotoList page_num u) (seq a k))%list /\
            attempts_done (list_attempt_ok w page_num) a (S n) k
              (fst (goto_list_attempts w page_num u (S a) n st1))) as Hnext.
  { intros Ha. destruct (IH (S a) st1) as (k & Hl & Hd). destruct n as [|n'].
    - exists 1%nat. simpl. split; [reflexivity|].
      apply attempts_done_last; [exact Ha | discriminate].
    - exists (S k). split; [by apply (Hlog k)|].
      apply attempts_done_more; auto. lia. }
  assert (list_attempt_ok w page_num a = false ->
          forall e, exists k,
            log st1 = (log st ++ map (EvGotoList page_num u) (seq a k))%list /\
            attempts_done (list_attempt_ok w page_num) a (S n) k (Raise e)) as Hraise.
  { intros Ha e. exists 1%nat. split; [reflexivity|]. by apply attempts_done_raise. }
  cbn [goto_list_attempts].
  unfold try_catch, wait_unless_last, lift, mbind, M_bind. fold st1.
  change (emit (EvGotoList page_num u a) st) with (Ok tt, st1).
  cbv iota beta.
  assert (forall title, list_goto w page_num a = Ok title ->
            list_attempt_ok w page_num a = negb (blocked_title title)) as Hok.
  { intros title E. unfold list_attempt_ok. by rewrite E. }
  assert (forall e, list_goto w page_num a = Raise e ->
            list_attempt_ok w page_num a = false) as Hko.
  { intros e E. unfold list_attempt_ok. by rewrite E. }
  destruct (list_goto w page_num a) as [title|e]; simpl.
  - specialize (Hok title eq_refl). destruct (blocked_title title); simpl in *.
    + destruct (a <? 2)%nat; simpl; [|by apply Hnext].
      destruct (wait w (Backoff page_num a)) as [[]|e]; simpl; [by apply Hnext|].
      destruct (wait w (AfterFailure page_num a)) as [[]|e']; simpl;
        [by apply Hnext | by apply Hraise].
    + exists 1%nat. split; [reflexivity|]. by apply attempts_done_first.
  - specialize (Hko e eq_refl). destruct (a <? 2)%nat; simpl; [|by apply Hnext].
    destruct (wait w (AfterFailure page_num a)) as [[]|e']; simpl;
      [by apply Hnext | by apply Hraise].
Qed.

Lemma goto_thread_attempts_done page_num q_url a n st :
  exists k,
    log (snd (goto_thread_attempts w page_num q_url a n st))
    = (log st ++ map (EvGotoThread page_num q_url) (seq a k))%list /\
    attempts_done (thread_attempt_ok w page_num q_url) a n k
      (fst (goto_thread_attempts w page_num q_url a n st)).
Proof.
  revert a st. induction n as [|n IH]; intros a st.
  { exists 0%nat. simpl. rewrite app_nil_r. split; [reflexivity|].
    unfold attempts_done. split; [lia|]. split; [lia|]. split; [intros; lia|].
    split; [split; [discriminate | intros [? _]; lia]|]. intros _. split; [reflexivity|].
    intros; lia. }
  set (st1 := snd (emit (EvGotoThread page_num q_url a) st)).
  cbn [goto_thread_attempts].
  unfold try_catch, lift, mbind, M_bind. fold st1.
  change (emit (EvGotoThread page_num q_url a) st) with (Ok tt, st1).
  cbv iota beta.
  assert (thread_attempt_ok w page_num q_url a
          = is_ok (thread_goto w page_num q_url a)) as Hok by reflexivity.
  destruct (thread_goto w page_num q_url a) as [[]|e]; simpl in *.
  - exists 1%nat. split; [reflexivity|]. by apply attempts_done_first.
  - destruct (wait w (ThreadRetry page_num q_url a)) as [[]|e']; simpl.
    + destruct (IH (S a) st1) as (k & Hl & Hd). destruct n as [|n'].
      * exists 1%nat. simpl. split; [reflexivity|].
        apply attempts_done_last; [exact Hok | discriminate].
      * exists (S k). split; [rewrite Hl; subst st1; simpl; by rewrite <- app_assoc|].
        apply attempts_done_more; auto. lia.
    + exists 1%nat. split; [reflexivity|]. by apply attempts_done_raise.
Qed.

(** X19. A list page is tried at most three times, in order and without
    a gap: the loop logs the attempts [0] to [k - 1] for some [k] from 1
    to 3, all but the last of them failed or were blocked, the loop
    answers success exactly when the last one got the page, and it
    answers failure only after three attempts that all failed. *)
Theorem list_page_retries page_num u st :
  let r := goto_list_attempts w page_num u 0 3 st in
  exists k,
    (1 <= k <= 3)%nat /\
    log (snd r) = (log st ++ map (EvGotoList page_num u) (seq 0 k))%list /\
    (forall j, (j < k - 1)%nat -> list_attempt_ok w page_num j = false) /\
    (fst r = Ok true <-> list_attempt_ok w page_num (k - 1) = true) /\
    (fst r = Ok false ->
     k = 3%nat /\ forall j, (j < 3)%nat -> list_attempt_ok w page_num j = false).
Proof.
  destruct (goto_list_attempts_done page_num u 0 3 st)
    as (k & Hl & Hk & Hpos & Hfail & Htrue & Hfalse).
  exists k. split; [lia|]. split; [exact Hl|]. split; [|split].
  - intros j Hj. apply Hfail. lia.
  - cbv zeta. rewrite Htrue. simpl. split; [tauto | intros H; split; [lia | exact H]].
  - intros Hr. destruct (Hfalse Hr) as [-> Hall]. split; [reflexivity|].
    intros j Hj. apply Hall. lia.
Qed.

(** X20. A thread page is tried at most twice: the loop logs the
    attempts [0] to [k - 1] for [k] 1 or 2, the second only after the
    first failed, it answers success exactly when the last attempt got
    the page, and failure only after two failed attempts. *)
Theorem thread_page_retries page_num q_url st :
  let r := goto_thread_attempts w page_num q_url 0 2 st in
  exists k,
    (1 <= k <= 2)%nat /\
    log (snd r) = (log st ++ map (EvGotoThread page_num q_url) (seq 0 k))%list /\
    (forall j, (j < k - 1)%nat -> thread_attempt_ok w page_num q_url j = false) /\
    (fst r = Ok true <-> thread_attempt_ok w page_num q_url (k - 1) = true) /\
    (fst r = Ok false ->
     k = 2%nat /\ forall j, (j < 2)%nat -> thread_attempt_ok w page_num q_url j = false).
Proof.
  destruct (goto_thread_attempts_done page_num q_url 0 2 st)
    as (k & Hl & Hk & Hpos & Hfail & Htrue & Hfalse).
  exists k. split; [lia|]. split; [exact Hl|]. split; [|split].
  - intros j Hj. apply Hfail. lia.
  - cbv zeta. rewrite Htrue. simpl. split; [tauto | intros H; split; [lia | exact H]].
  - intros Hr. destruct (Hfalse Hr) as [-> Hall]. split; [reflexivity|].
    intros j Hj. apply Hall. lia.
Qed.

End Retries.

(** ** One list page *)

Section ListPage.

Variable urljoin : string -> string -> string.
Variable w : World.
Variable topic_url : string.
Variable max_questions : option Z.

Lemma after_fetch_threads page_num (success : bool) :
  respects (emits (after_fetch page_num))
    (page_rest urljoin w max_questions page_num success).
Proof.
  unfold page_rest.
  pose proof (emits_visit_threads urljoin w max_questions (after_fetch page_num)
                (fun _ _ _ => I) (fun _ _ => I) page_num) as Hv.
  assert (forall q_urls, respects (emits (after_fetch page_num))
            (visit_threads urljoin w max_questions page_num q_urls)) as Hv'.
  { intros q_urls. apply Hv; simpl; auto. }
  repeat first [ apply Hv' | respects_step ].
Qed.

(** X21. One iteration of the page loop, with the data directory made
    and the wait before the fetch over, logs in this order: the write of
    the checkpoint that names this page and its URL, under the current
    base name; the attempts at the list page, from 1 to 3 of them; and
    after them only writes, flushes and the visits and appends of
    threads of this page. *)
Theorem list_page_log_shape (page_num : Z) (st : State) :
  mkdir w SCRAPPED_DATA_DIR = Ok tt ->
  wait w (BeforeFetch page_num) = Ok tt ->
  let url := list_url topic_url page_num in
  let st' := snd (scrape_list_page urljoin w topic_url max_questions page_num st) in
  exists (k : nat) (rest : list Event),
    (1 <= k <= 3)%nat /\
    log st'
    = (log st
       ++ EvWrite ACheckpoint (checkpoint_file (base_filename st))
            (CheckpointJson (Some page_num) (Some url))
       :: map (EvGotoList page_num url) (seq 0 k) ++ rest)%list /\
    Forall (after_fetch page_num) rest.
Proof.
  intros Hmk Hwait url st'. subst st'.
  change (scrape_list_page urljoin w topic_url max_questions page_num st)
    with ((gets base_filename ≫= fun base =>
           save_progress_checkpoint w base page_num url ≫= fun _ =>
           lift (wait w (BeforeFetch page_num)) ≫= fun _ =>
           goto_list_attempts w page_num url 0 3 ≫=
           page_rest urljoin w max_questions page_num) st).
  rewrite bind_gets.
  destruct (save_progress_checkpoint_effect w (base_filename st) page_num url st Hmk)
    as (Hf & Hl & _). cbv zeta in Hf, Hl.
  destruct (bind_cases (save_progress_checkpoint w (base_filename st) page_num url)
              (fun _ => lift (wait w (BeforeFetch page_num)) ≫= fun _ =>
                        goto_list_attempts w page_num url 0 3 ≫=
                        page_rest urljoin w max_questions page_num) st)
    as [(e & Hm & _) | (a0 & Hm & ->)].
  { rewrite Hm in Hf. discriminate. }
  set (st1 := snd (save_progress_checkpoint w (base_filename st) page_num url st)) in *.
  rewrite bind_lift, Hwait.
  destruct (goto_list_attempts_done w page_num url 0 3 st1) as (k & Hg & Hk & Hpos & _).
  destruct (bind_cases (goto_list_attempts w page_num url 0 3)
              (page_rest urljoin w max_questions page_num) st1)
    as [(e0 & Hm' & ->) | (success & Hm' & ->)].
  - exists k, []. split; [lia|]. cbn [snd]. rewrite Hg, Hl, app_nil_r, <- app_assoc.
    split; [reflexivity | constructor].
  - destruct (after_fetch_threads page_num success
                (snd (goto_list_attempts w page_num url 0 3 st1))) as (rest & Hr & HF).
    exists k, rest. split; [lia|]. rewrite Hr, Hg, Hl, <- !app_assoc.
    split; [reflexivity | exact HF].
Qed.

End ListPage.

(** ** The order of the pages *)

Lemma StronglySorted_app_le (l1 l2 : list Z) :
  StronglySorted Z.le l1 -> StronglySorted Z.le l2 ->
  (forall x y, In x l1 -> In y l2 -> x <= y) ->
  StronglySorted Z.le (l1 ++ l2).
Proof.
  intros H1 H2 H. induction H1 as [|x l1 Hs IH Hx]; simpl; [exact H2|].
  constructor.
  - apply IH. intros a b Ha Hb. apply H; [by right | exact Hb].
  - apply Forall_app. split; [exact Hx|]. apply List.Forall_forall. intros y Hy.
    apply H; [by left | exact Hy].
Qed.

Lemma seqZ_sorted (len : nat) (m : Z) : StronglySorted Z.lt (seqZ m (Z.of_nat len)).
Proof.
  revert m. induction len as [|len IH]; intros m.
  - rewrite seqZ_nil by lia. constructor.
  - rewrite seqZ_cons by lia. replace (Z.pred (Z.of_nat (S len))) with (Z.of_nat len) by lia.
    constructor; [apply IH|]. apply List.Forall_forall. intros y Hy.
    apply list_elem_of_In, elem_of_seqZ in Hy. lia.
Qed.

Lemma page_range_sorted (max_pages start_page : Z) :
  StronglySorted Z.lt (page_range max_pages start_page).
Proof.
  unfold page_range. destruct (decide (0 <= max_pages + 1 - start_page)) as [Hle|Hlt].
  - rewrite <- (Z2Nat.id _ Hle). apply seqZ_sorted.
  - rewrite seqZ_nil by lia. constructor.
Qed.

Section PageOrder.

Variable urljoin : string -> string -> string.
Variable w : World.
Variable topic_url : string.
Variable max_pages : Z.
Variable max_questions : option Z.
Variable resume : bool.

Lemma scrape_list_page_trace page_num st :
  exists evs,
    log (snd (scrape_list_page urljoin w topic_url max_questions page_num st))
    = (log st ++ evs)%list /\
    Forall (fun q => q = page_num) (page_trace evs).
Proof.
  destruct (emits_scrape_list_page urljoin w topic_url max_questions
              (fun ev => forall q, event_page ev = Some q -> q = page_num)) with
    (page_num := page_num) (st := st) as (evs & Hl & HF);
    try (intros; simpl in *; congruence).
  exists evs. split; [exact Hl|]. clear Hl.
  induction HF as [|ev evs Hev _ IH]; [constructor|].
  unfold page_trace in *. simpl. destruct (event_page ev) as [q|] eqn:E; simpl; auto.
Qed.

Lemma crawl_pages_trace pages : forall lo st,
  StronglySorted Z.lt pages -> Forall (fun q => lo <= q) pages ->
  exists evs,
    log (snd (crawl_pages urljoin w topic_url max_questions pages st)) = (log st ++ evs)%list /\
    Forall (fun q => lo <= q) (page_trace evs) /\
    StronglySorted Z.le (page_trace evs).
Proof.
  induction pages as [|page_num rest IH]; intros lo st Hs Hlo.
  { exists []. simpl. rewrite app_nil_r. repeat split; constructor. }
  apply StronglySorted_inv in Hs as [Hs Hlt]. apply Forall_cons in Hlo as [Hp Hlo].
  destruct (scrape_list_page_trace page_num st) as (evs1 & Hl1 & H1).
  assert (Forall (fun q => lo <= q) (page_trace evs1)) as Hlo1.
  { eapply List.Forall_impl; [|exact H1]. simpl. intros q ->. exact Hp. }
  assert (StronglySorted Z.le (page_trace evs1)) as Hs1.
  { clear -H1. induction H1 as [|q l -> Hl IH]; constructor; auto.
    eapply List.Forall_impl; [|exact Hl]. simpl. intros q ->. lia. }
  cbn [crawl_pages].
  destruct (bind_cases (scrape_list_page urljoin w topic_url max_questions page_num)
              (fun c => match c with
                        | Break => mret tt
                        | Continue => crawl_pages urljoin w topic_url max_questions rest
                        end) st) as [(e & Hm & ->) | ([|] & Hm & ->)].
  - exists evs1. auto.
  - destruct (IH (page_num + 1) (snd (scrape_list_page urljoin w topic_url max_questions
                                        page_num st))) as (evs2 & Hl2 & Hlo2 & Hs2).
    { exact Hs. }
    { eapply List.Forall_impl; [|exact Hlt]. simpl. intros q Hq. lia. }
    exists (evs1 ++ evs2)%list. rewrite Hl2, Hl1, <- app_assoc. split; [reflexivity|].
    unfold page_trace in *. rewrite omap_app. split.
    + apply Forall_app. split; [exact Hlo1|].
      eapply List.Forall_impl; [|exact Hlo2]. simpl. intros q Hq. lia.
    + apply StronglySorted_app_le; auto. intros x y Hx Hy.
      rewrite List.Forall_forall in H1, Hlo2. rewrite (H1 x Hx).
      specialize (Hlo2 y Hy). simpl in Hlo2. lia.
  - exists evs1. auto.
Qed.

(** X22. A run goes through the list pages in increasing order and
    never returns: in its log the pages of the fetches, thread visits
    and appends never decrease. *)
Theorem pages_in_order (d : gmap string FileContent) :
  StronglySorted Z.le
    (page_trace
       (log (snd (scrape_sap_community urljoin w topic_url max_pages max_questions resume d)))).
Proof.
  unfold scrape_sap_community, scrape_body.
  set (start_page := start_page_of topic_url resume d).
  set (st := initial_state topic_url d).
  destruct (crawl_pages_trace (page_range max_pages start_page) start_page st)
    as (evs & Hl & _ & Hs).
  { apply page_range_sorted. }
  { apply List.Forall_forall. intros q Hq. unfold page_range in Hq.
    apply list_elem_of_In, elem_of_seqZ in Hq. lia. }
  assert (log st = []) as E by reflexivity. rewrite E in Hl. simpl in Hl.
  unfold lift, gets, mbind, M_bind.
  destruct (launch w) as [[]|e]; simpl; [|constructor].
  destruct (crawl_pages urljoin w topic_url max_questions
              (page_range max_pages start_page) st) as [[[]|e] st2]; simpl in *.
  - destruct (close w) as [[]|e]; simpl; by rewrite Hl.
  - by rewrite Hl.
Qed.

End PageOrder.

(** ** The files of the images *)

Lemma all_chars_take (p : ascii -> bool) (n : nat) (s : string) :
  Py.all_chars p s = true -> Py.all_chars p (Py.take n s) = true.
Proof.
  revert s. induction n as [|n IH]; intros [|c s]; simpl; auto.
  intros [Hc Hs]%andb_true_iff. by rewrite Hc, IH.
Qed.

Lemma all_chars_has_char (c : ascii) (s : string) :
  Py.all_chars (fun d => negb (Ascii.eqb d c)) s = negb (Py.has_char c s).
Proof.
  induction s as [|d s IH]; [reflexivity|]. simpl.
  by rewrite IH, negb_orb, (Ascii.eqb_sym c d).
Qed.

Lemma last_segment_no_slash (s : string) :
  Py.all_chars not_slash (Py.last_segment s) = true.
Proof.
  unfold not_slash. induction s as [|c s IH]; [reflexivity|]. simpl.
  destruct (Py.has_char "/" s) eqn:E; [exact IH|].
  assert (Py.all_chars (fun d => negb (Ascii.eqb d "/")) s = true) as Hs.
  { by rewrite all_chars_has_char, E. }
  destruct (Ascii.eqb c "/") eqn:Ec; [exact Hs|]. simpl. by rewrite Ec, Hs.
Qed.

Lemma ext_of_chars (p : ascii -> bool) (seen_other : bool) (s : string) :
  Py.all_chars p s = true -> Py.all_chars p (Py.ext_of seen_other s) = true.
Proof.
  revert seen_other. induction s as [|c s IH]; intros seen_other; [reflexivity|].
  intros H. pose proof H as [Hc Hs]%andb_true_iff. cbn [Py.ext_of]. cbv zeta.
  specialize (IH (seen_other || negb (Ascii.eqb c ".")) Hs).
  destruct (Py.ext_of _ s) as [|d e]; [|exact IH].
  destruct (Ascii.eqb c "." && seen_other); [exact H | reflexivity].
Qed.

Lemma uint_chars (p : ascii -> bool) (d : Decimal.uint) :
  (forall c, Py.is_digit c = true -> p c = true) ->
  Py.all_chars p (NilEmpty.string_of_uint d) = true.
Proof.
  intros Hp. induction d; simpl; rewrite ?IHd, ?andb_true_r; try reflexivity;
    by apply Hp.
Qed.

Lemma str_of_nat_chars (p : ascii -> bool) (i : nat) :
  (forall c, Py.is_digit c = true -> p c = true) ->
  Py.all_chars p (Py.str_of_int (Z.of_nat i)) = true.
Proof.
  intros Hp. unfold Py.str_of_int, NilZero.string_of_int.
  destruct (Z.to_int (Z.of_nat i)) as [d|d] eqn:E.
  - unfold NilZero.string_of_uint. destruct d; try (by apply uint_chars).
    simpl. rewrite andb_true_r. by apply Hp.
  - exfalso. destruct i; simpl in E; [discriminate|]. unfold Z.to_int in E. discriminate.
Qed.

Lemma digit_not_slash (c : ascii) : Py.is_digit c = true -> not_slash c = true.
Proof.
  unfold not_slash. destruct (Ascii.eqb_spec c "/") as [->|Hne]; [|reflexivity].
  intros H. vm_compute in H. discriminate.
Qed.

Lemma safe_not_slash (c : ascii) :
  negb (Py.unsafe_filename_char c) = true -> not_slash c = true.
Proof.
  unfold not_slash. destruct (Ascii.eqb_spec c "/") as [->|Hne]; [|reflexivity].
  intros H. vm_compute in H. discriminate.
Qed.

Section ImageFiles.

Variable urljoin : string -> string -> string.

#[local] Opaque Py.take.

Lemma image_entry_stored base_url images_dir i img entry :
  image_entry urljoin base_url images_dir i img = Ok (Some entry) ->
  stored_in images_dir entry.
Proof.
  unfold image_entry, mbind, outcome_bind. intros H.
  destruct (img_src img) as [src|]; [|discriminate].
  destruct (img_alt img) as [alt_attr|]; [|discriminate].
  destruct (negb (Py.truthy (default "" src))); [discriminate|].
  destruct (img_status img) as [status|]; [|discriminate].
  destruct (status =? 200); [|discriminate].
  destruct (img_store img); [|discriminate].
  injection H as <-. unfold stored_in. cbn [filename local_path].
  split; [|split; [|reflexivity]].
  - assert (Py.all_chars not_slash
              (or_default (Some (Py.splitext_ext
                                   (Py.urlparse_path
                                      (resolve_src urljoin base_url (default "" src)))))
                 ".jpg") = true) as Hext.
    { unfold or_default. destruct (Py.truthy (Py.splitext_ext _)); [|reflexivity].
      unfold Py.splitext_ext. apply ext_of_chars, last_segment_no_slash. }
    rewrite !all_chars_app, !andb_true_iff. repeat split;
      first [ exact Hext
            | apply str_of_nat_chars, digit_not_slash
            | apply all_chars_take;
              apply (all_chars_weaken _ _ _ safe_not_slash), sub_unsafe_chars ].
  - destruct (Py.take 50 _); reflexivity.
Qed.

#[local] Transparent Py.take.

(** X17. Every image entry names a file directly in the images
    directory it was given: its file name is not empty and holds no
    slash, whatever the [alt] text and the URL of the image are, and its
    local path is the directory joined with that name. *)
Theorem image_files_in_directory (img_elements : outcome (list ImgElem))
    (base_url images_dir : string) :
  Forall (stored_in images_dir)
    (extract_images_from_element urljoin img_elements base_url images_dir).
Proof.
  unfold extract_images_from_element. destruct img_elements as [imgs|e]; [|constructor].
  generalize 0%nat. induction imgs as [|img rest IH]; intros i; simpl; [constructor|].
  destruct (image_entry urljoin base_url images_dir i img) as [[entry|]|e] eqn:E; auto.
  constructor; [|apply IH]. by apply (image_entry_stored base_url images_dir i img).
Qed.

End ImageFiles.

(** *** No two images of an element share a file *)

Lemma append_last_char (c : ascii) (a1 t1 a2 t2 : string) :
  Py.has_char c t1 = false -> Py.has_char c t2 = false ->
  a1 +:+ String c t1 = a2 +:+ String c t2 -> a1 = a2 /\ t1 = t2.
Proof.
  intros H1 H2. revert a2. induction a1 as [|x a1 IH]; intros [|y a2]; rewrite ?append_cons.
  - intros [= ->]. auto.
  - change ("" +:+ String c t1) with (String c t1). intros [= <- ->]. exfalso.
    clear -H1. induction a2 as [|z a2 IH]; rewrite ?append_cons in H1; simpl in H1.
    + by rewrite Ascii.eqb_refl in H1.
    + apply orb_false_iff in H1 as [_ H1]. auto.
  - change ("" +:+ String c t2) with (String c t2). intros [= -> <-]. exfalso.
    clear -H2. induction a1 as [|z a1 IH]; rewrite ?append_cons in H2; simpl in H2.
    + by rewrite Ascii.eqb_refl in H2.
    + apply orb_false_iff in H2 as [_ H2]. auto.
  - intros [= -> H]. destruct (IH _ H) as [-> ->]. auto.
Qed.

Lemma ext_of_none (s : string) : Py.ext_of true s = "" -> Py.has_char "." s = false.
Proof.
  induction s as [|c s IH]; [reflexivity|]. cbn [Py.ext_of]. cbv zeta. simpl orb.
  destruct (Py.ext_of true s) as [|d e]; [|discriminate].
  rewrite andb_true_r. destruct (Ascii.eqb c ".") eqn:E; [discriminate|].
  intros _. cbn [Py.has_char]. rewrite Ascii.eqb_sym, E. by apply IH.
Qed.

Lemma ext_of_shape (seen_other : bool) (s : string) :
  Py.ext_of seen_other s = "" \/
  exists t, Py.ext_of seen_other s = String "." t /\ Py.has_char "." t = false.
Proof.
  revert seen_other. induction s as [|c s IH]; intros seen_other; [by left|].
  cbn [Py.ext_of]. cbv zeta.
  destruct (IH (seen_other || negb (Ascii.eqb c "."))) as [E|(t & E & Ht)].
  - rewrite E. destruct (Ascii.eqb_spec c ".") as [->|Hne]; simpl; [|by left].
    destruct seen_other; simpl in *; [|by left].
    right. exists s. split; [reflexivity|]. by apply ext_of_none.
  - rewrite E. right. eauto.
Qed.

Lemma digit_chars_lack (c : ascii) (d : Decimal.uint) :
  Py.is_digit c = false -> Py.has_char c (NilEmpty.string_of_uint d) = false.
Proof.
  intros Hc. induction d; cbn [NilEmpty.string_of_uint Py.has_char];
    rewrite ?IHd, ?orb_false_r; try reflexivity;
    match goal with
    | |- Ascii.eqb c ?ch = false =>
        destruct (Ascii.eqb_spec c ch) as [->|]; [discriminate | reflexivity]
    end.
Qed.

Lemma str_of_nat_lacks (c : ascii) (i : nat) :
  Py.is_digit c = false -> Py.has_char c (Py.str_of_int (Z.of_nat i)) = false.
Proof.
  intros Hc. unfold Py.str_of_int, NilZero.string_of_int.
  destruct (Z.to_int (Z.of_nat i)) as [d|d] eqn:E.
  - unfold NilZero.string_of_uint. destruct d; try (by apply digit_chars_lack).
    cbn [Py.has_char]. rewrite orb_false_r.
    destruct (Ascii.eqb_spec c "0") as [->|]; [discriminate | reflexivity].
  - exfalso. destruct i; simpl in E; discriminate.
Qed.

Lemma str_of_int_inj (m n : Z) : Py.str_of_int m = Py.str_of_int n -> m = n.
Proof.
  unfold Py.str_of_int. intros H. apply to_int_inj.
  assert (forall z, Z.to_int z <> Decimal.Pos Decimal.Nil /\
                    Z.to_int z <> Decimal.Neg Decimal.Nil) as Hnz.
  { intros [|p|p]; simpl; split; try discriminate; intros [= E];
      by apply Unsigned.to_uint_nonnil in E. }
  apply (f_equal NilZero.int_of_string) in H.
  rewrite !NilZero.isi in H by apply Hnz. by injection H.
Qed.

Lemma append_cons_assoc (a b d : string) (c : ascii) :
  a +:+ String c (b +:+ d) = (a +:+ String c b) +:+ d.
Proof. by rewrite append_assoc, append_cons. Qed.

Lemma name_index_inj (stem1 stem2 t1 t2 : string) (i j : nat) :
  Py.has_char "." t1 = false -> Py.has_char "." t2 = false ->
  stem1 +:+ String "_" (Py.str_of_int (Z.of_nat i) +:+ String "." t1)
  = stem2 +:+ String "_" (Py.str_of_int (Z.of_nat j) +:+ String "." t2) ->
  i = j.
Proof.
  intros H1 H2. rewrite !append_cons_assoc. intros H.
  apply append_last_char in H as [H _]; [|assumption..].
  apply append_last_char in H as [_ H]; [|by apply str_of_nat_lacks..].
  apply str_of_int_inj in H. lia.
Qed.

Lemma path_join_relative (images_dir : string) :
  exists pre, forall f,
    Py.startswith f "/" = false -> Py.path_join images_dir f = pre +:+ f.
Proof.
  unfold Py.path_join. destruct images_dir as [|c dir].
  - exists "". by intros f ->.
  - destruct (String.eqb _ "/").
    + exists (String c dir). by intros f ->.
    + exists (String c dir +:+ "/"). intros f ->. by rewrite append_assoc.
Qed.

Lemma NoDup_map_finer {A B C} (f : A -> B) (g : A -> C) (l : list A) :
  (forall x y, In x l -> In y l -> g x = g y -> f x = f y) ->
  List.NoDup (map f l) -> List.NoDup (map g l).
Proof.
  induction l as [|x l IH]; simpl; intros H Hf; [constructor|].
  apply List.NoDup_cons_iff in Hf as [Hx Hf]. constructor.
  - intros (y & Hy & Hin)%in_map_iff. apply Hx, in_map_iff. exists y.
    split; [|exact Hin]. symmetry. apply H; auto.
  - apply IH; auto.
Qed.

Section ImageNames.

Variable urljoin : string -> string -> string.

#[local] Opaque Py.take.

Lemma image_entry_name base_url images_dir i img entry :
  image_entry urljoin base_url images_dir i img = Ok (Some entry) ->
  exists stem t,
    filename entry = stem +:+ String "_" (Py.str_of_int (Z.of_nat i) +:+ String "." t) /\
    Py.has_char "." t = false.
Proof.
  unfold image_entry, mbind, outcome_bind. intros H.
  destruct (img_src img) as [src|]; [|discriminate].
  destruct (img_alt img) as [alt_attr|]; [|discriminate].
  destruct (negb (Py.truthy (default "" src))); [discriminate|].
  destruct (img_status img) as [status|]; [|discriminate].
  destruct (status =? 200); [|discriminate].
  destruct (img_store img); [|discriminate].
  injection H as <-. cbn [filename].
  set (ext := Py.splitext_ext
                (Py.urlparse_path (resolve_src urljoin base_url (default "" src)))).
  assert (exists t, (if Py.truthy ext then ext else ".jpg") = String "." t /\
                    Py.has_char "." t = false) as (t & -> & Ht).
  { subst ext. unfold Py.splitext_ext.
    destruct (ext_of_shape false
                (Py.last_segment
                   (Py.urlparse_path (resolve_src urljoin base_url (default "" src)))))
      as [->|(t & -> & Ht)]; simpl; eauto. }
  eexists _, t. split; [reflexivity | exact Ht].
Qed.

#[local] Transparent Py.take.

Lemma images_from_index base_url images_dir i imgs entry :
  In entry (images_from urljoin base_url images_dir i imgs) ->
  exists k img,
    (i <= k)%nat /\ image_entry urljoin base_url images_dir k img = Ok (Some entry).
Proof.
  revert i. induction imgs as [|img rest IH]; intros i; simpl; [tauto|].
  assert (In entry (images_from urljoin base_url images_dir (S i) rest) ->
          exists k img0, (i <= k)%nat /\
            image_entry urljoin base_url images_dir k img0 = Ok (Some entry)) as Hrest.
  { intros (k & img0 & Hk & E)%IH. exists k, img0. split; [lia | exact E]. }
  destruct (image_entry urljoin base_url images_dir i img) as [[e|]|e] eqn:E; auto.
  intros [<-|H]; [|auto]. exists i, img. split; [lia | exact E].
Qed.

Lemma images_from_names base_url images_dir i imgs :
  List.NoDup (map filename (images_from urljoin base_url images_dir i imgs)).
Proof.
  revert i. induction imgs as [|img rest IH]; intros i; simpl; [constructor|].
  destruct (image_entry urljoin base_url images_dir i img) as [[e|]|e] eqn:E; auto.
  simpl. constructor; [|apply IH].
  intros (e' & Hname & Hin)%in_map_iff.
  apply images_from_index in Hin as (k & img' & Hk & E').
  apply image_entry_name in E as (stem & t & Hf & Ht).
  apply image_entry_name in E' as (stem' & t' & Hf' & Ht').
  rewrite Hf, Hf' in Hname. apply name_index_inj in Hname; [lia | assumption..].
Qed.

(** X23. No two image entries extracted from one element name the same
    file, whatever their [alt] texts and URLs: the number of the image
    in the name tells them apart, so no download of the element
    overwrites another. *)
Theorem images_have_distinct_files (img_elements : outcome (list ImgElem))
    (base_url images_dir : string) :
  let images := extract_images_from_element urljoin img_elements base_url images_dir in
  List.NoDup (map filename images) /\ List.NoDup (map local_path images).
Proof.
  intros images.
  assert (List.NoDup (map filename images)) as Hn.
  { subst images. unfold extract_images_from_element.
    destruct img_elements; [apply images_from_names | constructor]. }
  split; [exact Hn|]. apply (NoDup_map_finer filename); [|exact Hn].
  assert (forall x, In x images -> stored_in images_dir x) as Hs.
  { intros x Hx. subst images. unfold extract_images_from_element in Hx.
    destruct img_elements as [imgs|]; [|destruct Hx].
    apply images_from_index in Hx as (k & img & _ & E).
    by apply (image_entry_stored urljoin base_url images_dir k img). }
  destruct (path_join_relative images_dir) as [pre Hpre].
  assert (forall x, In x images -> local_path x = pre +:+ filename x) as Hp.
  { intros x Hx. destruct (Hs x Hx) as (Hc & Ht & ->). apply Hpre.
    destruct (filename x) as [|c f]; [reflexivity|]. simpl in Hc.
    apply andb_true_iff in Hc as [Hc _]. unfold not_slash in Hc.
    unfold Py.startswith. cbn [String.prefix].
    destruct (Ascii.ascii_dec "/" c) as [<-|]; [discriminate | reflexivity]. }
  intros x y Hx Hy. rewrite (Hp x Hx), (Hp y Hy). apply append_inj_l.
Qed.

End ImageNames.

(** ** Further instances *)


(** page 3 saved on an empty disk and read back *)
Lemma checkpoint_round_trip_witness :
  let r := save_progress_checkpoint world_two_pages crm_base 3 "https://community.sap.com"
             (initial_state crm_topic ∅) in
  fst r = Ok tt /\
  load_progress_checkpoint (disk (snd r)) crm_base = (3, "https://community.sap.com").
Proof.
  intros r.
  destruct (checkpoint_round_trip world_two_pages crm_base 3 "https://community.sap.com"
              (initial_state crm_topic ∅)) as (H1 & H2 & _).
  - reflexivity.
  - reflexivity.
  - split; [exact H1 | exact H2].
Defined.

(** page 5 saved over the checkpoint of an earlier run, on a disk that
    cannot be written *)
Lemma checkpoint_write_failure_is_swallowed_witness :
  let r := save_progress_checkpoint world_read_only crm_base 5 "https://community.sap.com"
             (initial_state crm_topic disk_after_earlier_run) in
  fst r = Ok tt /\ disk (snd r) = disk_after_earlier_run.
Proof.
  intros r.
  apply (checkpoint_write_failure_is_swallowed world_read_only crm_base 5
           "https://community.sap.com" (initial_state crm_topic disk_after_earlier_run)).
  - reflexivity.
  - reflexivity.
Defined.

(** a resumed run on an empty disk *)
Lemma resume_without_checkpoint_witness :
  start_page_of crm_topic true ∅ = 1 /\
  scrape_sap_community sample_urljoin world_two_pages crm_topic 5 None true ∅
  = scrape_sap_community sample_urljoin world_two_pages crm_topic 5 None false ∅.
Proof.
  apply (resume_without_checkpoint sample_urljoin world_two_pages crm_topic 5 None ∅).
  intros p last_url. vm_compute. discriminate.
Defined.

(** a reset of the files an earlier run left, then a resumed run *)
Lemma reset_then_resume_witness :
  let d' := fst (reset_progress (fun _ => true) (generate_filename_from_url crm_topic)
                   disk_after_earlier_run) in
  start_page_of crm_topic true d' = 1 /\
  scrape_sap_community sample_urljoin world_two_pages crm_topic 5 None true d'
  = scrape_sap_community sample_urljoin world_two_pages crm_topic 5 None false d'.
Proof.
  apply (reset_then_resume sample_urljoin world_two_pages crm_topic 5 None (fun _ => true)
           disk_after_earlier_run).
  reflexivity.
Defined.

(** a resumed run of four pages with page 4 in the checkpoint *)
Lemma run_beyond_last_page_witness :
  let run := scrape_sap_community sample_urljoin world_two_pages crm_topic 4 None true
               disk_after_earlier_run in
  log (snd run) = [] /\ disk (snd run) = disk_after_earlier_run /\ fst run = Ok ([], []).
Proof.
  intros run.
  destruct (run_beyond_last_page sample_urljoin world_two_pages crm_topic 4 None true
              disk_after_earlier_run) as (_ & H1 & H2 & H3).
  - vm_compute. reflexivity.
  - split; [exact H1|]. split; [exact H2|]. apply H3; reflexivity.
Defined.

(** page 1 of a fresh run *)
Lemma list_page_log_shape_witness :
  let st' := snd (scrape_list_page sample_urljoin world_two_pages crm_topic None 1
                    (initial_state crm_topic ∅)) in
  exists (k : nat) (rest : list Event),
    (1 <= k <= 3)%nat /\
    log st'
    = (EvWrite ACheckpoint (checkpoint_file (generate_filename_from_url crm_topic))
         (CheckpointJson (Some 1) (Some (list_url crm_topic 1)))
       :: map (EvGotoList 1 (list_url crm_topic 1)) (seq 0 k) ++ rest)%list /\
    Forall (after_fetch 1) rest.
Proof.
  apply (list_page_log_shape sample_urljoin world_two_pages crm_topic None 1
           (initial_state crm_topic ∅)).
  - reflexivity.
  - reflexivity.
Defined.
